(** * Incremental extraction engine of the QQCatalyst ETL pipeline

    A shallow embedding of [extract/api_client.py] (token handling, the
    retried page fetch, the page generator) and of [extract/extractor.py]
    (identifier resolution, deduplication, validation, batched flushes),
    followed by the properties of the two modules.

    Conventions.
    - A Python value that came out of [response.json()] is a [json].
    - A method that can raise returns [exn + A] together with the new state.
    - The outside world is explicit: the HTTP server and the token endpoint
      are functions of the number of calls made so far, [datetime.now()] is
      a function of the number of clock readings made so far, and the
      database takes its failures from a list of scripted outcomes.
    - Time is counted in whole seconds.
    - Logging calls are kept only in [_flush_buffer], where the log is the
      carrier of the per-record diagnostics; elsewhere they do not influence
      control flow and are left out. *)

From stdpp Require Import gmap strings list fin_maps.
From Stdlib Require Import ZArith Lia DecimalString DecimalZ.

#[local] Set Warnings "-register-all".
#[local] Open Scope string_scope.
#[local] Open Scope list_scope.
#[local] Open Scope Z_scope.

(* ===================================================================== *)
(** ** Python values *)
(* ===================================================================== *)

Module Py.

(** Values produced by [json.loads]: [None], booleans, integers, strings,
    lists and string-keyed dicts.  Floating point numbers are not covered. *)
Inductive json :=
| JNull
| JBool (b : bool)
| JInt (n : Z)
| JStr (s : string)
| JList (xs : list json)
| JDict (kvs : gmap string json).

(** Builtins on composite values whose result depends on [repr] of nested
    values or on element-wise comparison.  They belong to the interpreter,
    not to the repository; every definition below is parametric in them. *)
Class Builtins := {
  py_repr : json → string;
  py_ge_list : list json → list json → option bool
}.

(** Exceptions that travel through the two modules. *)
Inductive exn :=
| ValueError (msg : string)
| TypeError
| AttributeError
| HTTPStatusError (status : Z)
| TransportError (msg : string)
| JSONDecodeError
| TokenError (msg : string)
| DBError (ty msg : string)
| Exception (msg : string) (cause : exn).

(** [bool(v)] *)
Definition truthy (v : json) : bool :=
  match v with
  | JNull => false
  | JBool b => b
  | JInt n => negb (n =? 0)
  | JStr s => negb (String.eqb s "")
  | JList xs => match xs with [] => false | _ => true end
  | JDict kvs => negb (bool_decide (kvs = ∅))
  end.

(** [d.get(k)], for [d] a dict *)
Definition dict_get (d : gmap string json) (k : string) : json :=
  default JNull (d !! k).

(** [d.get(k, dflt)] *)
Definition dict_get_default (d : gmap string json) (k : string) (dflt : json) : json :=
  default dflt (d !! k).

Definition str_of_Z (n : Z) : string := NilZero.string_of_int (Z.to_int n).

Definition str_of_nat (n : nat) : string := str_of_Z (Z.of_nat n).

(** [str(v)] *)
Definition py_str `{Builtins} (v : json) : string :=
  match v with
  | JNull => "None"
  | JBool true => "True"
  | JBool false => "False"
  | JInt n => str_of_Z n
  | JStr s => s
  | JList _ | JDict _ => py_repr v
  end.

(** Truth value of an [Optional[str]] argument. *)
Definition truthy_str (o : option string) : bool :=
  match o with
  | Some s => negb (String.eqb s "")
  | None => false
  end.

(** [pat in s] on strings *)
Definition contains (pat s : string) : bool :=
  match String.index 0 pat s with
  | Some _ => true
  | None => false
  end.

(** [', '.join(l)] *)
Fixpoint join (sep : string) (l : list string) : string :=
  match l with
  | [] => ""
  | [x] => x
  | x :: rest => x +:+ sep +:+ join sep rest
  end.

(** The integer a value compares as, for the numeric types. *)
Definition as_number (v : json) : option Z :=
  match v with
  | JInt n => Some n
  | JBool b => Some (if b then 1 else 0)
  | _ => None
  end.

(** [a >= b]; [inl TypeError] where Python refuses the comparison. *)
Definition py_ge `{Builtins} (a b : json) : exn + bool :=
  match as_number a, as_number b with
  | Some x, Some y => inr (y <=? x)
  | _, _ =>
      match a, b with
      | JStr s, JStr t => inr (String.leb t s)
      | JList xs, JList ys =>
          match py_ge_list xs ys with
          | Some r => inr r
          | None => inl TypeError
          end
      | _, _ => inl TypeError
      end
  end.

(** [v == 0] *)
Definition eq_zero (v : json) : bool :=
  match as_number v with
  | Some n => n =? 0
  | None => false
  end.

(** [len(v)] *)
Definition py_len (v : json) : exn + nat :=
  match v with
  | JList xs => inr (List.length xs)
  | JStr s => inr (String.length s)
  | JDict kvs => inr (size kvs)
  | _ => inl TypeError
  end.

Fixpoint chars (s : string) : list json :=
  match s with
  | EmptyString => []
  | String c rest => JStr (String c EmptyString) :: chars rest
  end.

(** The elements [for x in v] visits: the elements of a list, the one-letter
    strings of a string, the keys of a dict. *)
Definition py_iter (v : json) : exn + list json :=
  match v with
  | JList xs => inr xs
  | JStr s => inr (chars s)
  | JDict kvs => inr (JStr <$> (map_to_list kvs).*1)
  | _ => inl TypeError
  end.

End Py.
Export Py.

(* ===================================================================== *)
(** ** extract/api_client.py *)
(* ===================================================================== *)

Module Client.

(** Values of query parameters: the page counters, the caller's filter
    strings, and [datetime.now().isoformat()] of a clock reading. *)
Inductive pvalue :=
| PInt (n : Z)
| PStr (s : string)
| PIsoTime (t : Z).

Record request := Request {
  req_url : string;
  req_auth : string;
  req_params : gmap string pvalue
}.

(** What [self.client.get] can come back with. A body of [None] is one that
    [response.json()] cannot parse. *)
Inductive http_reply :=
| Reply (status : Z) (body : option json)
| ConnectionFailure (msg : string).

(** What the POST to the token URL can come back with. *)
Inductive token_reply :=
| TokenGranted (token : string) (expires_in : option Z)
| TokenRefused (msg : string).

Inductive event :=
| EvToken
| EvGet (r : request)
| EvSleep (secs : Z).

(** A [QQCatalystClient] together with the world it talks to. *)
Record client := MkClient {
  base_url : string;
  _access_token : option string;
  _token_expires_at : option Z;
  server : nat → request → http_reply;
  token_endpoint : nat → token_reply;
  clock : nat → Z;
  gets : nat;
  posts : nat;
  ticks : nat;
  trace : list event
}.

Definition C (A : Type) : Type := client → (exn + A) * client.

Definition ret {A} (a : A) : C A := fun c => (inr a, c).
Definition raise {A} (e : exn) : C A := fun c => (inl e, c).
Definition bind {A B} (m : C A) (k : A → C B) : C B :=
  fun c => match m c with
           | (inr a, c') => k a c'
           | (inl e, c') => (inl e, c')
           end.

#[local] Instance C_ret : MRet C := @ret.
#[local] Instance C_bind : MBind C := fun A B k m => bind m k.

(** [datetime.now()] *)
Definition now : C Z := fun c =>
  (inr (clock c (ticks c)),
   MkClient (base_url c) (_access_token c) (_token_expires_at c) (server c)
     (token_endpoint c) (clock c) (gets c) (posts c) (S (ticks c)) (trace c)).

Definition set_token (tok : string) (expires_at : Z) : C unit := fun c =>
  (inr tt,
   MkClient (base_url c) (Some tok) (Some expires_at) (server c)
     (token_endpoint c) (clock c) (gets c) (posts c) (ticks c) (trace c)).

Definition sleep (secs : Z) : C unit := fun c =>
  (inr tt,
   MkClient (base_url c) (_access_token c) (_token_expires_at c) (server c)
     (token_endpoint c) (clock c) (gets c) (posts c) (ticks c)
     (trace c ++ [EvSleep secs])).

(** [_get_new_token]: one POST of the password grant. *)
Definition _get_new_token : C (string * option Z) := fun c =>
  let c' := MkClient (base_url c) (_access_token c) (_token_expires_at c)
              (server c) (token_endpoint c) (clock c) (gets c) (S (posts c))
              (ticks c) (trace c ++ [EvToken]) in
  match token_endpoint c (posts c) with
  | TokenGranted tok e => (inr (tok, e), c')
  | TokenRefused m => (inl (TokenError m), c')
  end.

(** The test of [_refresh_token]; the clock is read only when a token and an
    expiry are held. *)
Definition token_stale : C bool := fun c =>
  if negb (truthy_str (_access_token c)) then (inr true, c)
  else match _token_expires_at c with
       | None => (inr true, c)
       | Some e => (t ← now ; ret (e - 300 <=? t)) c
       end.

(** [_refresh_token]: fetches a token if none is held or the held one is
    within five minutes of its expiry, and does nothing otherwise. *)
Definition _refresh_token : C unit :=
  stale ← token_stale ;
  if stale : bool then
    token_data ← _get_new_token ;
    t ← now ;
    set_token (fst token_data) (t + default 3600 (snd token_data))
  else ret tt.

(** [_get_headers]; the value of the Authorization header is returned. *)
Definition authorization : C string := fun c =>
  (inr ("Bearer " +:+ default "None" (_access_token c)), c).

Definition _get_headers : C string :=
  _refresh_token ;; authorization.

(** [self.client.get(url, headers=..., params=...)] *)
Definition http_get (url auth : string) (params : gmap string pvalue) : C http_reply :=
  fun c =>
    let r := Request url auth params in
    (inr (server c (gets c) r),
     MkClient (base_url c) (_access_token c) (_token_expires_at c) (server c)
       (token_endpoint c) (clock c) (S (gets c)) (posts c) (ticks c)
       (trace c ++ [EvGet r])).

(** The request of [get_resource]: headers are computed first, then the GET
    is made; a connection failure is raised by the GET itself. *)
Definition send (url : string) (params : gmap string pvalue) : C (Z * option json) :=
  auth ← _get_headers ;
  reply ← http_get url auth params ;
  match reply with
  | Reply status body => ret (status, body)
  | ConnectionFailure m => raise (TransportError m)
  end.

(** [response.raise_for_status()] of httpx: anything but 2xx raises. *)
Definition raise_for_status (status : Z) : C unit :=
  if (200 <=? status) && (status <? 300) then ret tt
  else raise (HTTPStatusError status).

(** [response.json()] *)
Definition response_json (body : option json) : C json :=
  match body with
  | Some j => ret j
  | None => raise JSONDecodeError
  end.

(** The body of [get_resource], one attempt. Both [except] clauses re-raise
    the exception they caught (the branches on 429 and 5xx differ in the log
    line only), so the body's exception is the attempt's exception. *)
Definition get_resource_once (resource : string) (params : gmap string pvalue) : C json :=
  fun c =>
    let url := base_url c +:+ "/" +:+ resource in
    (response ← send url params ;
     response ← (if fst response =? 401
                 then _refresh_token ;; send url params
                 else ret response) ;
     raise_for_status (fst response) ;;
     response_json (snd response)) c.

(** [wait_exponential(multiplier, min, max)] of tenacity, in seconds. *)
Definition wait_exponential (multiplier min max : Z) (attempt_number : Z) : Z :=
  Z.max (Z.max 0 min) (Z.min (multiplier * 2 ^ (attempt_number - 1)) max).

(** The [@retry] decorator of tenacity with [stop_after_attempt(stop)],
    a wait function and [reraise=True].  No [retry=] predicate is given, so
    tenacity's default applies, which retries on every exception.
    [left] is the number of attempts still allowed after the current one. *)
Fixpoint retry {A} (wait : Z → Z) (stop : nat) (left : nat) (f : C A) : C A :=
  fun c =>
    match f c with
    | (inr a, c') => (inr a, c')
    | (inl e, c') =>
        match left with
        | O => (inl e, c')
        | S left' =>
            (sleep (wait (Z.of_nat (stop - left))) ;; retry wait stop left' f) c'
        end
    end.

(** [get_resource], as decorated:
    [@retry(stop=stop_after_attempt(3),
            wait=wait_exponential(multiplier=1, min=4, max=10), reraise=True)] *)
Definition get_resource (resource : string) (params : gmap string pvalue) : C json :=
  retry (wait_exponential 1 4 10) 3 2 (get_resource_once resource params).

(** The query parameters of one iteration of [get_paginated_resource]. *)
Definition build_params (resource : string)
    (last_modified_start last_modified_end : option string)
    (page page_size : Z) : C (gmap string pvalue) :=
  let params : gmap string pvalue :=
    <["pageSize" := PInt page_size]> (<["pageNumber" := PInt page]> ∅) in
  if contains "LastModifiedCreated" resource then
    if truthy_str last_modified_start then
      let params := <["startDate" := PStr (default "" last_modified_start)]> params in
      if truthy_str last_modified_end
      then ret (<["endDate" := PStr (default "" last_modified_end)]> params)
      else t ← now ; ret (<["endDate" := PIsoTime t]> params)
    else ret params
  else
    let params :=
      if truthy_str last_modified_start
      then <["lastModifiedStart" := PStr (default "" last_modified_start)]> params
      else params in
    let params :=
      if truthy_str last_modified_end
      then <["lastModifiedEnd" := PStr (default "" last_modified_end)]> params
      else params in
    ret params.

(** [x and len(y) > 0] for the value under one key of a dict *)
Definition nonempty_under (d : gmap string json) (k : string) : exn + bool :=
  if truthy (dict_get d k) then
    match py_len (dict_get_default d k (JList [])) with
    | inr n => inr (0 <? n)%nat
    | inl e => inl e
    end
  else inr false.

(** [has_data] of [get_paginated_resource] *)
Definition has_data (data : json) : exn + bool :=
  match data with
  | JDict d =>
      match nonempty_under d "Data" with
      | inl e => inl e
      | inr true => inr true
      | inr false => nonempty_under d "items"
      end
  | JList xs => inr (0 <? List.length xs)%nat
  | _ => inr false
  end.

(** [total_items is not None] *)
Definition is_not_none (o : option json) : bool :=
  match o with
  | Some JNull | None => false
  | Some _ => true
  end.

(** The second disjunct of the [break] test before the [yield]. *)
Definition reports_no_items (data : json) (total_items : option json) : bool :=
  match data with
  | JDict d => is_not_none total_items && eq_zero (dict_get_default d "TotalItems" (JInt 0))
  | _ => false
  end.

(** The last-page test after the [yield]. *)
Definition last_page `{Builtins} (data : json) : exn + bool :=
  match data with
  | JDict d =>
      if truthy (dict_get d "PageNumber") && truthy (dict_get d "PagesTotal")
      then py_ge (dict_get d "PageNumber") (dict_get d "PagesTotal")
      else inr false
  | _ => inr false
  end.

(** The local variables of the generator; [yielded] holds the page handed
    out at the [yield] the generator is suspended at. *)
Record gen := Gen {
  page : Z;
  total_items : option json;
  yielded : option json
}.

(** What one resumption of an asynchronous generator gives. *)
Inductive gen_step (S : Type) :=
| GYield (data : json) (s : S)
| GStop (s : S)
| GRaise (e : exn) (s : S).
Arguments GYield {S}.
Arguments GStop {S}.
Arguments GRaise {S}.

(** From the top of the [while True] loop to the [yield] or the [break]. *)
Definition fetch_page (resource : string)
    (last_modified_start last_modified_end : option string) (page_size : Z)
    (g : gen) (c : client) : gen_step (gen * client) :=
  match (params ← build_params resource last_modified_start last_modified_end
                     (page g) page_size ;
         get_resource resource params) c with
  | (inl e, c') => GRaise e (g, c')
  | (inr data, c') =>
      match has_data data with
      | inl e => GRaise e (g, c')
      | inr hd =>
          if negb hd || reports_no_items data (total_items g) then GStop (g, c')
          else
            let total :=
              match data with
              | JDict d =>
                  if is_not_none (total_items g) then total_items g
                  else d !! "TotalItems"
              | _ => total_items g
              end in
            GYield data (Gen (page g) total (Some data), c')
      end
  end.

(** One resumption of [get_paginated_resource]: a fresh generator starts at
    the top of the loop, a suspended one first runs the code after the
    [yield]. *)
Definition get_paginated_resource `{Builtins} (resource : string)
    (last_modified_start last_modified_end : option string) (page_size : Z)
    (s : gen * client) : gen_step (gen * client) :=
  let '(g, c) := s in
  match yielded g with
  | None => fetch_page resource last_modified_start last_modified_end page_size g c
  | Some data =>
      match last_page data with
      | inl e => GRaise e (g, c)
      | inr true => GStop (g, c)
      | inr false =>
          fetch_page resource last_modified_start last_modified_end page_size
            (Gen (page g + 1) (total_items g) None) c
      end
  end.

(** The generator object a call creates: [page = 1], [total_items = None]. *)
Definition gen_init : gen := Gen 1 None None.

End Client.

(* ===================================================================== *)
(** ** The staging store (models/raw_models.py and the SQLAlchemy session) *)
(* ===================================================================== *)

Module Staging.

(** An instance of a [RawDataModel] subclass; the class is identified by its
    [__tablename__]. *)
Record raw_record := RawRecord {
  tablename : string;
  source_id : string;
  raw_data : json;
  etl_batch_id : string
}.

(** The scripted outcome of one database call. For a failing bulk insert,
    [staged] is the number of rows that had reached the open transaction
    when the error was raised. *)
Inductive db_outcome :=
| DbOk
| DbFail (ty msg : string) (staged : nat).

Inductive db_call :=
| Execute (table : string)
| BulkSave (objs : list raw_record)
| Commit
| Rollback.

(** A session: the committed rows per table, the rows of the open
    transaction, the outcomes of the calls to come (every call past the end
    of the script succeeds) and the calls made so far. *)
Record session := Session {
  tables : gmap string (list raw_record);
  pending : list raw_record;
  script : list db_outcome;
  calls : list db_call
}.

Definition rows (s : session) (table : string) : list raw_record :=
  default [] (tables s !! table).

Definition insert_row (tb : gmap string (list raw_record)) (r : raw_record)
  : gmap string (list raw_record) :=
  <[tablename r := default [] (tb !! tablename r) ++ [r]]> tb.

Definition next_outcome (s : session) : db_outcome :=
  match script s with
  | [] => DbOk
  | o :: _ => o
  end.

(** [session.execute(text("SELECT source_id FROM <table>")).fetchall()],
    projected on the first column. *)
Definition select_source_ids (table : string) (s : session)
  : (exn + list string) * session :=
  let s' := Session (tables s) (pending s) (tail (script s))
              (calls s ++ [Execute table]) in
  match next_outcome s with
  | DbOk => (inr (source_id <$> rows s table), s')
  | DbFail ty msg _ => (inl (DBError ty msg), s')
  end.

(** [session.bulk_save_objects(objs)] *)
Definition bulk_save_objects (objs : list raw_record) (s : session)
  : (exn + unit) * session :=
  match next_outcome s with
  | DbOk =>
      (inr tt, Session (tables s) (pending s ++ objs) (tail (script s))
                 (calls s ++ [BulkSave objs]))
  | DbFail ty msg staged =>
      (inl (DBError ty msg),
       Session (tables s) (pending s ++ take staged objs) (tail (script s))
         (calls s ++ [BulkSave objs]))
  end.

(** [session.commit()] *)
Definition commit (s : session) : (exn + unit) * session :=
  match next_outcome s with
  | DbOk =>
      (inr tt, Session (foldl insert_row (tables s) (pending s)) []
                 (tail (script s)) (calls s ++ [Commit]))
  | DbFail ty msg _ =>
      (inl (DBError ty msg),
       Session (tables s) (pending s) (tail (script s)) (calls s ++ [Commit]))
  end.

(** [session.rollback()] *)
Definition rollback (s : session) : session :=
  Session (tables s) [] (script s) (calls s ++ [Rollback]).

End Staging.

(* ===================================================================== *)
(** ** extract/extractor.py *)
(* ===================================================================== *)

Module Extractor.
Import Staging.
Export Client(gen_step, GYield, GStop, GRaise).

(** [RESOURCE_MODEL_MAP], each model class given by its [__tablename__]. *)
Definition RESOURCE_MODEL_MAP : gmap string string :=
  <["contacts" := "raw_contacts"]> (<["policies" := "raw_policies"]> ∅).

(** [RESOURCE_ENDPOINT_MAP]. Neither path has a placeholder, so
    formatting it with the keyword arguments returns it unchanged. *)
Definition RESOURCE_ENDPOINT_MAP : gmap string string :=
  <["contacts" := "Contacts/LastModifiedCreated"]>
    (<["policies" := "Policies/LastModifiedCreated"]> ∅).

(** The fields of [self] that the methods read. *)
Record extractor := MkExtractor {
  batch_size : Z;
  batch_id : string
}.

(** The logger: level and message of each line, oldest first. *)
Record world := World {
  sess : session;
  logs : list (string * string)
}.

Definition log (level msg : string) (w : world) : world :=
  World (sess w) (logs w ++ [(level, msg)]).

Definition str_exn (e : exn) : string :=
  match e with
  | DBError _ msg => msg
  | ValueError msg | TransportError msg | TokenError msg | Exception msg _ => msg
  | _ => ""
  end.

Definition type_name (e : exn) : string :=
  match e with
  | DBError ty _ => ty
  | ValueError _ => "ValueError"
  | TypeError => "TypeError"
  | AttributeError => "AttributeError"
  | HTTPStatusError _ => "HTTPStatusError"
  | TransportError _ => "TransportError"
  | JSONDecodeError => "JSONDecodeError"
  | TokenError _ => "TokenError"
  | Exception _ _ => "Exception"
  end.

(** The line logged for record [i] of a buffer that failed to flush. *)
Definition record_line (i : nat) (r : raw_record) : string :=
  "Record " +:+ str_of_nat i +:+ ": source_id=" +:+ source_id r
    +:+ ", etl_batch_id=" +:+ etl_batch_id r.

Definition log_records (buffer : list raw_record) (w : world) : world :=
  World (sess w) (logs w ++ imap (fun i r => ("ERROR", record_line i r)) buffer).

(** [_validate_record] *)
Definition id_field_map : gmap string (list string) :=
  <["contacts" := ["EntityID"; "ContactId"]]>
    (<["policies" := ["EntityID"; "PolicyId"]]> ∅).

Definition _validate_record (record : gmap string json) (resource : string)
  : list string :=
  let valid_id_fields := default ["EntityID"] (id_field_map !! resource) in
  let has_valid_id := existsb (fun field => truthy (dict_get record field)) valid_id_fields in
  let errors :=
    if negb has_valid_id
    then ["Missing required ID field. Expected one of: " +:+ join ", " valid_id_fields]
    else [] in
  if String.eqb resource "policies" then
    let errors :=
      if negb (truthy (dict_get record "PolicyNumber"))
      then errors ++ ["Policy must have a policy number"] else errors in
    if negb (truthy (dict_get record "Status"))
    then errors ++ ["Policy must have a status"] else errors
  else errors.

(** [_flush_buffer] *)
Definition _flush_buffer (buffer : list raw_record) (w : world)
  : (exn + unit) * world :=
  let n := str_of_nat (List.length buffer) in
  let w := log "INFO" ("Attempting to flush " +:+ n +:+ " records to database") w in
  let saved :=
    match bulk_save_objects buffer (sess w) with
    | (inr _, s) => commit s
    | (inl e, s) => (inl e, s)
    end in
  match saved with
  | (inr _, s) =>
      (inr tt, log "INFO" ("Successfully flushed " +:+ n +:+ " records to database")
                 (World s (logs w)))
  | (inl e, s) =>
      let w := World (rollback s) (logs w) in
      let w := log "ERROR" ("Database error while flushing buffer: " +:+ str_exn e) w in
      let w := log "ERROR" ("Error type: " +:+ type_name e) w in
      let w := log_records buffer w in
      (inl (Exception ("Failed to flush buffer to database: " +:+ str_exn e) e), w)
  end.

(** The [stats] dict. *)
Record stats := Stats {
  total_items : nat;
  skipped_validation : nat;
  already_in_database : nat;
  added_to_buffer : nat
}.

(** The local variables of [extract_resource] that the loop changes. *)
Record locals := Locals {
  records_processed : nat;
  buffer : list raw_record;
  validation_errors : nat;
  processed_ids : gset string;
  test_records : list json;
  st : stats
}.

(** What [extract_resource] returns: a count, or the records in test mode. *)
Inductive retval :=
| Count (n : nat)
| Records (l : list json).

(** How a piece of the loop body ends: it falls through to the next
    iteration, returns from the function, or raises. *)
Inductive flow :=
| Next (l : locals) (w : world)
| Return (v : retval) (w : world)
| Throw (e : exn) (w : world).

(** [limit and len(test_records) >= limit] *)
Definition limit_reached (limit : option Z) (test_records : list json) : bool :=
  match limit with
  | Some n => negb (n =? 0) && (n <=? Z.of_nat (List.length test_records))
  | None => false
  end.

Section Resource.
Context `{Builtins}.
Variable self : extractor.
Variable resource : string.
Variable model_class : string.
Variable existing_source_ids : gset string.
Variable test_mode : bool.
Variable limit : option Z.

(** Lines 176-182: the identifier of an item. *)
Definition entity_id_of (item : gmap string json) : string :=
  if String.eqb resource "policies"
     && negb (truthy (dict_get item "EntityID"))
     && truthy (dict_get item "PolicyId")
  then py_str (dict_get item "PolicyId")
  else py_str (dict_get_default item "EntityID" (JStr "")).

Definition bump_skipped (s : stats) : stats :=
  Stats (total_items s) (S (skipped_validation s)) (already_in_database s)
    (added_to_buffer s).

Definition bump_already (s : stats) : stats :=
  Stats (total_items s) (skipped_validation s) (S (already_in_database s))
    (added_to_buffer s).

Definition bump_added (s : stats) : stats :=
  Stats (total_items s) (skipped_validation s) (already_in_database s)
    (S (added_to_buffer s)).

Definition bump_total (n : nat) (s : stats) : stats :=
  Stats (total_items s + n) (skipped_validation s) (already_in_database s)
    (added_to_buffer s).

(** Lines 212-228: what happens to an item that passed every check. *)
Definition keep_item (item : json) (entity_id : string) (l : locals) (w : world) : flow :=
  if test_mode then
    let recs := test_records l ++ [item] in
    if limit_reached limit recs then Return (Records recs) w
    else Next (Locals (records_processed l) (buffer l) (validation_errors l)
                 (processed_ids l) recs (st l)) w
  else
    let raw_record := RawRecord model_class entity_id item (batch_id self) in
    let buf := buffer l ++ [raw_record] in
    let l' := Locals (S (records_processed l)) buf (validation_errors l)
                (processed_ids l) (test_records l) (bump_added (st l)) in
    if batch_size self <=? Z.of_nat (List.length buf) then
      match _flush_buffer buf w with
      | (inr _, w') =>
          Next (Locals (records_processed l') [] (validation_errors l')
                  (processed_ids l') (test_records l') (st l')) w'
      | (inl e, w') => Throw e w'
      end
    else Next l' w.

(** Lines 175-228: the body of [for item in items]. *)
Definition process_item (l : locals) (w : world) (item : json) : flow :=
  match item with
  | JDict d =>
      let entity_id := entity_id_of d in
      if String.eqb entity_id "" then
        Next (Locals (records_processed l) (buffer l) (validation_errors l)
                (processed_ids l) (test_records l) (bump_skipped (st l))) w
      else if bool_decide (entity_id ∈ processed_ids l) then Next l w
      else
        let seen := processed_ids l ∪ {[entity_id]} in
        if bool_decide (entity_id ∈ existing_source_ids) then
          Next (Locals (records_processed l) (buffer l) (validation_errors l)
                  seen (test_records l) (bump_already (st l))) w
        else
          match _validate_record d resource with
          | _ :: _ =>
              Next (Locals (records_processed l) (buffer l)
                      (S (validation_errors l)) seen (test_records l)
                      (bump_skipped (st l))) w
          | [] =>
              keep_item item entity_id
                (Locals (records_processed l) (buffer l) (validation_errors l)
                   seen (test_records l) (st l)) w
          end
  | _ => Throw AttributeError w
  end.

(** [for item in items] *)
Fixpoint process_items (items : list json) (l : locals) (w : world) : flow :=
  match items with
  | [] => Next l w
  | item :: rest =>
      match process_item l w item with
      | Next l' w' => process_items rest l' w'
      | other => other
      end
  end.

(** Lines 164-172: the items of a page, and [len(items)]. *)
Definition items_of (page : json) : json :=
  match page with
  | JDict d => dict_get_default d "Data" (JList [])
  | JList _ => page
  | _ => JList []
  end.

(** Lines 163-228: the body of [async for page in ...], up to the test-mode
    [break]. *)
Definition process_page (page : json) (l : locals) (w : world) : flow :=
  let items := items_of page in
  match py_len items with
  | inl e => Throw e w
  | inr n =>
      let l := Locals (records_processed l) (buffer l) (validation_errors l)
                 (processed_ids l) (test_records l) (bump_total n (st l)) in
      match py_iter items with
      | inl e => Throw e w
      | inr xs => process_items xs l w
      end
  end.

(** The page source: any asynchronous generator, given by its state and its
    resumption function.  [extract_resource] gets it from
    [self.api_client.get_paginated_resource]. *)
Context {S : Type}.
Variable next_page : S → gen_step S.

(** What a run of the loop ends in, when it ends. *)
Inductive loop_end :=
| Finished (l : locals) (w : world) (src : S)
| Returned (v : retval) (w : world) (src : S)
| Raised (e : exn) (w : world) (src : S).

(** Lines 158-232: [async for page in ...]. One unit of [fuel] per
    resumption of the generator; [None] when the fuel runs out. *)
Fixpoint page_loop (fuel : nat) (src : S) (l : locals) (w : world) : option loop_end :=
  match fuel with
  | O => None
  | Datatypes.S fuel' =>
      match next_page src with
      | GRaise e src' => Some (Raised e w src')
      | GStop src' => Some (Finished l w src')
      | GYield page src' =>
          match process_page page l w with
          | Throw e w' => Some (Raised e w' src')
          | Return v w' => Some (Returned v w' src')
          | Next l' w' =>
              if test_mode && limit_reached limit (test_records l')
              then Some (Finished l' w' src')
              else page_loop fuel' src' l' w'
          end
      end
  end.

End Resource.

Definition locals_init : locals :=
  Locals 0 [] 0 ∅ [] (Stats 0 0 0 0).

(** Lines 136-148: the scan of the identifiers already staged. A failing
    query is logged and an empty set is used. *)
Definition load_existing (test_mode : bool) (model_class : string) (w : world)
  : gset string * world :=
  if test_mode then (∅, w)
  else
    match select_source_ids model_class (sess w) with
    | (inr ids, s) => (list_to_set ids, World s (logs w))
    | (inl e, s) => (∅, World s (logs w))
    end.

(** What a call of [extract_resource] ends in. *)
Inductive result (S : Type) :=
| Ok (v : retval) (w : world) (src : S)
| Err (e : exn) (w : world) (src : S).
Arguments Ok {S}.
Arguments Err {S}.

(** [extract_resource]. The page source is the generator
    [self.api_client.get_paginated_resource(endpoint, last_modified_start,
    last_modified_end)]: [paginate] is its resumption function and [src] its
    state at creation. The [ValueError] for an unregistered resource is
    raised before anything is touched. [None] when [fuel] resumptions do not
    finish the loop. *)
Definition extract_resource `{Builtins} {S : Type}
    (self : extractor)
    (paginate : string → option string → option string → S → gen_step S)
    (resource : string) (last_modified_start last_modified_end : option string)
    (test_mode : bool) (limit : option Z)
    (fuel : nat) (src : S) (w : world) : option (result S) :=
  match RESOURCE_MODEL_MAP !! resource, RESOURCE_ENDPOINT_MAP !! resource with
  | Some model_class, Some endpoint =>
      let '(existing, w) := load_existing test_mode model_class w in
      match page_loop self resource model_class existing test_mode limit
              (paginate endpoint last_modified_start last_modified_end)
              fuel src locals_init w with
      | None => None
      | Some (Raised e w' src') => Some (Err e w' src')
      | Some (Returned v w' src') => Some (Ok v w' src')
      | Some (Finished l w' src') =>
          if test_mode then Some (Ok (Records (test_records l)) w' src')
          else
            match buffer l with
            | [] => Some (Ok (Count (records_processed l)) w' src')
            | _ :: _ =>
                match _flush_buffer (buffer l) w' with
                | (inr _, w'') => Some (Ok (Count (records_processed l)) w'' src')
                | (inl e, w'') => Some (Err e w'' src')
                end
            end
      end
  | _, _ => Some (Err (ValueError ("Unsupported resource type: " +:+ resource)) w src)
  end.

(** The generator the tests patch in: it hands out the pages of a list. *)
Definition pages_source (_ : string) (_ _ : option string) (pages : list json)
  : gen_step (list json) :=
  match pages with
  | [] => GStop []
  | p :: rest => GYield p rest
  end.

(** [extract_resource] over a real client: the generator is
    [get_paginated_resource] with its default page size of 100. *)
Definition extract_resource_api `{Builtins} (self : extractor)
    (resource : string) (last_modified_start last_modified_end : option string)
    (test_mode : bool) (limit : option Z) (fuel : nat)
    (c : Client.client) (w : world) : option (result (Client.gen * Client.client)) :=
  extract_resource self
    (fun endpoint s e => Client.get_paginated_resource endpoint s e 100)
    resource last_modified_start last_modified_end test_mode limit fuel
    (Client.gen_init, c) w.

End Extractor.

(* ===================================================================== *)
(** ** Notions used to state the properties *)
(* ===================================================================== *)

Module Run.
Import Staging Extractor.

(** A generator that hands out the pages of a list and then stops. *)
Inductive drains {S : Type} (next_page : S → gen_step S) : S → list json → S → Prop :=
| drains_stop src src' :
    next_page src = GStop src' → drains next_page src [] src'
| drains_yield src page src1 pages src' :
    next_page src = GYield page src1 →
    drains next_page src1 pages src' →
    drains next_page src (page :: pages) src'.

(** A generator run by itself: the pages of the first [fuel] resumptions
    and, when it ended within them, how ([None] for a plain stop). *)
Fixpoint run_gen {S : Type} (next_page : S → gen_step S) (fuel : nat) (src : S)
  : list (S * json) * option (option exn) :=
  match fuel with
  | O => ([], None)
  | Datatypes.S fuel' =>
      match next_page src with
      | GStop _ => ([], Some None)
      | GRaise e _ => ([], Some (Some e))
      | GYield page src' =>
          let '(rest, ending) := run_gen next_page fuel' src' in
          ((src', page) :: rest, ending)
      end
  end.

Section Screening.
Context `{Builtins}.
Variable self : extractor.
Variable resource : string.
Variable model_class : string.
Variable existing_source_ids : gset string.

(** The fate of one item, given the identifiers seen so far in the run. *)
Inductive screening :=
| Malformed
| Unidentified
| Duplicate
| Stored (entity_id : string)
| Invalid (entity_id : string)
| Fresh (entity_id : string) (r : raw_record).

Definition screen (seen : gset string) (item : json) : screening :=
  match item with
  | JDict d =>
      let entity_id := entity_id_of resource d in
      if String.eqb entity_id "" then Unidentified
      else if bool_decide (entity_id ∈ seen) then Duplicate
      else if bool_decide (entity_id ∈ existing_source_ids) then Stored entity_id
      else match _validate_record d resource with
           | [] => Fresh entity_id (RawRecord model_class entity_id item (batch_id self))
           | _ :: _ => Invalid entity_id
           end
  | _ => Malformed
  end.

Definition seen_after (seen : gset string) (item : json) : gset string :=
  match screen seen item with
  | Stored id | Invalid id | Fresh id _ => seen ∪ {[id]}
  | _ => seen
  end.

(** The identifiers seen after a list of items. *)
Fixpoint seen_all (seen : gset string) (items : list json) : gset string :=
  match items with
  | [] => seen
  | item :: rest => seen_all (seen_after seen item) rest
  end.

(** The records that a list of items adds to the buffer, in order. *)
Fixpoint kept (seen : gset string) (items : list json) : list raw_record :=
  match items with
  | [] => []
  | item :: rest =>
      match screen seen item with
      | Fresh _ r => r :: kept (seen_after seen item) rest
      | _ => kept (seen_after seen item) rest
      end
  end.

Definition is_dict (item : json) : Prop :=
  match item with JDict _ => True | _ => False end.

(** The items the loop body visits on a page. *)
Definition page_items (page : json) : exn + list json :=
  match py_len (items_of page) with
  | inl e => inl e
  | inr _ => py_iter (items_of page)
  end.

(** A page whose items can be visited and are all dicts. *)
Definition page_ok (page : json) : Prop :=
  match page_items page with
  | inr xs => Forall is_dict xs
  | inl _ => False
  end.

Definition items_list (page : json) : list json :=
  match page_items page with
  | inr xs => xs
  | inl _ => []
  end.

(** The item stream of a list of pages. *)
Definition all_items (pages : list json) : list json :=
  concat (items_list <$> pages).

(** The buffer and the world after one more record, outside test mode:
    the record is appended and the buffer flushed when it is full. *)
Definition feed (bw : list raw_record * world) (r : raw_record)
  : (exn * world) + (list raw_record * world) :=
  let buf := bw.1 ++ [r] in
  if batch_size self <=? Z.of_nat (List.length buf) then
    match _flush_buffer buf bw.2 with
    | (inr _, w') => inr ([], w')
    | (inl e, w') => inl (e, w')
    end
  else inr (buf, bw.2).

Fixpoint feed_all (bw : list raw_record * world) (rs : list raw_record)
  : (exn * world) + (list raw_record * world) :=
  match rs with
  | [] => inr bw
  | r :: rest =>
      match feed bw r with
      | inr bw' => feed_all bw' rest
      | inl ew => inl ew
      end
  end.

(** The loop of [extract_resource] outside test mode, over a list of pages. *)
Fixpoint pages_fold (limit : option Z) (pages : list json) (l : locals) (w : world) : flow :=
  match pages with
  | [] => Next l w
  | page :: rest =>
      match process_page self resource model_class existing_source_ids false limit
              page l w with
      | Next l' w' => pages_fold limit rest l' w'
      | other => other
      end
  end.

End Screening.

(** The calls a run added to the session's record of calls. *)
Definition bulk_saves (cs : list db_call) : list (list raw_record) :=
  omap (fun c => match c with BulkSave objs => Some objs | _ => None end) cs.

(** The message of the exception that [_flush_buffer] raises. *)
Definition flush_message (msg : string) : string :=
  "Failed to flush buffer to database: " +:+ msg.

(** No rollback among the calls made between two worlds. *)
Definition no_rollback_since (w0 w : world) : Prop :=
  ∃ cs, calls (sess w) = calls (sess w0) ++ cs ∧ (Rollback ∉ cs).

(** The calls made between two worlds end with the one rollback among
    them, and [e] is the exception of the flush that was rolled back. *)
Definition aborted_by_flush (w0 w : world) (e : exn) : Prop :=
  ∃ cs ty msg,
    calls (sess w) = calls (sess w0) ++ cs ++ [Rollback]
    ∧ (Rollback ∉ cs)
    ∧ e = Exception (flush_message msg) (DBError ty msg).

(** The record built for an item under an identifier (lines 217-221). *)
Definition record_of (self : extractor) (model_class : string) (entity_id : string)
    (item : json) : raw_record :=
  RawRecord model_class entity_id item (batch_id self).

(** Lines 234-243 outside test mode: what follows the loop. *)
Definition finish {S : Type} (ending : option (@loop_end S)) : option (result S) :=
  match ending with
  | None => None
  | Some (Raised e w src) => Some (Err e w src)
  | Some (Returned v w src) => Some (Ok v w src)
  | Some (Finished l w src) =>
      match buffer l with
      | [] => Some (Ok (Count (records_processed l)) w src)
      | _ :: _ =>
          match _flush_buffer (buffer l) w with
          | (inr _, w') => Some (Ok (Count (records_processed l)) w' src)
          | (inl e, w') => Some (Err e w' src)
          end
      end
  end.

(** The world after a scan of the staged identifiers. *)
Definition scanned (model_class : string) (w : world) : world :=
  World (Session (tables (sess w)) (pending (sess w)) (tail (script (sess w)))
           (calls (sess w) ++ [Execute model_class]))
    (logs w).

(** The identifiers staged for a model. *)
Definition staged_ids (w : world) (model_class : string) : gset string :=
  list_to_set (source_id <$> rows (sess w) model_class).

(** The client after one reading of the clock. *)
Definition tick (c : Client.client) : Client.client := (Client.now c).2.

(** How a piece of the loop body leaves the session, when it started with
    no rollback since [w0]: without one, or with the exception of the
    flush whose rollback is the last call. *)
Definition settled (w0 : world) (f : flow) : Prop :=
  match f with
  | Next _ w' | Return _ w' => no_rollback_since w0 w'
  | Throw e w' => no_rollback_since w0 w' ∨ aborted_by_flush w0 w' e
  end.

(** A generator whose sequence of pages is finite: some number of
    resumptions ends it. *)
Definition finite {S : Type} (next_page : S → gen_step S) (src : S) : Prop :=
  ∃ fuel, is_Some (run_gen next_page fuel src).2.

(** A generator whose next resumption fetches a page: a fresh one, or one
    suspended at a page that was not the last. *)
Definition goes_on `{Builtins} (g : Client.gen) : Prop :=
  match Client.yielded g with
  | None => True
  | Some last => Client.last_page last = inr false
  end.

(** The local variables of the generator at the top of the loop of its
    next fetch: [page += 1] has run if it was suspended at a [yield]. *)
Definition upcoming (g : Client.gen) : Client.gen :=
  match Client.yielded g with
  | None => g
  | Some _ => Client.Gen (Client.page g + 1) (Client.total_items g) None
  end.

(** Whether a string occurs in the message of an exception or of one of
    its causes. *)
Fixpoint mentions (e : exn) (s : string) : bool :=
  contains s (str_exn e)
  || match e with
     | Exception _ cause => mentions cause s
     | _ => false
     end.

(** An interpreter stand-in for examples whose values are all scalars. *)
Definition scalars_only : Builtins :=
  {| py_repr := fun _ => "<repr>"; py_ge_list := fun _ _ => None |}.

End Run.

(* ===================================================================== *)
(** ** Sample worlds *)
(* ===================================================================== *)

Module Sample.
Import Staging Extractor Run Client.

Definition contact (id : string) : gmap string json :=
  <["EntityID" := JStr id]> ∅.

Definition numbered_contact (n : nat) : gmap string json :=
  <["EntityID" := JInt (Z.of_nat n)]> ∅.

Definition contact_by_ContactId (id : string) : gmap string json :=
  <["ContactId" := JStr id]> ∅.

Definition policy (id : string) (number status : json) : gmap string json :=
  <["EntityID" := JStr id]>
    (<["PolicyNumber" := number]> (<["Status" := status]> ∅)).

Definition policy_by_PolicyId (id : string) : gmap string json :=
  <["PolicyId" := JStr id]>
    (<["PolicyNumber" := JStr "PN-1"]> (<["Status" := JStr "Active"]> ∅)).

Definition data_page (items : list (gmap string json)) : json :=
  JDict (<["Data" := JList (JDict <$> items)]> ∅).

Definition empty_world : world := World (Session ∅ [] [] []) [].

Definition seeded_world (table : string) (rs : list raw_record) (script : list db_outcome)
  : world :=
  World (Session (<[table := rs]> ∅) [] script []) [].

Definition connection_lost : db_outcome :=
  DbFail "OperationalError" "server closed the connection unexpectedly" 0.

(** A client that holds the token ["tok"], good for an hour, at a clock
    that stands at 0. *)
Definition client_of (server : nat → request → http_reply) : client :=
  MkClient "https://api.qqcatalyst.com/v1" (Some "tok") (Some 3600) server
    (fun _ => TokenGranted "tok2" (Some 3600)) (fun _ => 0) 0 0 0 [].

Definition one_contact : json := JList [JDict (contact "1")].

(** 404 for the first request, the data for the following ones. *)
Definition not_found_once (n : nat) (_ : request) : http_reply :=
  match n with
  | O => Reply 404 None
  | _ => Reply 200 (Some one_contact)
  end.

(** 401 for the first request, the data for the following ones. *)
Definition unauthorized_once (n : nat) (_ : request) : http_reply :=
  match n with
  | O => Reply 401 None
  | _ => Reply 200 (Some one_contact)
  end.

(** The same one-item page for every request, without page metadata. *)
Definition endless (_ : nat) (_ : request) : http_reply :=
  Reply 200 (Some one_contact).

(** The clients reached while paging through [endless]. *)
Definition endless_client (c : client) : Prop :=
  _access_token c = Some "tok" ∧ _token_expires_at c = Some 3600
  ∧ (∀ n, clock c n = 0)
  ∧ (∀ n r, server c n r = Reply 200 (Some one_contact)).

(** The world a call of [extract_resource] ended in. *)
Definition world_of {S : Type} (r : option (result S)) : world :=
  match r with
  | Some (Ok _ w _) | Some (Err _ w _) => w
  | None => empty_world
  end.

(** Three pages with metadata, whatever page is asked for after them. *)
Definition three_pages (n : nat) (_ : request) : http_reply :=
  Reply 200 (Some (JDict
    (<["Data" := JList [JDict (numbered_contact n)]]>
       (<["PageNumber" := JInt (Z.of_nat (S n))]>
          (<["PagesTotal" := JInt 3]> ∅))))).

End Sample.

(* ===================================================================== *)
(** ** extract/api_client.py, the remaining methods *)
(* ===================================================================== *)

Module ClientMore.
Import Client.

#[local] Existing Instance C_ret.
#[local] Existing Instance C_bind.

(** [a or b] on [Optional[str]] values *)
Definition or_str (a b : option string) : option string :=
  if truthy_str a then a else b.

(** [os.getenv(name)] and [os.getenv(name, default)] *)
Definition getenv (env : gmap string string) (name : string) : option string :=
  env !! name.

Definition getenv_default (env : gmap string string) (name dflt : string) : option string :=
  Some (default dflt (env !! name)).

(** [__init__]: the credentials come from the arguments or else from the
    environment; all four must be given; the first token is fetched at
    once. The world the new client talks to is passed along. *)
Definition __init__ (client_id client_secret username password base_url token_url
                       : option string)
    (env : gmap string string)
    (server : nat → request → http_reply) (token_endpoint : nat → token_reply)
    (clock : nat → Z) : exn + client :=
  let base_url :=
    or_str base_url (getenv_default env "QQCATALYST_BASE_URL" "https://api.qqcatalyst.com/v1") in
  let client_id := or_str client_id (getenv env "QQCATALYST_CLIENT_ID") in
  let client_secret := or_str client_secret (getenv env "QQCATALYST_CLIENT_SECRET") in
  let username := or_str username (getenv env "QQCATALYST_USERNAME") in
  let password := or_str password (getenv env "QQCATALYST_PASSWORD") in
  if negb (forallb truthy_str [client_id; client_secret; username; password])
  then inl (ValueError "All OAuth credentials are required")
  else
    let c := MkClient (default "" base_url) None None server token_endpoint clock
               0 0 0 [] in
    match _refresh_token c with
    | (inr _, c') => inr c'
    | (inl e, _) => inl e
    end.

(** [self._access_token = None] *)
Definition drop_token : C unit := fun c =>
  (inr tt,
   MkClient (base_url c) None (_token_expires_at c) (server c)
     (token_endpoint c) (clock c) (gets c) (posts c) (ticks c) (trace c)).

(** [self._is_token_expired()]: the class defines no method of this name,
    so the call raises [AttributeError]. *)
Definition _is_token_expired : C bool := raise AttributeError.

(** The normalisation of a parsed body in [get]. *)
Definition wrap_data (data : json) : option json :=
  match data with
  | JList _ => Some (JDict (<["Data" := data]> ∅))
  | JDict d =>
      match d !! "Data" with
      | Some _ => Some data
      | None => Some (JDict (<["Data" := JList [data]]> ∅))
      end
  | _ => None
  end.

(** The body of the [try] of [get]. *)
Definition get_body (endpoint : string) (params : option (gmap string pvalue))
  : C (option json) :=
  fun c =>
    (expired ← (if negb (truthy_str (_access_token c)) then mret true
                else _is_token_expired) ;
     (if expired : bool then _refresh_token else mret tt) ;;
     auth ← authorization ;
     reply ← http_get (base_url c +:+ "/" +:+ endpoint) auth (default ∅ params) ;
     match reply with
     | ConnectionFailure m => raise (TransportError m)
     | Reply status body =>
         if status =? 200 then
           match body with
           | Some data => mret (wrap_data data)
           | None => mret None
           end
         else if status =? 404 then mret None
         else if status =? 401 then drop_token ;; mret None
         else mret None
     end) c.

(** [get]: whatever is raised inside is caught, and [None] is returned. *)
Definition get (endpoint : string) (params : option (gmap string pvalue))
  : C (option json) :=
  fun c =>
    match get_body endpoint params c with
    | (inr r, c') => (inr r, c')
    | (inl _, c') => (inr None, c')
    end.

(** The waits among the events of a trace. *)
Definition sleeps (tr : list event) : list Z :=
  omap (fun ev => match ev with EvSleep secs => Some secs | _ => None end) tr.

(** The requests among the events of a trace. *)
Definition requests (tr : list event) : list request :=
  omap (fun ev => match ev with EvGet r => Some r | _ => None end) tr.

(** What an operation of the client leaves alone: the world it talks to
    and the base URL. It sends at most [g] requests and asks for at most
    [p] tokens, and it does not wait. *)
Definition within (g p : nat) (c c' : client) : Prop :=
  server c' = server c ∧ token_endpoint c' = token_endpoint c ∧ clock c' = clock c
  ∧ base_url c' = base_url c
  ∧ (gets c ≤ gets c')%nat ∧ (gets c' ≤ gets c + g)%nat
  ∧ (posts c ≤ posts c')%nat ∧ (posts c' ≤ posts c + p)%nat
  ∧ sleeps (trace c') = sleeps (trace c).

End ClientMore.

(* ===================================================================== *)
(** ** extract/extractor.py, [extract_policy_dependent_resource] *)
(* ===================================================================== *)

Module Dependent.
Import Staging Extractor.

(** [a or b] on values *)
Definition py_or (a b : json) : json := if truthy a then a else b.

Section Resource.
Context `{Builtins}.
Variable self : extractor.
Variable resource : string.
Variable model_class : string.
Variable policy_id : string.
Variable existing_source_ids : gset string.

(** Lines 344-362: the identifier of an item and the item as it is stored;
    a quote is stamped with the policy it belongs to. [None] for a quote
    that carries none of the three identifier fields. *)
Definition resolve (item : gmap string json) : option (string * gmap string json) :=
  if String.eqb resource "quotes" then
    let quote_id :=
      py_or (py_or (dict_get item "QuoteId") (dict_get item "QuoteID"))
        (dict_get item "EntityID") in
    if truthy quote_id
    then Some (policy_id +:+ "_" +:+ py_str quote_id,
               <["PolicyId" := JStr policy_id]> item)
    else None
  else Some (py_str (dict_get_default item "EntityID" (JStr "")), item).

Definition skipped (l : locals) : locals :=
  Locals (records_processed l) (buffer l) (validation_errors l) (processed_ids l)
    (test_records l) (bump_skipped (st l)).

(** Lines 343-396: the body of [for item in items]. The lines that buffer
    and flush a valid item are those of [extract_resource] outside test
    mode. *)
Definition process_item (l : locals) (w : world) (item : json) : flow :=
  match item with
  | JDict d =>
      match resolve d with
      | None => Next (skipped l) w
      | Some (entity_id, d) =>
          if String.eqb entity_id "" then Next (skipped l) w
          else if bool_decide (entity_id ∈ processed_ids l) then Next l w
          else
            let seen := processed_ids l ∪ {[entity_id]} in
            if bool_decide (entity_id ∈ existing_source_ids) then
              Next (Locals (records_processed l) (buffer l) (validation_errors l)
                      seen (test_records l) (bump_already (st l))) w
            else
              match _validate_record d resource with
              | _ :: _ =>
                  Next (Locals (records_processed l) (buffer l)
                          (S (validation_errors l)) seen (test_records l)
                          (bump_skipped (st l))) w
              | [] =>
                  keep_item self model_class false None (JDict d) entity_id
                    (Locals (records_processed l) (buffer l) (validation_errors l)
                       seen (test_records l) (st l)) w
              end
      end
  | _ => Throw AttributeError w
  end.

Fixpoint process_items (items : list json) (l : locals) (w : world) : flow :=
  match items with
  | [] => Next l w
  | item :: rest =>
      match process_item l w item with
      | Next l' w' => process_items rest l' w'
      | other => other
      end
  end.

(** Lines 333-396: the body of [async for page in ...] after the sleep. *)
Definition process_page (page : json) (l : locals) (w : world) : flow :=
  let items := items_of page in
  match py_len items with
  | inl e => Throw e w
  | inr n =>
      let l := Locals (records_processed l) (buffer l) (validation_errors l)
                 (processed_ids l) (test_records l) (bump_total n (st l)) in
      match py_iter items with
      | inl e => Throw e w
      | inr xs => process_items xs l w
      end
  end.

Context {S : Type}.
Variable next_page : S → gen_step S.

(** Lines 325-396: the loop; the second component counts the calls of
    [asyncio.sleep(rate_limit_delay)], one at the start of each page. *)
Fixpoint page_loop (fuel : nat) (src : S) (l : locals) (w : world) (naps : nat)
  : option (@loop_end S) * nat :=
  match fuel with
  | O => (None, naps)
  | Datatypes.S fuel' =>
      match next_page src with
      | GRaise e src' => (Some (Raised e w src'), naps)
      | GStop src' => (Some (Finished l w src'), naps)
      | GYield page src' =>
          match process_page page l w with
          | Throw e w' => (Some (Raised e w' src'), Datatypes.S naps)
          | Return v w' => (Some (Returned v w' src'), Datatypes.S naps)
          | Next l' w' => page_loop fuel' src' l' w' (Datatypes.S naps)
          end
      end
  end.

End Resource.

(** [extract_policy_dependent_resource]. Formatting either endpoint with
    [policy_id] returns it unchanged; the scan and the lines after the loop
    are those of [extract_resource] outside test mode. The second component
    is the number of one-second sleeps. *)
Definition extract_policy_dependent_resource `{Builtins} {S : Type}
    (self : extractor)
    (paginate : string → option string → option string → S → gen_step S)
    (resource policy_id : string) (last_modified_start last_modified_end : option string)
    (fuel : nat) (src : S) (w : world) : option (result S) * nat :=
  match RESOURCE_MODEL_MAP !! resource, RESOURCE_ENDPOINT_MAP !! resource with
  | Some model_class, Some endpoint =>
      let '(existing, w) := load_existing false model_class w in
      let '(ending, naps) :=
        page_loop self resource model_class policy_id existing
          (paginate endpoint last_modified_start last_modified_end)
          fuel src locals_init w 0 in
      (Run.finish ending, naps)
  | _, _ =>
      (Some (Err (ValueError ("Unsupported resource type: " +:+ resource)) w src), 0%nat)
  end.

End Dependent.

(* ===================================================================== *)
(** ** dags/qqcatalyst_etl_dag.py *)
(* ===================================================================== *)

Module Dag.

(** The resources for which the DAG creates an extract task. *)
Definition resources : list string :=
  [ "contacts"; "policies"; "quotes"; "claims"; "documents"; "applications";
    "renewals"; "terminations"; "billing_records"; "commission_rules";
    "commissions"; "fees"; "acord_forms";
    "tasks"; "text_messages"; "carriers"; "commercial_auto_drivers";
    "commercial_auto_vehicles"; "employees"; "locations"; "notes"; "signatures";
    "social_media"; "websites"; "underwriting_questions" ].

End Dag.

(* ===================================================================== *)
(** ** Further notions used to state properties *)
(* ===================================================================== *)

Module More.
Import Staging Extractor Run.

(** A generator that hands out the pages of a list and then raises. *)
Inductive breaks {S : Type} (next_page : S → gen_step S)
  : S → list json → exn → S → Prop :=
| breaks_raise src e src' :
    next_page src = GRaise e src' → breaks next_page src [] e src'
| breaks_yield src page src1 pages e src' :
    next_page src = GYield page src1 →
    breaks next_page src1 pages e src' →
    breaks next_page src (page :: pages) e src'.

(** A list cut into consecutive pieces of [size] elements, the last one
    possibly shorter. *)
Fixpoint pieces {A : Type} (fuel size : nat) (l : list A) : list (list A) :=
  match fuel, l with
  | _, [] => []
  | O, _ :: _ => []
  | Datatypes.S fuel', _ :: _ => take size l :: pieces fuel' size (drop size l)
  end.

Definition chunks {A : Type} (size : nat) (l : list A) : list (list A) :=
  pieces (List.length l) size l.

(** The world after a successful flush of a buffer, and the final flush of
    what is left in the buffer (lines 234-235). *)
Definition flushed (buf : list raw_record) (w w' : world) : Prop :=
  match buf with
  | [] => w' = w
  | _ :: _ => _flush_buffer buf w = (inr tt, w')
  end.

(** Between two worlds every bulk insert carried at least one record and
    at most a batch of them. *)
Definition batches_only (self : extractor) (w w' : world) : Prop :=
  ∃ cs, calls (sess w') = calls (sess w) ++ cs
        ∧ Forall (fun objs => (1 ≤ List.length objs)%nat
                              ∧ Z.of_nat (List.length objs) ≤ batch_size self)
            (bulk_saves cs).

(** How a piece of the loop body leaves the buffer and the session: the
    buffer below the batch size, the bulk inserts since [w0] all batches. *)
Definition tidy (self : extractor) (w0 : world) (f : flow) : Prop :=
  match f with
  | Next l w =>
      Z.of_nat (List.length (buffer l)) < batch_size self ∧ batches_only self w0 w
  | Return _ w | Throw _ w => batches_only self w0 w
  end.

(** The identifier an item of a page resolves to. *)
Definition item_id `{Builtins} (resource : string) (item : json) : string :=
  match item with
  | JDict d => entity_id_of resource d
  | _ => ""
  end.

(** What test mode hands back: items that are identified and valid,
    pairwise different in their identifiers, and no more of them than a
    positive limit. *)
Definition sample `{Builtins} (resource : string) (limit : option Z)
    (recs : list json) : Prop :=
  Forall (fun item => ∃ d, item = JDict d ∧ entity_id_of resource d ≠ ""
                           ∧ _validate_record d resource = []) recs
  ∧ NoDup (item_id resource <$> recs)
  ∧ ∀ n, limit = Some n → 0 < n → Z.of_nat (List.length recs) ≤ n.

(** How a piece of the loop body in test mode leaves the world [w0] and
    the records collected. *)
Definition sampling `{Builtins} (resource : string) (limit : option Z)
    (w0 : world) (f : flow) : Prop :=
  match f with
  | Next l w =>
      w = w0 ∧ sample resource limit (test_records l)
      ∧ (∀ item, item ∈ test_records l → item_id resource item ∈ processed_ids l)
      ∧ (∀ n, limit = Some n → 0 < n → Z.of_nat (List.length (test_records l)) < n)
  | Return v w => w = w0 ∧ ∃ recs, v = Records recs ∧ sample resource limit recs
  | Throw _ w => w = w0
  end.

End More.

(* ===================================================================== *)
(** ** Further sample data *)
(* ===================================================================== *)

Module Fixtures.
Import Staging Extractor Run Client Sample.

(** A generator that hands out the pages of a list and then raises. *)
Definition pages_then (e : exn) (_ : string) (_ _ : option string) (pages : list json)
  : gen_step (list json) :=
  match pages with
  | [] => GRaise e []
  | p :: rest => GYield p rest
  end.

(** A client without token; the token endpoint answers every POST with
    [reply]. *)
Definition logged_out (server : nat → request → http_reply) (reply : token_reply)
  : client :=
  MkClient "https://api.qqcatalyst.com/v1" None None server (fun _ => reply)
    (fun _ => 0) 0 0 0 [].

(** Every request is answered with a page of one contact that carries no
    [TotalItems]. *)
Definition bare_pages (_ : nat) (_ : request) : http_reply :=
  Reply 200 (Some (data_page [contact "1"])).

(** A world whose database fails whatever is asked of it first. *)
Definition connection_lost_world : world :=
  World (Session ∅ [] [connection_lost] []) [].

End Fixtures.

(* ===================================================================== *)
(** * Properties of the API client *)
(* ===================================================================== *)

Import Staging Extractor Run.

Section ClientFacts.
Import Client.

(** While the held token is more than five minutes from its expiry,
    [_refresh_token] only reads the clock. *)
Lemma refresh_keeps_fresh_token (c : client) (tok : string) (e : Z) :
  _access_token c = Some tok → tok ≠ "" → _token_expires_at c = Some e →
  clock c (ticks c) < e - 300 →
  _refresh_token c = (inr tt, tick c).
Proof.
  intros Htok Hne Hexp Hfresh.
  unfold _refresh_token, token_stale, mbind, C_bind, bind, mret, C_ret, ret.
  rewrite Htok, Hexp. simpl.
  destruct (String.eqb_spec tok ""); [contradiction|]. simpl.
  destruct (Z.leb_spec (e - 300) (clock c (ticks c))); [lia|].
  unfold tick; simpl. rewrite Htok, Hexp. reflexivity.
Qed.

Lemma send_with_fresh_token (url : string) (params : gmap string pvalue)
    (c : client) (tok : string) (e : Z) :
  _access_token c = Some tok → tok ≠ "" → _token_expires_at c = Some e →
  clock c (ticks c) < e - 300 →
  send url params c =
    let r := Request url ("Bearer " +:+ tok) params in
    let c' := (http_get url ("Bearer " +:+ tok) params (tick c)).2 in
    match server c (gets c) r with
    | Reply status body => (inr (status, body), c')
    | ConnectionFailure m => (inl (TransportError m), c')
    end.
Proof.
  intros Htok Hne Hexp Hfresh. unfold send, _get_headers.
  unfold mbind, C_bind, bind.
  rewrite (refresh_keeps_fresh_token c tok e) by assumption.
  unfold authorization, tick, now, http_get. simpl. rewrite Htok. simpl.
  destruct (server c (gets c) _); reflexivity.
Qed.

(** C3, on the code: when a request is answered with 401 while the held
    token is, by the local clock, more than five minutes from its expiry,
    the refresh that [get_resource] calls fetches nothing: no POST goes to
    the token endpoint, the token is kept, and the one retried request
    carries the very Authorization header that was just rejected. *)
Theorem unauthorized_retry_reuses_token (resource : string)
    (params : gmap string pvalue) (c : client) (tok : string) (e : Z) (body : option json) :
  _access_token c = Some tok → tok ≠ "" → _token_expires_at c = Some e →
  (∀ n, clock c n < e - 300) →
  let r := Request (base_url c +:+ "/" +:+ resource) ("Bearer " +:+ tok) params in
  server c (gets c) r = Reply 401 body →
  let c' := (get_resource_once resource params c).2 in
  posts c' = posts c
  ∧ trace c' = trace c ++ [EvGet r; EvGet r]
  ∧ _access_token c' = Some tok.
Proof.
  intros Htok Hne Hexp Hfresh r H401 c'. subst c'.
  unfold get_resource_once, mbind, C_bind, bind.
  rewrite (send_with_fresh_token _ _ c tok e) by auto. cbv zeta.
  fold r. rewrite H401. cbn [fst snd Z.eqb Pos.eqb].
  set (c1 := (http_get _ _ _ (tick c)).2).
  rewrite (refresh_keeps_fresh_token c1 tok e) by (subst c1; simpl; auto).
  rewrite (send_with_fresh_token _ _ (tick c1) tok e) by (subst c1; simpl; auto).
  cbv zeta.
  set (c2 := (http_get _ _ _ (tick (tick c1))).2).
  assert (Hc2 : posts c2 = posts c ∧ trace c2 = trace c ++ [EvGet r; EvGet r]
                ∧ _access_token c2 = Some tok).
  { subst c2 c1. simpl. rewrite <- app_assoc. simpl. auto. }
  destruct (server (tick c1) (gets (tick c1)) _) as [status2 body2|m]; [|exact Hc2].
  cbn [fst snd]. unfold raise_for_status, response_json, ret, raise.
  destruct ((200 <=? status2) && (status2 <? 300)); [|exact Hc2].
  destruct body2; exact Hc2.
Qed.

Lemma get_resource_three_attempts (resource : string) (params : gmap string pvalue)
    (c : client) :
  get_resource resource params c =
    match get_resource_once resource params c with
    | (inr data, c1) => (inr data, c1)
    | (inl _, c1) =>
        match get_resource_once resource params (sleep 4 c1).2 with
        | (inr data, c2) => (inr data, c2)
        | (inl _, c2) => get_resource_once resource params (sleep 4 c2).2
        end
    end.
Proof.
  unfold get_resource, retry, mbind, C_bind, bind. simpl.
  destruct (get_resource_once resource params c) as [[e1|d1] c1]; [|reflexivity].
  change (wait_exponential 1 4 10 (Z.of_nat (3 - 2))) with 4.
  destruct (get_resource_once resource params _) as [[e2|d2] c2]; [|reflexivity].
  change (wait_exponential 1 4 10 (Z.of_nat (3 - 1))) with 4.
  destruct (get_resource_once resource params _) as [[e3|d3] c3]; reflexivity.
Qed.

Lemma status_error_is_raised (resource : string) (params : gmap string pvalue)
    (c c1 : client) (status : Z) (body : option json) :
  send (base_url c +:+ "/" +:+ resource) params c = (inr (status, body), c1) →
  status ≠ 401 → ¬ (200 ≤ status < 300) →
  get_resource_once resource params c = (inl (HTTPStatusError status), c1).
Proof.
  intros Hsend Hne Hbad. unfold get_resource_once, mbind, C_bind, bind.
  rewrite Hsend. simpl.
  destruct (Z.eqb_spec status 401); [contradiction|].
  assert (Hb : (200 <=? status) && (status <? 300) = false).
  { destruct (Z.leb_spec 200 status), (Z.ltb_spec status 300); simpl; try reflexivity. lia. }
  unfold raise_for_status, ret. simpl. rewrite Hb. reflexivity.
Qed.

Lemma transport_error_is_raised (resource : string) (params : gmap string pvalue)
    (c c1 : client) (e : exn) :
  send (base_url c +:+ "/" +:+ resource) params c = (inl e, c1) →
  get_resource_once resource params c = (inl e, c1).
Proof.
  intros Hsend. unfold get_resource_once, mbind, C_bind, bind. by rewrite Hsend.
Qed.

(** C4, amended: a page fetch is retried whatever made it fail. A status
    outside 2xx other than 401 (404 as much as 429 or 500) and a network
    error both end the attempt with an exception, and [get_resource] makes
    up to three attempts, four seconds apart, before the exception of the
    last one propagates. *)
Theorem every_failure_is_retried (resource : string) (params : gmap string pvalue)
    (c : client) :
  get_resource resource params c =
    match get_resource_once resource params c with
    | (inr data, c1) => (inr data, c1)
    | (inl _, c1) =>
        match get_resource_once resource params (sleep 4 c1).2 with
        | (inr data, c2) => (inr data, c2)
        | (inl _, c2) => get_resource_once resource params (sleep 4 c2).2
        end
    end
  ∧ (∀ (status : Z) (body : option json) (c1 : client),
       send (base_url c +:+ "/" +:+ resource) params c = (inr (status, body), c1) →
       status ≠ 401 → ¬ (200 ≤ status < 300) →
       get_resource_once resource params c = (inl (HTTPStatusError status), c1))
  ∧ (∀ (m : string) (c1 : client),
       send (base_url c +:+ "/" +:+ resource) params c = (inl (TransportError m), c1) →
       get_resource_once resource params c = (inl (TransportError m), c1))
  ∧ wait_exponential 1 4 10 1 = 4
  ∧ wait_exponential 1 4 10 2 = 4.
Proof.
  split; [apply get_resource_three_attempts|].
  split; [intros status body c1; apply status_error_is_raised|].
  split; [intros m c1; apply transport_error_is_raised|].
  split; reflexivity.
Qed.

(** C8, amended: the dialect follows the path. A path that contains
    [LastModifiedCreated] gets [startDate] and [endDate] when a start bound
    is given, with [endDate] the current time if no end bound is given;
    any other path gets [lastModifiedStart] and [lastModifiedEnd], each only
    if its bound is given, so that a start bound alone sends no end bound
    at all. *)
Theorem filter_dialect_by_path (resource : string)
    (last_modified_start last_modified_end : option string)
    (page page_size : Z) (c : client) :
  let base : gmap string pvalue :=
    <["pageSize" := PInt page_size]> (<["pageNumber" := PInt page]> ∅) in
  let start := PStr (default "" last_modified_start) in
  let stop := PStr (default "" last_modified_end) in
  let built := build_params resource last_modified_start last_modified_end
                 page page_size c in
  (contains "LastModifiedCreated" resource = true →
   truthy_str last_modified_start = true →
   built =
     if truthy_str last_modified_end
     then (inr (<["endDate" := stop]> (<["startDate" := start]> base)), c)
     else (inr (<["endDate" := PIsoTime (clock c (ticks c))]>
                  (<["startDate" := start]> base)), tick c))
  ∧ (contains "LastModifiedCreated" resource = false →
     built =
       (inr ((if truthy_str last_modified_end
              then <["lastModifiedEnd" := stop]> else id)
               ((if truthy_str last_modified_start
                 then <["lastModifiedStart" := start]> else id) base)), c))
  ∧ (contains "LastModifiedCreated" resource = false →
     truthy_str last_modified_start = true →
     truthy_str last_modified_end = false →
     ∃ params, built = (inr params, c)
       ∧ params !! "lastModifiedStart" = Some start
       ∧ params !! "lastModifiedEnd" = None
       ∧ params !! "endDate" = None).
Proof.
  intros base start stop built. subst built. unfold build_params.
  split; [|split].
  - intros -> ->. destruct (truthy_str last_modified_end); reflexivity.
  - intros ->. destruct (truthy_str last_modified_start), (truthy_str last_modified_end);
      reflexivity.
  - intros -> -> ->. eexists. split; [reflexivity|].
    subst base start. rewrite lookup_insert_eq.
    rewrite !lookup_insert_ne by discriminate. rewrite !lookup_empty. auto.
Qed.

End ClientFacts.

(* ===================================================================== *)
(** * Properties of the page generator *)
(* ===================================================================== *)

Section Pagination.
Import Client.
Context `{Builtins}.
Variable resource : string.
Variable last_modified_start last_modified_end : option string.
Variable page_size : Z.

#[local] Abbreviation paginate :=
  (get_paginated_resource resource last_modified_start last_modified_end page_size).
#[local] Abbreviation fetch :=
  (fetch_page resource last_modified_start last_modified_end page_size).

Lemma build_params_page_number (p : Z) (c cA : client) (params : gmap string pvalue) :
  build_params resource last_modified_start last_modified_end p page_size c
  = (inr params, cA) →
  params !! "pageNumber" = Some (PInt p).
Proof.
  unfold build_params.
  destruct (contains _ _), (truthy_str last_modified_start),
    (truthy_str last_modified_end); cbn; intros [= <- <-];
    rewrite ?lookup_insert_ne by discriminate; apply lookup_insert_eq.
Qed.

(** What a page handed out by [fetch_page] is. *)
Lemma fetch_page_yield (g g1 : gen) (c c1 : client) (data : json) :
  fetch g c = GYield data (g1, c1) →
  page g1 = page g ∧ yielded g1 = Some data ∧ has_data data = inr true
  ∧ ∃ params cA,
      build_params resource last_modified_start last_modified_end (page g) page_size c
      = (inr params, cA)
      ∧ params !! "pageNumber" = Some (PInt (page g))
      ∧ get_resource resource params cA = (inr data, c1).
Proof.
  unfold fetch_page, mbind, C_bind, bind.
  destruct (build_params _ _ _ _ _ c) as [[e|params] cA] eqn:Hb; [discriminate|].
  destruct (get_resource resource params cA) as [[e|data'] c'] eqn:Hg; [discriminate|].
  destruct (has_data data') as [e|[|]] eqn:Hd; simpl; try discriminate.
  destruct (reports_no_items data' (total_items g)); [discriminate|].
  intros [= <- <- <-]. simpl. repeat split; auto.
  exists params, cA. repeat split; auto. by apply build_params_page_number in Hb.
Qed.

Lemma paginate_yield (g g1 : gen) (c c1 : client) (data : json) :
  paginate (g, c) = GYield data (g1, c1) →
  page g1 = page g + match yielded g with Some _ => 1 | None => 0 end
  ∧ yielded g1 = Some data ∧ has_data data = inr true
  ∧ ∃ params c0 cA,
      build_params resource last_modified_start last_modified_end (page g1) page_size c0
      = (inr params, cA)
      ∧ params !! "pageNumber" = Some (PInt (page g1))
      ∧ get_resource resource params cA = (inr data, c1).
Proof.
  unfold get_paginated_resource.
  destruct (yielded g) as [last|] eqn:Hy.
  - destruct (last_page last) as [e|[|]]; try discriminate.
    intros Hf. apply fetch_page_yield in Hf as (Hp & Hy1 & Hd & params & cA & Hb & Hn & Hg).
    simpl in *. repeat split; auto. rewrite Hp. exists params, c, cA. auto.
  - intros Hf. apply fetch_page_yield in Hf as (Hp & Hy1 & Hd & params & cA & Hb & Hn & Hg).
    repeat split; auto; [lia|]. rewrite Hp. exists params, c, cA. auto.
Qed.

(** After a page whose number has reached the total, the generator stops
    without another request. *)
Lemma paginate_last_page (g : gen) (c : client) (data : json) :
  yielded g = Some data → last_page data = inr true →
  paginate (g, c) = GStop (g, c).
Proof. intros Hy Hl. unfold get_paginated_resource. by rewrite Hy, Hl. Qed.

Lemma last_page_reached (d : gmap string json) (number total : Z) :
  d !! "PageNumber" = Some (JInt number) → d !! "PagesTotal" = Some (JInt total) →
  number ≠ 0 → total ≠ 0 → total ≤ number →
  last_page (JDict d) = inr true.
Proof.
  intros Hn Ht Hn0 Ht0 Hle. unfold last_page, dict_get. rewrite Hn, Ht. simpl.
  destruct (Z.eqb_spec number 0); [contradiction|].
  destruct (Z.eqb_spec total 0); [contradiction|]. simpl.
  unfold py_ge. simpl.
  destruct (Z.leb_spec total number); [reflexivity|lia].
Qed.

Lemma run_gen_S {S : Type} (next_page : S → gen_step S) (fuel : nat) (src : S) :
  run_gen next_page (Datatypes.S fuel) src =
    match next_page src with
    | GStop _ => ([], Some None)
    | GRaise e _ => ([], Some (Some e))
    | GYield page src' =>
        ((src', page) :: (run_gen next_page fuel src').1, (run_gen next_page fuel src').2)
    end.
Proof.
  simpl. destruct (next_page src); try reflexivity.
  by destruct (run_gen next_page fuel s).
Qed.

(** The pages of a run, numbered. *)
Lemma run_gen_numbered (fuel : nat) (g0 : gen) (c0 : client)
    (i : nat) (g : gen) (c : client) (data : json) :
  (run_gen paginate fuel (g0, c0)).1 !! i = Some ((g, c), data) →
  page g = page g0 + Z.of_nat i + match yielded g0 with Some _ => 1 | None => 0 end
  ∧ yielded g = Some data
  ∧ has_data data = inr true.
Proof.
  revert g0 c0 i. induction fuel as [|fuel IH]; intros g0 c0 i.
  { intros Hi. simpl in Hi. by rewrite lookup_nil in Hi. }
  rewrite run_gen_S.
  destruct (paginate (g0, c0)) as [data1 [g1 c1]|s|e s] eqn:Hstep;
    try (intros Hi; simpl in Hi; by rewrite lookup_nil in Hi).
  apply paginate_yield in Hstep as (Hp & Hy & Hd & _).
  destruct i as [|i]; simpl.
  - intros Hi. simplify_eq. repeat split; auto. destruct (yielded g0); lia.
  - intros Hi. destruct (IH g1 c1 i Hi) as (Hp' & Hy' & Hd'). repeat split; auto.
    rewrite Hp', Hp, Hy. destruct (yielded g0); lia.
Qed.

(** Once a run has ended, more fuel changes nothing. *)
Lemma run_gen_stable {S : Type} (next_page : S → gen_step S) (fuel fuel' : nat) (src : S)
    (ending : option exn) :
  (run_gen next_page fuel src).2 = Some ending → (fuel ≤ fuel')%nat →
  run_gen next_page fuel' src = run_gen next_page fuel src.
Proof.
  revert fuel' src. induction fuel as [|fuel IH]; intros fuel' src; simpl; [discriminate|].
  intros Hend Hle. destruct fuel' as [|fuel']; [lia|]. simpl.
  destruct (next_page src) as [data src1|s|e s]; try reflexivity.
  destruct (run_gen next_page fuel src1) as [rest ending'] eqn:Hrun.
  simpl in Hend. subst ending'.
  rewrite (IH fuel' src1); [by rewrite Hrun|by rewrite Hrun|lia].
Qed.

(** Every resumption that does not end at the last-page test is a fetch
    of the next page: the first page for a fresh generator, the page after
    the one handed out for a suspended one. *)
Lemma paginate_fetches (g : gen) (c : client) :
  goes_on g → paginate (g, c) = fetch (upcoming g) c.
Proof.
  unfold goes_on, upcoming, get_paginated_resource.
  destruct (yielded g) as [last|]; [intros ->|]; reflexivity.
Qed.

Lemma upcoming_total (g : gen) : total_items (upcoming g) = total_items g.
Proof. unfold upcoming. by destruct (yielded g). Qed.


End Pagination.

Section Endless.
Import Client Sample.

Lemma get_resource_served (resource : string) (params : gmap string pvalue) (c : client)
    (tok : string) (e : Z) (data : json) :
  _access_token c = Some tok → tok ≠ "" → _token_expires_at c = Some e →
  clock c (ticks c) < e - 300 →
  (∀ r, server c (gets c) r = Reply 200 (Some data)) →
  get_resource resource params c
  = (inr data,
     (http_get (base_url c +:+ "/" +:+ resource) ("Bearer " +:+ tok) params (tick c)).2).
Proof.
  intros Htok Hne Hexp Hfresh Hserved.
  unfold get_resource, retry, get_resource_once, mbind, C_bind, bind.
  rewrite (send_with_fresh_token _ _ c tok e) by assumption. cbv zeta.
  rewrite Hserved. reflexivity.
Qed.

Lemma endless_step (g : gen) (c : client) :
  endless_client c →
  yielded g = None ∨ yielded g = Some one_contact →
  ∃ g' c',
    get_paginated_resource (H := scalars_only) "Contacts" None None 100 (g, c)
    = GYield one_contact (g', c')
    ∧ endless_client c' ∧ yielded g' = Some one_contact.
Proof.
  intros (Htok & Hexp & Hclock & Hserver) Hy.
  assert (Hfetch : ∀ g0, ∃ g' c',
            fetch_page "Contacts" None None 100 g0 c = GYield one_contact (g', c')
            ∧ endless_client c' ∧ yielded g' = Some one_contact).
  { intros g0. unfold fetch_page, mbind, C_bind, bind.
    change (build_params "Contacts" None None (page g0) 100 c)
      with (@inr exn _ (<["pageSize" := PInt 100]>
                          (<["pageNumber" := PInt (page g0)]> (∅ : gmap string pvalue))), c).
    cbv iota beta.
    rewrite (get_resource_served _ _ c "tok" 3600 one_contact Htok
               ltac:(discriminate) Hexp ltac:(rewrite Hclock; lia)
               ltac:(intros; apply Hserver)).
    change (has_data one_contact) with (@inr exn bool true). cbv iota beta.
    change (negb true || reports_no_items one_contact (total_items g0)) with false.
    cbv iota. eexists _, _. split; [reflexivity|]. split; [|reflexivity].
    unfold endless_client. simpl. auto. }
  unfold get_paginated_resource. destruct Hy as [-> | ->]; [apply Hfetch|].
  change (last_page (H := scalars_only) one_contact) with (@inr exn bool false).
  cbv iota. apply Hfetch.
Qed.

Lemma endless_never_ends (fuel : nat) (g : gen) (c : client) :
  endless_client c →
  yielded g = None ∨ yielded g = Some one_contact →
  (run_gen (get_paginated_resource (H := scalars_only) "Contacts" None None 100)
     fuel (g, c)).2 = None.
Proof.
  revert g c. induction fuel as [|fuel IH]; intros g c Hc Hy; [reflexivity|].
  rewrite run_gen_S.
  destruct (endless_step g c Hc Hy) as (g' & c' & -> & Hc' & Hy').
  simpl. apply IH; auto.
Qed.


End Endless.

(* ===================================================================== *)
(** * Properties of the extractor *)
(* ===================================================================== *)

Section Identifiers.
Context `{Builtins}.

Lemma id_fields_contacts : id_field_map !! "contacts" = Some ["EntityID"; "ContactId"].
Proof. reflexivity. Qed.

Lemma entity_id_contacts (d : gmap string json) :
  entity_id_of "contacts" d = py_str (dict_get_default d "EntityID" (JStr "")).
Proof. reflexivity. Qed.

Lemma validate_contact_by_ContactId (d : gmap string json) :
  truthy (dict_get d "ContactId") = true → _validate_record d "contacts" = [].
Proof.
  intros Hc. unfold _validate_record. rewrite id_fields_contacts. simpl.
  rewrite Hc, orb_true_r. reflexivity.
Qed.

(** An EntityID that is present but null, zero or false is missing for the
    validator and an identifier for the resolution. *)
Lemma falsy_EntityID_resolves (d : gmap string json) (v : json) :
  d !! "EntityID" = Some v →
  v = JNull ∨ v = JInt 0 ∨ v = JBool false →
  truthy (dict_get d "EntityID") = false
  ∧ entity_id_of "contacts" d = py_str v
  ∧ py_str v ≠ "".
Proof.
  intros Hd Hv. split; [|split].
  - unfold dict_get. rewrite Hd. by destruct Hv as [->|[->| ->]].
  - rewrite entity_id_contacts. unfold dict_get_default. by rewrite Hd.
  - destruct Hv as [->|[->| ->]]; discriminate.
Qed.

End Identifiers.

Section Flush.

(** The two ways [_flush_buffer] can end. *)
Lemma flush_buffer_cases (buffer : list raw_record) (w : world) :
  match _flush_buffer buffer w with
  | (inr _, w') =>
      tables (sess w') = foldl insert_row (tables (sess w)) (pending (sess w) ++ buffer)
      ∧ pending (sess w') = []
      ∧ calls (sess w') = calls (sess w) ++ [BulkSave buffer; Commit]
  | (inl e, w') =>
      tables (sess w') = tables (sess w)
      ∧ pending (sess w') = []
      ∧ (∃ cs, calls (sess w') = calls (sess w) ++ BulkSave buffer :: cs ++ [Rollback]
               ∧ (cs = [] ∨ cs = [Commit]))
      ∧ (∃ ty msg, e = Exception (flush_message msg) (DBError ty msg))
      ∧ (∀ i r, buffer !! i = Some r → ("ERROR", record_line i r) ∈ logs w')
  end.
Proof.
  unfold _flush_buffer, bulk_save_objects, commit. simpl.
  destruct (next_outcome (sess w)) as [|ty msg staged] eqn:Hfirst; simpl.
  - match goal with |- context [next_outcome ?s] => destruct (next_outcome s) as [|ty msg staged] eqn:Hsecond end; simpl.
    + rewrite <- app_assoc. auto.
    + repeat split; auto.
      * exists [Commit]. rewrite <- !app_assoc. auto.
      * eauto.
      * intros i r Hi. apply elem_of_app. right. apply elem_of_lookup_imap. eauto.
  - repeat split; auto.
    + exists []. rewrite <- !app_assoc. auto.
    + eauto.
    + intros i r Hi. apply elem_of_app. right. apply elem_of_lookup_imap. eauto.
Qed.

End Flush.

Section Screening.
Context `{Builtins}.
Variable self : extractor.
Variable resource : string.
Variable model_class : string.

#[local] Abbreviation screen := (screen self resource model_class).
#[local] Abbreviation seen_after := (seen_after self resource model_class).
#[local] Abbreviation seen_all := (seen_all self resource model_class).
#[local] Abbreviation kept := (kept self resource model_class).
#[local] Abbreviation feed := (feed self).
#[local] Abbreviation feed_all := (feed_all self).

Lemma seen_after_grows (E seen : gset string) (item : json) :
  seen ⊆ seen_after E seen item.
Proof. unfold Run.seen_after. destruct (screen E seen item); set_solver. Qed.

Lemma seen_all_grows (E : gset string) (items : list json) (seen : gset string) :
  seen ⊆ seen_all E seen items.
Proof.
  revert seen. induction items as [|item rest IH]; intros seen; simpl; [set_solver|].
  etrans; [apply (seen_after_grows E seen item)|apply IH].
Qed.

Lemma kept_app (E : gset string) (xs ys : list json) (seen : gset string) :
  kept E seen (xs ++ ys) = kept E seen xs ++ kept E (seen_all E seen xs) ys.
Proof.
  revert seen. induction xs as [|x xs IH]; intros seen; simpl; [reflexivity|].
  destruct (screen E seen x); simpl; rewrite IH; reflexivity.
Qed.

Lemma seen_all_app (E : gset string) (xs ys : list json) (seen : gset string) :
  seen_all E seen (xs ++ ys) = seen_all E (seen_all E seen xs) ys.
Proof.
  revert seen. induction xs as [|x xs IH]; intros seen; simpl; [reflexivity|]. apply IH.
Qed.

(** What is known of a kept record. *)
Lemma screen_fresh (E seen : gset string) (item : json) (id : string) (r : raw_record) :
  screen E seen item = Fresh id r →
  r = RawRecord model_class id item (batch_id self)
  ∧ (id ∉ seen) ∧ (id ∉ E) ∧ id ≠ ""
  ∧ ∃ d, item = JDict d ∧ entity_id_of resource d = id ∧ _validate_record d resource = [].
Proof.
  unfold Run.screen. destruct item as [| | | | |d]; try discriminate.
  destruct (String.eqb_spec (entity_id_of resource d) ""); [discriminate|].
  destruct (bool_decide_reflect (entity_id_of resource d ∈ seen)); [discriminate|].
  destruct (bool_decide_reflect (entity_id_of resource d ∈ E)); [discriminate|].
  destruct (_validate_record d resource) eqn:Hv; [|discriminate].
  intros [= <- <-]. repeat split; eauto.
Qed.

Lemma screen_malformed (E seen : gset string) (item : json) :
  screen E seen item = Malformed → ¬ is_dict item.
Proof.
  unfold Run.screen. destruct item as [| | | | |d]; simpl; auto.
  destruct (String.eqb _ ""); [discriminate|].
  destruct (bool_decide (_ ∈ seen)); [discriminate|].
  destruct (bool_decide (_ ∈ E)); [discriminate|].
  destruct (_validate_record d resource); discriminate.
Qed.

Lemma kept_elem (E : gset string) (items : list json) (seen : gset string) (r : raw_record) :
  r ∈ kept E seen items →
  (source_id r ∉ seen) ∧ (source_id r ∉ E) ∧ source_id r ∈ seen_all E seen items
  ∧ tablename r = model_class ∧ raw_data r ∈ items.
Proof.
  revert seen. induction items as [|item rest IH]; intros seen; simpl.
  { intros Hin. inversion Hin. }
  assert (Hstep : r ∈ kept E (seen_after E seen item) rest →
            (source_id r ∉ seen) ∧ (source_id r ∉ E)
            ∧ source_id r ∈ seen_all E (seen_after E seen item) rest
            ∧ tablename r = model_class ∧ raw_data r ∈ item :: rest).
  { intros Hin. destruct (IH _ Hin) as (Hs & HE & Hall & Ht & Hd).
    repeat split; auto.
    - intros Hc. apply Hs. by apply seen_after_grows.
    - by right. }
  destruct (screen E seen item) as [| | | | |id r0] eqn:Hscr; auto.
  intros [->|Hin]%elem_of_cons; [|auto].
  destruct (screen_fresh _ _ _ _ _ Hscr) as (-> & Hs & HE & _ & _). simpl.
  repeat split; auto.
  - apply seen_all_grows. unfold Run.seen_after. rewrite Hscr.
    apply elem_of_union. right. by apply elem_of_singleton.
  - by left.
Qed.

Lemma kept_NoDup (E : gset string) (items : list json) (seen : gset string) :
  NoDup (source_id <$> kept E seen items).
Proof.
  revert seen. induction items as [|item rest IH]; intros seen; simpl; [constructor|].
  destruct (screen E seen item) as [| | | | |id r0] eqn:Hscr; auto.
  rewrite fmap_cons. constructor; [|apply IH].
  intros (r & Hid & Hin)%list_elem_of_fmap.
  destruct (kept_elem _ _ _ _ Hin) as (Hs & _).
  apply Hs. rewrite <- Hid. unfold Run.seen_after. rewrite Hscr.
  destruct (screen_fresh _ _ _ _ _ Hscr) as (-> & _). simpl. set_solver.
Qed.


Variable E : gset string.
Variable limit : option Z.

#[local] Abbreviation process_item := (process_item self resource model_class E false limit).
#[local] Abbreviation process_items := (process_items self resource model_class E false limit).
#[local] Abbreviation process_page := (process_page self resource model_class E false limit).
#[local] Abbreviation pages_fold := (pages_fold self resource model_class E limit).

Lemma feed_all_app (bw : list raw_record * world) (rs1 rs2 : list raw_record) :
  feed_all bw (rs1 ++ rs2) =
    match feed_all bw rs1 with
    | inr bw' => feed_all bw' rs2
    | inl ew => inl ew
    end.
Proof.
  revert bw. induction rs1 as [|r rs1 IH]; intros bw; simpl; [reflexivity|].
  destruct (feed bw r); [reflexivity|apply IH].
Qed.

(** One item, outside test mode: the code against its screening. *)
Lemma process_item_feed (l : locals) (w : world) (item : json) :
  match process_item l w item with
  | Next l' w' =>
      is_dict item
      ∧ processed_ids l' = seen_after E (processed_ids l) item
      ∧ test_records l' = test_records l
      ∧ match screen E (processed_ids l) item with
        | Fresh _ r =>
            feed (buffer l, w) r = inr (buffer l', w')
            ∧ records_processed l' = S (records_processed l)
        | _ =>
            buffer l' = buffer l ∧ w' = w
            ∧ records_processed l' = records_processed l
        end
  | Throw e w' =>
      match screen E (processed_ids l) item with
      | Malformed => e = AttributeError ∧ w' = w
      | Fresh _ r => feed (buffer l, w) r = inl (e, w')
      | _ => False
      end
  | Return _ _ => False
  end.
Proof.
  unfold Extractor.process_item, Run.seen_after, Run.screen.
  destruct item as [| | | | |d]; simpl; auto.
  destruct (String.eqb (entity_id_of resource d) ""); [by repeat split|].
  destruct (bool_decide (entity_id_of resource d ∈ processed_ids l)); [by repeat split|].
  destruct (bool_decide (entity_id_of resource d ∈ E)); [by repeat split|].
  destruct (_validate_record d resource); [|by repeat split].
  unfold keep_item, Run.feed. simpl.
  destruct (Z.leb (batch_size self) _); [|by repeat split].
  destruct (_flush_buffer _ w) as [[e|[]] w']; simpl; by repeat split.
Qed.

Lemma process_items_feed (items : list json) (l : locals) (w : world) :
  match process_items items l w with
  | Next l' w' =>
      Forall is_dict items
      ∧ feed_all (buffer l, w) (kept E (processed_ids l) items) = inr (buffer l', w')
      ∧ processed_ids l' = seen_all E (processed_ids l) items
      ∧ records_processed l'
        = (records_processed l + List.length (kept E (processed_ids l) items))%nat
      ∧ test_records l' = test_records l
  | Throw e w' =>
      ¬ Forall is_dict items
      ∨ feed_all (buffer l, w) (kept E (processed_ids l) items) = inl (e, w')
  | Return _ _ => False
  end.
Proof.
  revert l w. induction items as [|item rest IH]; intros l w; simpl.
  { repeat split; auto. }
  pose proof (process_item_feed l w item) as Hstep.
  destruct (process_item l w item) as [l1 w1|v w1|e w1]; [|contradiction|].
  - destruct Hstep as (Hd & Hseen & Htest & Hscr).
    specialize (IH l1 w1). rewrite Hseen in IH.
    assert (Hfeed : match screen E (processed_ids l) item with
                    | Fresh _ r => feed (buffer l, w) r = inr (buffer l1, w1)
                                   ∧ records_processed l1 = S (records_processed l)
                    | _ => buffer l1 = buffer l ∧ w1 = w
                           ∧ records_processed l1 = records_processed l
                    end) by exact Hscr.
    clear Hscr.
    destruct (process_items rest l1 w1) as [l2 w2|v w2|e w2]; [|contradiction|].
    + destruct IH as (Hds & Hfa & Hs2 & Hn & Ht2).
      destruct (screen E (processed_ids l) item); simpl;
        try (destruct Hfeed as (Hb & -> & Hr); rewrite <- Hb, <- Hr, Hfa;
             repeat split; auto; congruence).
      destruct Hfeed as (Hf & Hr). rewrite Hf, Hfa. simpl.
      repeat split; auto; try congruence. lia.
    + destruct IH as [Hbad|Hfa].
      { left. intros Hall. apply Hbad. by inversion Hall. }
      right.
      destruct (screen E (processed_ids l) item); simpl;
        try (destruct Hfeed as (Hb & -> & Hr); rewrite <- Hb; exact Hfa).
      destruct Hfeed as (Hf & Hr). rewrite Hf. exact Hfa.
  - destruct (screen E (processed_ids l) item) eqn:Hscr; simpl; try contradiction.
    + left. intros Hall. apply (screen_malformed _ _ _ Hscr). by inversion Hall.
    + right. rewrite Hstep. reflexivity.
Qed.


Lemma process_page_feed (page : json) (l : locals) (w : world) :
  match process_page page l w with
  | Next l' w' =>
      page_ok page
      ∧ feed_all (buffer l, w) (kept E (processed_ids l) (items_list page))
        = inr (buffer l', w')
      ∧ processed_ids l' = seen_all E (processed_ids l) (items_list page)
      ∧ records_processed l'
        = (records_processed l
           + List.length (kept E (processed_ids l) (items_list page)))%nat
      ∧ test_records l' = test_records l
  | Throw e w' =>
      ¬ page_ok page
      ∨ feed_all (buffer l, w) (kept E (processed_ids l) (items_list page)) = inl (e, w')
  | Return _ _ => False
  end.
Proof.
  unfold Extractor.process_page, page_ok, items_list, page_items.
  destruct (py_len (items_of page)) as [e|n]; [left; auto|].
  destruct (py_iter (items_of page)) as [e|xs]; [left; auto|].
  apply (process_items_feed xs
           (Locals (records_processed l) (buffer l) (validation_errors l)
              (processed_ids l) (test_records l) (bump_total n (st l))) w).
Qed.

Lemma pages_fold_feed (pages : list json) (l : locals) (w : world) :
  match pages_fold pages l w with
  | Next l' w' =>
      Forall page_ok pages
      ∧ feed_all (buffer l, w) (kept E (processed_ids l) (all_items pages))
        = inr (buffer l', w')
      ∧ processed_ids l' = seen_all E (processed_ids l) (all_items pages)
      ∧ records_processed l'
        = (records_processed l
           + List.length (kept E (processed_ids l) (all_items pages)))%nat
      ∧ test_records l' = test_records l
  | Throw e w' =>
      ¬ Forall page_ok pages
      ∨ feed_all (buffer l, w) (kept E (processed_ids l) (all_items pages)) = inl (e, w')
  | Return _ _ => False
  end.
Proof.
  revert l w. induction pages as [|page rest IH]; intros l w; simpl.
  { by repeat split. }
  unfold all_items. simpl. fold (all_items rest).
  rewrite kept_app, feed_all_app, seen_all_app, length_app.
  pose proof (process_page_feed page l w) as Hpage.
  destruct (process_page page l w) as [l1 w1|v w1|e w1]; [|contradiction|].
  - destruct Hpage as (Hok & Hfa & Hseen & Hn & Ht).
    specialize (IH l1 w1). rewrite Hfa, <- Hseen.
    destruct (pages_fold rest l1 w1) as [l2 w2|v w2|e w2]; [|contradiction|].
    + destruct IH as (Hoks & Hfa2 & Hseen2 & Hn2 & Ht2).
      repeat split; auto; try congruence.
      rewrite Hn2, Hn, <- Nat.add_assoc. reflexivity.
    + destruct IH as [Hbad|Hfa2]; [left|right; exact Hfa2].
      intros Hall. apply Hbad. by inversion Hall.
  - destruct Hpage as [Hbad|Hfa]; [left|right; by rewrite Hfa].
    intros Hall. apply Hbad. by inversion Hall.
Qed.

(** The loop over a generator that hands out [pages] is the loop over
    [pages]. *)
Lemma page_loop_drains {S : Type} (next_page : S → gen_step S)
    (src src' : S) (pages : list json) :
  drains next_page src pages src' →
  ∀ (fuel : nat) (l : locals) (w : world),
    (List.length pages < fuel)%nat →
    match page_loop self resource model_class E false limit next_page fuel src l w,
          pages_fold pages l w with
    | Some (Finished l1 w1 s1), Next l2 w2 => l1 = l2 ∧ w1 = w2 ∧ s1 = src'
    | Some (Raised e1 w1 _), Throw e2 w2 => e1 = e2 ∧ w1 = w2
    | _, _ => False
    end.
Proof.
  induction 1 as [src src' Hstop|src page src1 pages src' Hyield Hdr IH];
    intros fuel l w Hfuel; (destruct fuel as [|fuel]; [simpl in Hfuel; lia|]); simpl.
  - rewrite Hstop. auto.
  - rewrite Hyield.
    pose proof (process_page_feed page l w) as Hpage.
    destruct (process_page page l w) as [l1 w1|v w1|e w1]; [|contradiction|auto].
    apply IH. simpl in Hfuel. lia.
Qed.

(** With less fuel than pages the loop either gives the same result or
    does not finish. *)
Lemma page_loop_drains_any_fuel {S : Type} (next_page : S → gen_step S)
    (src src' : S) (pages : list json) :
  drains next_page src pages src' →
  ∀ (fuel : nat) (l : locals) (w : world) (r : loop_end),
    page_loop self resource model_class E false limit next_page fuel src l w = Some r →
    match r, pages_fold pages l w with
    | Finished l1 w1 s1, Next l2 w2 => l1 = l2 ∧ w1 = w2 ∧ s1 = src'
    | Raised e1 w1 _, Throw e2 w2 => e1 = e2 ∧ w1 = w2
    | _, _ => False
    end.
Proof.
  induction 1 as [src src' Hstop|src page src1 pages src' Hyield Hdr IH];
    intros fuel l w r; (destruct fuel as [|fuel]; [discriminate|]); simpl.
  - rewrite Hstop. intros [= <-]. auto.
  - rewrite Hyield.
    pose proof (process_page_feed page l w) as Hpage.
    destruct (process_page page l w) as [l1 w1|v w1|e w1]; [|contradiction|].
    + apply IH.
    + intros [= <-]. auto.
Qed.

End Screening.

Section Store.
Variable self : extractor.
Variable model_class : string.

#[local] Abbreviation in_model := (Forall (fun r => tablename r = model_class)).
#[local] Abbreviation feed := (feed self).
#[local] Abbreviation feed_all := (feed_all self).

Lemma rows_foldl_insert_row (buf : list raw_record) (tb : gmap string (list raw_record)) :
  in_model buf →
  default [] (foldl insert_row tb buf !! model_class)
  = default [] (tb !! model_class) ++ buf.
Proof.
  revert tb. induction buf as [|r buf IH]; intros tb Hall; simpl.
  { by rewrite app_nil_r. }
  apply Forall_cons in Hall as [Hr Hrest].
  rewrite IH by assumption. unfold insert_row. rewrite Hr, lookup_insert_eq. simpl.
  by rewrite <- app_assoc.
Qed.

(** A flush on a session without open transaction: all rows or none. *)
Lemma flush_rows (buf : list raw_record) (w : world) :
  pending (sess w) = [] → in_model buf →
  match _flush_buffer buf w with
  | (inr _, w') =>
      rows (sess w') model_class = rows (sess w) model_class ++ buf
      ∧ pending (sess w') = []
  | (inl _, w') =>
      rows (sess w') model_class = rows (sess w) model_class
      ∧ pending (sess w') = []
  end.
Proof.
  intros Hp Hall. pose proof (flush_buffer_cases buf w) as Hc.
  destruct (_flush_buffer buf w) as [[e|[]] w'].
  - destruct Hc as (Ht & Hp' & _). unfold rows. by rewrite Ht.
  - destruct Hc as (Ht & Hp' & _). unfold rows.
    rewrite Ht, Hp. simpl. by rewrite rows_foldl_insert_row.
Qed.

Lemma feed_all_rows (rs buf : list raw_record) (w : world) :
  pending (sess w) = [] → in_model (buf ++ rs) →
  match feed_all (buf, w) rs with
  | inr (buf', w') =>
      rows (sess w') model_class ++ buf' = rows (sess w) model_class ++ buf ++ rs
      ∧ pending (sess w') = []
  | inl (_, w') =>
      (∃ k, rows (sess w') model_class
            = rows (sess w) model_class ++ take k (buf ++ rs))
      ∧ pending (sess w') = []
  end.
Proof.
  revert buf w. induction rs as [|r rs IH]; intros buf w Hp Hall; simpl.
  { by rewrite app_nil_r. }
  unfold Run.feed. simpl.
  assert (Hall' : in_model ((buf ++ [r]) ++ rs)) by (by rewrite <- app_assoc).
  destruct (Z.leb _ _).
  - pose proof (flush_rows (buf ++ [r]) w Hp) as Hf.
    destruct (_flush_buffer (buf ++ [r]) w) as [[e|[]] w1].
    + destruct Hf as (Hr & Hp1).
      { apply Forall_app in Hall' as [? _]. assumption. }
      split; [|assumption]. exists 0%nat. by rewrite Hr, app_nil_r.
    + destruct Hf as (Hr & Hp1).
      { apply Forall_app in Hall' as [? _]. assumption. }
      specialize (IH [] w1 Hp1). simpl in IH.
      assert (Hrs : in_model rs) by (apply Forall_app in Hall' as [_ ?]; assumption).
      specialize (IH Hrs).
      destruct (feed_all ([], w1) rs) as [[e w2]|[buf2 w2]].
      * destruct IH as ((k & Hk) & Hp2). split; [|assumption].
        exists (List.length (buf ++ [r]) + k)%nat.
        rewrite Hk, Hr, <- app_assoc. f_equal.
        replace (buf ++ r :: rs) with ((buf ++ [r]) ++ rs) by (by rewrite <- app_assoc).
        by rewrite take_app_add.
      * destruct IH as (Hk & Hp2). split; [|assumption].
        rewrite Hk, Hr, <- !app_assoc. reflexivity.
  - specialize (IH (buf ++ [r]) w Hp Hall').
    destruct (feed_all (buf ++ [r], w) rs) as [[e w2]|[buf2 w2]].
    + destruct IH as ((k & Hk) & Hp2). split; [|assumption].
      exists k. by rewrite Hk, <- app_assoc.
    + destruct IH as (Hk & Hp2). split; [|assumption].
      by rewrite Hk, <- !app_assoc.
Qed.

(** With no scripted failure left, a flush succeeds. *)
Lemma flush_healthy (buf : list raw_record) (w : world) :
  script (sess w) = [] →
  ∃ w', _flush_buffer buf w = (inr tt, w')
        ∧ script (sess w') = []
        ∧ calls (sess w') = calls (sess w) ++ [BulkSave buf; Commit].
Proof.
  intros Hs. unfold _flush_buffer, bulk_save_objects, commit, next_outcome. simpl.
  rewrite Hs. simpl. eexists. split; [reflexivity|]. simpl.
  by rewrite <- app_assoc.
Qed.

Lemma feed_all_below (rs buf : list raw_record) (w : world) :
  Z.of_nat (List.length (buf ++ rs)) < batch_size self →
  feed_all (buf, w) rs = inr (buf ++ rs, w).
Proof.
  revert buf. induction rs as [|r rs IH]; intros buf Hlen; simpl.
  { by rewrite app_nil_r. }
  unfold Run.feed. simpl.
  destruct (Z.leb_spec (batch_size self) (Z.of_nat (List.length (buf ++ [r])))) as [Hge|Hlt].
  { rewrite !length_app in *. simpl in *. lia. }
  rewrite IH; rewrite <- app_assoc; [reflexivity|exact Hlen].
Qed.

Lemma feed_all_fill (rs buf : list raw_record) (r : raw_record) (w : world) :
  Z.of_nat (List.length (buf ++ rs ++ [r])) = batch_size self →
  feed_all (buf, w) (rs ++ [r]) =
    match _flush_buffer (buf ++ rs ++ [r]) w with
    | (inr _, w') => inr ([], w')
    | (inl e, w') => inl (e, w')
    end.
Proof.
  intros Hlen. rewrite feed_all_app, feed_all_below.
  2:{ rewrite !length_app in *. simpl in *. lia. }
  simpl. unfold Run.feed. simpl. rewrite <- app_assoc.
  destruct (Z.leb_spec (batch_size self) (Z.of_nat (List.length (buf ++ rs ++ [r]))));
    [|lia].
  destruct (_flush_buffer _ w) as [[e|[]] w']; reflexivity.
Qed.

End Store.

Section Runs.
Context `{Builtins} {S : Type}.
Variable self : extractor.
Variable paginate : string → option string → option string → S → gen_step S.
Variable resource model_class endpoint : string.
Hypothesis registered_model : RESOURCE_MODEL_MAP !! resource = Some model_class.
Hypothesis registered_endpoint : RESOURCE_ENDPOINT_MAP !! resource = Some endpoint.
Variable last_modified_start last_modified_end : option string.
Variable limit : option Z.

#[local] Abbreviation next_page := (paginate endpoint last_modified_start last_modified_end).
#[local] Abbreviation kept := (kept self resource model_class).
#[local] Abbreviation feed_all := (feed_all self).

Lemma extract_resource_unfold (fuel : nat) (src : S) (w : world) :
  extract_resource self paginate resource last_modified_start last_modified_end
    false limit fuel src w
  = finish (page_loop self resource model_class (load_existing false model_class w).1
              false limit next_page fuel src locals_init
              (load_existing false model_class w).2).
Proof.
  unfold extract_resource. rewrite registered_model, registered_endpoint.
  destruct (load_existing false model_class w) as [E w0]. simpl.
  destruct (page_loop _ _ _ _ _ _ _ _ _ _ _) as [[l w1 s1|v w1 s1|e w1 s1]|]; reflexivity.
Qed.

Lemma load_existing_cases (w : world) :
  load_existing false model_class w =
    match next_outcome (sess w) with
    | DbOk => (staged_ids w model_class, scanned model_class w)
    | DbFail _ _ _ => (∅, scanned model_class w)
    end.
Proof.
  unfold load_existing, select_source_ids.
  destruct (next_outcome (sess w)); reflexivity.
Qed.

(** A run outside test mode that returns, over a generator that hands out
    [pages]. *)
Lemma completed_run (fuel : nat) (src src' src'' : S) (pages : list json)
    (w w' : world) (v : retval) :
  drains next_page src pages src' →
  extract_resource self paginate resource last_modified_start last_modified_end
    false limit fuel src w = Some (Ok v w' src'') →
  let E := (load_existing false model_class w).1 in
  ∃ buf w1,
    Forall page_ok pages
    ∧ feed_all ([], scanned model_class w) (kept E ∅ (all_items pages)) = inr (buf, w1)
    ∧ v = Count (List.length (kept E ∅ (all_items pages)))
    ∧ src'' = src'
    ∧ match buf with
      | [] => w' = w1
      | _ :: _ => _flush_buffer buf w1 = (inr tt, w')
      end.
Proof.
  intros Hdr. rewrite extract_resource_unfold.
  assert (Hw0 : (load_existing false model_class w).2 = scanned model_class w).
  { rewrite load_existing_cases. by destruct (next_outcome (sess w)). }
  rewrite Hw0. set (E := (load_existing false model_class w).1). simpl.
  destruct (page_loop _ _ _ _ _ _ _ _ _ _ _) as [r|] eqn:Hloop; [|discriminate].
  pose proof (page_loop_drains_any_fuel self resource model_class E limit
                next_page src src' pages Hdr fuel _ _ r Hloop) as Hrel.
  pose proof (pages_fold_feed self resource model_class E limit pages locals_init
                (scanned model_class w)) as Hfold.
  destruct r as [l1 w1 s1|v1 w1 s1|e1 w1 s1];
    destruct (pages_fold _ _ _ _ _ _ _ _) as [l2 w2|v2 w2|e2 w2]; try contradiction;
    try (simpl; discriminate).
  destruct Hrel as (-> & -> & ->).
  destruct Hfold as (Hok & Hfa & _ & Hn & _). simpl in Hfa, Hn.
  unfold finish. intros Hres. exists (buffer l2), w2.
  destruct (buffer l2) as [|r0 buf0] eqn:Hbuf.
  - injection Hres as <- <- <-. rewrite Hn. auto.
  - destruct (_flush_buffer (r0 :: buf0) w2) as [[e|[]] w3] eqn:Hfl; [discriminate|].
    injection Hres as <- <- <-. rewrite Hn. auto.
Qed.

(** The converse: what a run over well-formed pages returns. *)
Lemma run_of_pages (fuel : nat) (src src' : S) (pages : list json)
    (w : world) (buf : list raw_record) (w1 : world) :
  drains next_page src pages src' →
  (List.length pages < fuel)%nat →
  let E := (load_existing false model_class w).1 in
  Forall page_ok pages →
  feed_all ([], scanned model_class w) (kept E ∅ (all_items pages)) = inr (buf, w1) →
  extract_resource self paginate resource last_modified_start last_modified_end
    false limit fuel src w
  = match buf with
    | [] => Some (Ok (Count (List.length (kept E ∅ (all_items pages)))) w1 src')
    | _ :: _ =>
        match _flush_buffer buf w1 with
        | (inr _, w') =>
            Some (Ok (Count (List.length (kept E ∅ (all_items pages)))) w' src')
        | (inl e, w') => Some (Err e w' src')
        end
    end.
Proof.
  intros Hdr Hfuel E Hok Hfa. rewrite extract_resource_unfold.
  assert (Hw0 : (load_existing false model_class w).2 = scanned model_class w).
  { rewrite load_existing_cases. by destruct (next_outcome (sess w)). }
  rewrite Hw0. fold E.
  pose proof (page_loop_drains self resource model_class E limit
                next_page src src' pages Hdr fuel locals_init
                (scanned model_class w) Hfuel) as Hrel.
  pose proof (pages_fold_feed self resource model_class E limit pages locals_init
                (scanned model_class w)) as Hfold.
  destruct (page_loop _ _ _ _ _ _ _ _ _ _ _) as [[l1 w2 s1|v1 w2 s1|e1 w2 s1]|];
    destruct (pages_fold _ _ _ _ _ _ _ _) as [l2 w3|v2 w3|e2 w3]; try contradiction.
  - destruct Hrel as (-> & -> & ->).
    destruct Hfold as (_ & Hfa' & _ & Hn & _). simpl in Hfa', Hn.
    rewrite Hfa in Hfa'. injection Hfa' as -> ->.
    unfold finish. rewrite Hn. reflexivity.
  - destruct Hfold as [Hbad|Hfa']; [contradiction|].
    simpl in Hfa'. rewrite Hfa in Hfa'. discriminate.
Qed.

End Runs.

Section Growth.
Variable model_class : string.

Lemma foldl_insert_row_keeps (l : list raw_record) (tb : gmap string (list raw_record))
    (t : string) (r : raw_record) :
  r ∈ default [] (tb !! t) → r ∈ default [] (foldl insert_row tb l !! t).
Proof.
  revert tb. induction l as [|x l IH]; intros tb Hin; simpl; [assumption|].
  apply IH. unfold insert_row.
  destruct (decide (tablename x = t)) as [->|Hne].
  - rewrite lookup_insert_eq. simpl. apply elem_of_app. by left.
  - by rewrite lookup_insert_ne.
Qed.

Lemma foldl_insert_row_adds (l : list raw_record) (tb : gmap string (list raw_record))
    (r : raw_record) :
  r ∈ l → r ∈ default [] (foldl insert_row tb l !! tablename r).
Proof.
  revert tb. induction l as [|x l IH]; intros tb Hin; simpl.
  { inversion Hin. }
  apply elem_of_cons in Hin as [<-|Hin]; [|by apply IH].
  apply foldl_insert_row_keeps. unfold insert_row.
  rewrite lookup_insert_eq. simpl. apply elem_of_app. right. by left.
Qed.

(** A successful flush keeps the rows there were and adds the buffer. *)
Lemma flush_grows (buf : list raw_record) (w w' : world) :
  _flush_buffer buf w = (inr tt, w') →
  (∀ r, r ∈ rows (sess w) model_class → r ∈ rows (sess w') model_class)
  ∧ (∀ r, r ∈ buf → tablename r = model_class → r ∈ rows (sess w') model_class).
Proof.
  intros Hfl. pose proof (flush_buffer_cases buf w) as Hc. rewrite Hfl in Hc.
  destruct Hc as (Ht & _). unfold rows. rewrite Ht. split.
  - intros r Hr. by apply foldl_insert_row_keeps.
  - intros r Hr <-. apply foldl_insert_row_adds. apply elem_of_app. by right.
Qed.

Lemma feed_all_grows (self : extractor) (rs buf buf' : list raw_record) (w w' : world) :
  feed_all self (buf, w) rs = inr (buf', w') →
  (∀ r, r ∈ rows (sess w) model_class → r ∈ rows (sess w') model_class)
  ∧ (∀ r, r ∈ buf ++ rs → tablename r = model_class →
       r ∈ rows (sess w') model_class ∨ r ∈ buf').
Proof.
  revert buf w. induction rs as [|r0 rs IH]; intros buf w; simpl.
  { intros [= <- <-]. rewrite app_nil_r. auto. }
  unfold feed. simpl. destruct (Z.leb _ _).
  - destruct (_flush_buffer (buf ++ [r0]) w) as [[e|[]] w1] eqn:Hfl; [discriminate|].
    intros Hfa. destruct (IH _ _ Hfa) as (Hkeep & Hadd).
    destruct (flush_grows _ _ _ Hfl) as (Hkeep1 & Hadd1).
    split; [auto|].
    intros r Hr Ht. replace (buf ++ r0 :: rs) with ((buf ++ [r0]) ++ rs) in Hr
      by (by rewrite <- app_assoc).
    apply elem_of_app in Hr as [Hr|Hr]; [left; auto|].
    apply Hadd; [|assumption]. by apply elem_of_app; right.
  - intros Hfa. destruct (IH _ _ Hfa) as (Hkeep & Hadd). split; [auto|].
    intros r Hr Ht. apply Hadd; [|assumption]. by rewrite <- app_assoc.
Qed.

End Growth.

Section TwoRuns.
Context `{Builtins}.
Variable resource model_class : string.

Lemma seen_after_any_run (self self' : extractor) (E E' seen : gset string) (item : json) :
  seen_after self resource model_class E seen item
  = seen_after self' resource model_class E' seen item.
Proof.
  unfold seen_after, screen. destruct item; try reflexivity.
  destruct (String.eqb _ ""); [reflexivity|].
  destruct (bool_decide (_ ∈ seen)); [reflexivity|].
  destruct (bool_decide (_ ∈ E)), (bool_decide (_ ∈ E'));
    destruct (_validate_record kvs resource); reflexivity.
Qed.

(** Nothing is kept by a run that finds staged all that an earlier run over
    the same items kept. *)
Lemma kept_nothing_again (self self' : extractor) (E E' : gset string)
    (items : list json) (seen : gset string) :
  E ⊆ E' →
  (∀ r, r ∈ kept self resource model_class E seen items → source_id r ∈ E') →
  kept self' resource model_class E' seen items = [].
Proof.
  intros HE. revert seen. induction items as [|item rest IH]; intros seen Hin; simpl;
    [reflexivity|].
  simpl in Hin. rewrite (seen_after_any_run self' self E' E).
  assert (Hrest : kept self' resource model_class E'
                    (seen_after self resource model_class E seen item) rest = []).
  { apply IH. intros r Hr. apply Hin.
    destruct (screen self resource model_class E seen item); auto. by right. }
  destruct (screen self' resource model_class E' seen item) as [| | | | |id r'] eqn:Hscr';
    auto.
  exfalso.
  destruct (screen_fresh _ _ _ _ _ _ _ _ Hscr') as (-> & Hs & HE' & Hne & d & -> & Hid & Hv).
  assert (Hscr : screen self resource model_class E seen (JDict d)
                 = Fresh id (RawRecord model_class id (JDict d) (batch_id self))).
  { unfold screen. rewrite Hid.
    destruct (String.eqb_spec id ""); [contradiction|].
    rewrite bool_decide_eq_false_2 by assumption.
    rewrite bool_decide_eq_false_2 by set_solver.
    rewrite Hv. reflexivity. }
  rewrite Hscr in Hin. apply HE'.
  apply (Hin (RawRecord model_class id (JDict d) (batch_id self))). by left.
Qed.

End TwoRuns.

Section Idempotence.
Context `{Builtins} {S : Type}.
Variable paginate : string → option string → option string → S → gen_step S.
Variable resource model_class endpoint : string.
Hypothesis registered_model : RESOURCE_MODEL_MAP !! resource = Some model_class.
Hypothesis registered_endpoint : RESOURCE_ENDPOINT_MAP !! resource = Some endpoint.
Variable last_modified_start last_modified_end : option string.

Lemma staged_ids_spec (w : world) (r : raw_record) :
  r ∈ rows (sess w) model_class → source_id r ∈ staged_ids w model_class.
Proof.
  intros Hr. unfold staged_ids. apply elem_of_list_to_set, list_elem_of_fmap. eauto.
Qed.

(** C1: idempotence of extraction. For a registered resource and any
    filter window: if a run of [extract_resource] over a generator that hands
    out [pages] returns a count, then a second run over a generator that
    hands out the same pages, on a session that holds the tables the first
    run left and whose scan succeeds, returns the count 0, calls
    [bulk_save_objects] not once and leaves the tables as they were: its
    only call is the scan, which finds every identifier. *)
Theorem extraction_is_idempotent (self1 self2 : extractor) (limit1 limit2 : option Z)
    (fuel1 fuel2 : nat) (src1 src1' src1'' src2 src2' : S) (pages : list json)
    (w w1 w2 : world) (n : nat) :
  drains (paginate endpoint last_modified_start last_modified_end) src1 pages src1' →
  extract_resource self1 paginate resource last_modified_start last_modified_end
    false limit1 fuel1 src1 w = Some (Ok (Count n) w1 src1'') →
  drains (paginate endpoint last_modified_start last_modified_end) src2 pages src2' →
  (List.length pages < fuel2)%nat →
  tables (sess w2) = tables (sess w1) →
  next_outcome (sess w2) = DbOk →
  extract_resource self2 paginate resource last_modified_start last_modified_end
    false limit2 fuel2 src2 w2
  = Some (Ok (Count 0) (scanned model_class w2) src2')
  ∧ tables (sess (scanned model_class w2)) = tables (sess w1)
  ∧ bulk_saves (calls (sess (scanned model_class w2))) = bulk_saves (calls (sess w2)).
Proof.
  intros Hdr1 Hrun1 Hdr2 Hfuel Htables Hscan.
  destruct (completed_run self1 paginate resource model_class endpoint
              registered_model registered_endpoint _ _ limit1 fuel1 src1 src1' src1''
              pages w w1 _ Hdr1 Hrun1) as (buf & w1' & Hok & Hfa & _ & _ & Hfin).
  set (E1 := (load_existing false model_class w).1) in *.
  set (items := all_items pages) in *.
  assert (HE2 : (load_existing false model_class w2).1 = staged_ids w2 model_class).
  { rewrite (load_existing_cases model_class), Hscan. reflexivity. }
  assert (Hsame : staged_ids w2 model_class = staged_ids w1 model_class).
  { unfold staged_ids, rows. by rewrite Htables. }
  destruct (feed_all_grows model_class self1 _ _ _ _ _ Hfa) as (Hkeep & Hadd).
  assert (Hfinal : (∀ r, r ∈ rows (sess w1') model_class → r ∈ rows (sess w1) model_class)
                   ∧ (∀ r, r ∈ buf → tablename r = model_class →
                        r ∈ rows (sess w1) model_class)).
  { destruct buf as [|r0 buf0]; [subst w1'; split; [auto|]|].
    - intros r Hr. inversion Hr.
    - apply (flush_grows model_class _ _ _ Hfin). }
  destruct Hfinal as (Hkeep' & Hadd').
  assert (Hold : E1 ⊆ staged_ids w1 model_class).
  { subst E1. rewrite (load_existing_cases model_class).
    destruct (next_outcome (sess w)); simpl; [|set_solver].
    intros id (r & -> & Hr)%elem_of_list_to_set%list_elem_of_fmap.
    apply staged_ids_spec. auto. }
  assert (Hnew : ∀ r, r ∈ kept self1 resource model_class E1 ∅ items →
                      source_id r ∈ staged_ids w1 model_class).
  { intros r Hr. apply staged_ids_spec.
    destruct (kept_elem _ _ _ _ _ _ _ Hr) as (_ & _ & _ & Ht & _).
    destruct (Hadd r) as [Hin|Hin]; auto. }
  assert (Hnone : kept self2 resource model_class
                    (load_existing false model_class w2).1 ∅ items = []).
  { rewrite HE2, Hsame. by apply (kept_nothing_again resource model_class self1 self2 E1). }
  split; [|split].
  - rewrite (run_of_pages self2 paginate resource model_class endpoint
               registered_model registered_endpoint _ _ limit2 fuel2 src2 src2' pages
               w2 [] (scanned model_class w2) Hdr2 Hfuel Hok).
    + fold items. rewrite Hnone. reflexivity.
    + fold items. rewrite Hnone. reflexivity.
  - exact Htables.
  - unfold bulk_saves. simpl. rewrite omap_app. simpl. by rewrite app_nil_r.
Qed.

End Idempotence.

Section Batches.
Context `{Builtins} {S : Type}.
Variable self : extractor.
Variable paginate : string → option string → option string → S → gen_step S.
Variable resource model_class endpoint : string.
Hypothesis registered_model : RESOURCE_MODEL_MAP !! resource = Some model_class.
Hypothesis registered_endpoint : RESOURCE_ENDPOINT_MAP !! resource = Some endpoint.
Variable last_modified_start last_modified_end : option string.
Variable limit : option Z.

#[local] Abbreviation kept := (kept self resource model_class).
#[local] Abbreviation record_for :=
  (fun d : gmap string json =>
     record_of self model_class (entity_id_of resource d) (JDict d)).

(** Items that are identified, valid, new and pairwise different are all
    kept. *)
Lemma kept_all_good (E : gset string) (ds : list (gmap string json)) (seen : gset string) :
  Forall (fun d => entity_id_of resource d ≠ ""
                   ∧ _validate_record d resource = []
                   ∧ (entity_id_of resource d ∉ E)
                   ∧ (entity_id_of resource d ∉ seen)) ds →
  NoDup (entity_id_of resource <$> ds) →
  kept E seen (JDict <$> ds) = record_for <$> ds.
Proof.
  revert seen. induction ds as [|d ds IH]; intros seen Hgood Hnd; [reflexivity|].
  apply Forall_cons in Hgood as [(Hne & Hv & HE & Hs) Hrest].
  rewrite fmap_cons in Hnd. apply NoDup_cons in Hnd as [Hfresh Hnd].
  assert (Hscr : screen self resource model_class E seen (JDict d)
                 = Fresh (entity_id_of resource d) (record_for d)).
  { unfold screen. destruct (String.eqb_spec (entity_id_of resource d) "");
      [contradiction|].
    rewrite !bool_decide_eq_false_2 by assumption. rewrite Hv. reflexivity. }
  rewrite !fmap_cons.
  change (kept E seen (JDict d :: (JDict <$> ds)))
    with (match screen self resource model_class E seen (JDict d) with
          | Fresh _ r =>
              r :: kept E (seen_after self resource model_class E seen (JDict d))
                     (JDict <$> ds)
          | _ => kept E (seen_after self resource model_class E seen (JDict d))
                   (JDict <$> ds)
          end).
  unfold seen_after. rewrite Hscr. f_equal. apply IH; [|assumption].
  apply Forall_forall. intros d' Hd'.
  rewrite Forall_forall in Hrest. destruct (Hrest d' Hd') as (? & ? & ? & ?).
  repeat split; auto.
  intros [Hin|Hin%elem_of_singleton]%elem_of_union; [contradiction|].
  apply Hfresh. rewrite <- Hin. apply list_elem_of_fmap. eauto.
Qed.

(** C6: with a batch size of 1000 and a stream of exactly 1500 items that
    are identified, valid, pairwise different and not staged,
    [extract_resource] flushes exactly twice, the first 1000 records and
    then the remaining 500 at the end of the stream, and returns 1500. *)
Theorem batch_flush_boundary (fuel : nat) (src src' : S) (pages : list json)
    (ds : list (gmap string json)) (w : world) :
  batch_size self = 1000 →
  drains (paginate endpoint last_modified_start last_modified_end) src pages src' →
  (List.length pages < fuel)%nat →
  Forall page_ok pages →
  all_items pages = JDict <$> ds →
  List.length ds = 1500%nat →
  Forall (fun d => entity_id_of resource d ≠ ""
                   ∧ _validate_record d resource = []
                   ∧ entity_id_of resource d ∉ staged_ids w model_class) ds →
  NoDup (entity_id_of resource <$> ds) →
  script (sess w) = [] →
  let recs := record_for <$> ds in
  ∃ w',
    extract_resource self paginate resource last_modified_start last_modified_end
      false limit fuel src w = Some (Ok (Count 1500) w' src')
    ∧ calls (sess w')
      = calls (sess w) ++ [Execute model_class;
                           BulkSave (take 1000 recs); Commit;
                           BulkSave (drop 1000 recs); Commit]
    ∧ List.length (take 1000 recs) = 1000%nat
    ∧ List.length (drop 1000 recs) = 500%nat.
Proof.
  intros Hbatch Hdr Hfuel Hok Hitems Hlen Hgood Hnd Hscript recs.
  set (E := (load_existing false model_class w).1).
  assert (Hkept : kept E ∅ (all_items pages) = recs).
  { rewrite Hitems. apply kept_all_good; [|assumption].
    eapply Forall_impl; [exact Hgood|]. intros d (Hne & Hv & HE).
    repeat split; auto; [|set_solver].
    subst E. rewrite (load_existing_cases model_class).
    destruct (next_outcome (sess w)); [assumption|set_solver]. }
  assert (Hrecs : List.length recs = 1500%nat) by (subst recs; by rewrite length_fmap).
  assert (Htake : List.length (take 1000 recs) = 1000%nat) by (rewrite length_take; lia).
  assert (Hdrop : List.length (drop 1000 recs) = 500%nat) by (rewrite length_drop; lia).
  set (w0 := scanned model_class w).
  assert (Hs0 : script (sess w0) = []) by (subst w0; simpl; by rewrite Hscript).
  destruct (flush_healthy (take 1000 recs) w0 Hs0) as (wA & HflA & HsA & HcA).
  destruct (flush_healthy (drop 1000 recs) wA HsA) as (wB & HflB & HsB & HcB).
  assert (Hfirst : feed_all self ([], w0) (take 1000 recs) = inr ([], wA)).
  { destruct (take 1000 recs) as [|r0 rs0] eqn:Ht using rev_ind; [simpl in Htake; lia|].
    rewrite (feed_all_fill self rs0 [] r0 w0).
    - simpl. by rewrite HflA.
    - simpl. rewrite Htake, Hbatch. reflexivity. }
  assert (Hfeed : feed_all self ([], w0) recs = inr (drop 1000 recs, wA)).
  { rewrite <- (take_drop 1000 recs) at 1. rewrite feed_all_app, Hfirst.
    rewrite feed_all_below; [reflexivity|]. simpl. rewrite Hdrop, Hbatch. lia. }
  exists wB. split; [|split; [|auto]].
  - rewrite (run_of_pages self paginate resource model_class endpoint
               registered_model registered_endpoint _ _ limit fuel src src' pages
               w (drop 1000 recs) wA Hdr Hfuel Hok).
    + fold E. rewrite Hkept, Hrecs.
      destruct (drop 1000 recs) as [|r0 rs0] eqn:Hd; [simpl in Hdrop; lia|].
      by rewrite HflB.
    + fold E. by rewrite Hkept.
  - rewrite HcB, HcA. subst w0. simpl. rewrite <- !app_assoc. reflexivity.
Qed.

End Batches.

Section Occurrences.
Context `{Builtins}.
Variable self : extractor.
Variable resource model_class : string.
Variable E : gset string.

#[local] Abbreviation screen := (screen self resource model_class E).
#[local] Abbreviation seen_after := (seen_after self resource model_class E).
#[local] Abbreviation seen_all := (seen_all self resource model_class E).
#[local] Abbreviation kept := (kept self resource model_class E).

(** A kept record is the fresh item at some position of the stream. *)
Lemma kept_position (items : list json) (seen : gset string) (r : raw_record) :
  r ∈ kept seen items →
  ∃ pre item post,
    items = pre ++ item :: post
    ∧ screen (seen_all seen pre) item = Fresh (source_id r) r.
Proof.
  revert seen. induction items as [|item rest IH]; intros seen; simpl.
  { intros Hin. inversion Hin. }
  assert (Hlater : r ∈ kept (seen_after seen item) rest →
            ∃ pre item0 post, item :: rest = pre ++ item0 :: post
              ∧ screen (seen_all seen pre) item0 = Fresh (source_id r) r).
  { intros Hin. destruct (IH _ Hin) as (pre & item0 & post & -> & Hscr).
    exists (item :: pre), item0, post. auto. }
  destruct (screen seen item) as [| | | | |id r0] eqn:Hscr; auto.
  intros [->|Hin]%elem_of_cons; [|auto].
  exists [], item, rest. split; [reflexivity|]. simpl.
  destruct (screen_fresh _ _ _ _ _ _ _ _ Hscr) as (-> & _). exact Hscr.
Qed.

(** An identifier enters the set of seen identifiers only with an item
    that resolves to it. *)
Lemma seen_all_origin (items : list json) (seen : gset string) (id : string) :
  id ∈ seen_all seen items →
  id ∈ seen ∨ ∃ d, JDict d ∈ items ∧ entity_id_of resource d = id.
Proof.
  revert seen. induction items as [|item rest IH]; intros seen; simpl; [auto|].
  intros Hin. destruct (IH _ Hin) as [Hs|(d & Hd & Hid)].
  - unfold Run.seen_after in Hs.
    destruct (screen seen item) as [| | |id0|id0|id0 r0] eqn:Hscr; auto;
      (apply elem_of_union in Hs as [Hs|Hs%elem_of_singleton]; [auto|]);
      right; subst id0;
      unfold Run.screen in Hscr; destruct item as [| | | | |d]; try discriminate;
      exists d; (split; [by left|]);
      destruct (String.eqb _ ""); try discriminate;
      destruct (bool_decide (_ ∈ seen)); try discriminate;
      destruct (bool_decide (_ ∈ E)); try discriminate;
      destruct (_validate_record d resource); congruence.
  - right. exists d. split; [by right|assumption].
Qed.

(** Once an item resolved to an identifier, the identifier is seen. *)
Lemma seen_all_resolved (items : list json) (seen : gset string) (d : gmap string json) :
  JDict d ∈ items → entity_id_of resource d ≠ "" →
  entity_id_of resource d ∈ seen_all seen items.
Proof.
  revert seen. induction items as [|item rest IH]; intros seen Hin Hne; simpl.
  { inversion Hin. }
  apply elem_of_cons in Hin as [<-|Hin]; [|by apply IH].
  eapply (seen_all_grows self resource model_class E rest). unfold Run.seen_after, Run.screen.
  destruct (String.eqb_spec (entity_id_of resource d) ""); [contradiction|].
  destruct (bool_decide_reflect (entity_id_of resource d ∈ seen)); [assumption|].
  destruct (bool_decide (_ ∈ E)); [set_solver|].
  destruct (_validate_record d resource); set_solver.
Qed.

Lemma feed_all_buffer (rs buf buf' : list raw_record) (w w' : world) :
  feed_all self (buf, w) rs = inr (buf', w') → ∀ r, r ∈ buf' → r ∈ buf ++ rs.
Proof.
  revert buf w. induction rs as [|r0 rs IH]; intros buf w; simpl.
  { intros [= <- <-] r Hr. by rewrite app_nil_r. }
  unfold feed. simpl. destruct (Z.leb _ _).
  - destruct (_flush_buffer (buf ++ [r0]) w) as [[e|[]] w1]; [discriminate|].
    intros Hfa r Hr. apply (IH _ _ Hfa) in Hr. simpl in Hr.
    apply elem_of_app. right. by right.
  - intros Hfa r Hr. apply (IH _ _ Hfa) in Hr. by rewrite <- app_assoc in Hr.
Qed.

End Occurrences.

Section Dedup.
Context `{Builtins} {S : Type}.
Variable self : extractor.
Variable paginate : string → option string → option string → S → gen_step S.
Variable resource model_class endpoint : string.
Hypothesis registered_model : RESOURCE_MODEL_MAP !! resource = Some model_class.
Hypothesis registered_endpoint : RESOURCE_ENDPOINT_MAP !! resource = Some endpoint.
Variable last_modified_start last_modified_end : option string.
Variable limit : option Z.

#[local] Abbreviation record_for :=
  (fun d : gmap string json =>
     record_of self model_class (entity_id_of resource d) (JDict d)).

(** The rows a completed run adds are the records kept from its stream. *)
Lemma completed_run_rows (fuel : nat) (src src' src'' : S) (pages : list json)
    (w w' : world) (n : nat) :
  pending (sess w) = [] →
  drains (paginate endpoint last_modified_start last_modified_end) src pages src' →
  extract_resource self paginate resource last_modified_start last_modified_end
    false limit fuel src w = Some (Ok (Count n) w' src'') →
  let E := (load_existing false model_class w).1 in
  rows (sess w') model_class
  = rows (sess w) model_class ++ kept self resource model_class E ∅ (all_items pages)
  ∧ n = List.length (kept self resource model_class E ∅ (all_items pages))
  ∧ Forall page_ok pages.
Proof.
  intros Hp Hdr Hrun E.
  destruct (completed_run self paginate resource model_class endpoint
              registered_model registered_endpoint _ _ limit fuel src src' src''
              pages w w' _ Hdr Hrun) as (buf & w1 & Hok & Hfa & Hn & _ & Hfin).
  fold E in Hfa, Hn. injection Hn as ->.
  assert (Hmodel : Forall (fun r => tablename r = model_class)
                     (kept self resource model_class E ∅ (all_items pages))).
  { apply Forall_forall. intros r Hr.
    by destruct (kept_elem _ _ _ _ _ _ _ Hr) as (_ & _ & _ & Ht & _). }
  pose proof (feed_all_rows self model_class _ [] (scanned model_class w) Hp Hmodel) as Hrows.
  rewrite Hfa in Hrows. destruct Hrows as (Hrows & Hp1). simpl in Hrows.
  change (rows (sess (scanned model_class w)) model_class)
    with (rows (sess w) model_class) in Hrows.
  split; [|auto].
  destruct buf as [|r0 buf0].
  - subst w1. by rewrite app_nil_r in Hrows.
  - assert (Hbuf : Forall (fun r => tablename r = model_class) (r0 :: buf0)).
    { apply Forall_forall. intros r Hr.
      apply (feed_all_buffer self _ _ _ _ _ Hfa) in Hr. simpl in Hr.
      rewrite Forall_forall in Hmodel. auto. }
    pose proof (flush_rows model_class (r0 :: buf0) w1 Hp1 Hbuf) as Hfl.
    rewrite Hfin in Hfl. destruct Hfl as (Hfl & _). by rewrite Hfl, Hrows.
Qed.

(** C2, amended: in a run that returns, at most one record is written per
    identifier: the rows added are pairwise different in [source_id], each
    comes from the first item of the stream that resolves to its
    identifier, and that item is written exactly when it passes validation
    and its identifier is not staged. A later item with an identifier seen
    in the run is skipped by the in-memory set, checked first, whatever is
    staged; an item new to the run but staged is skipped as well; neither
    raises. *)
Theorem one_record_per_identifier (fuel : nat) (src src' src'' : S) (pages : list json)
    (w w' : world) (n : nat) :
  pending (sess w) = [] →
  drains (paginate endpoint last_modified_start last_modified_end) src pages src' →
  extract_resource self paginate resource last_modified_start last_modified_end
    false limit fuel src w = Some (Ok (Count n) w' src'') →
  let E := (load_existing false model_class w).1 in
  (∃ written,
     rows (sess w') model_class = rows (sess w) model_class ++ written
     ∧ n = List.length written
     ∧ NoDup (source_id <$> written)
     ∧ (∀ r, r ∈ written →
          ∃ pre d post,
            all_items pages = pre ++ JDict d :: post
            ∧ r = record_for d
            ∧ (source_id r ∉ E)
            ∧ _validate_record d resource = []
            ∧ (∀ d', JDict d' ∈ pre → entity_id_of resource d' ≠ source_id r))
     ∧ (∀ pre d post,
          all_items pages = pre ++ JDict d :: post →
          entity_id_of resource d ≠ "" →
          (∀ d', JDict d' ∈ pre → entity_id_of resource d' ≠ entity_id_of resource d) →
          entity_id_of resource d ∉ E →
          _validate_record d resource = [] →
          record_for d ∈ written))
  ∧ (∀ (staged : gset string) (l : locals) (w0 : world) (d : gmap string json),
       entity_id_of resource d ≠ "" →
       entity_id_of resource d ∈ processed_ids l →
       process_item self resource model_class staged false limit l w0 (JDict d)
       = Next l w0)
  ∧ (∀ (staged : gset string) (l : locals) (w0 : world) (d : gmap string json),
       entity_id_of resource d ≠ "" →
       entity_id_of resource d ∉ processed_ids l →
       entity_id_of resource d ∈ staged →
       process_item self resource model_class staged false limit l w0 (JDict d)
       = Next (Locals (records_processed l) (buffer l) (validation_errors l)
                 (processed_ids l ∪ {[entity_id_of resource d]}) (test_records l)
                 (bump_already (st l))) w0).
Proof.
  intros Hp Hdr Hrun E.
  destruct (completed_run_rows fuel src src' src'' pages w w' n Hp Hdr Hrun)
    as (Hrows & Hn & Hok).
  fold E in Hrows, Hn.
  split; [|split].
  - exists (kept self resource model_class E ∅ (all_items pages)).
    split; [exact Hrows|]. split; [exact Hn|].
    split; [apply kept_NoDup|]. split.
    + intros r Hr.
      destruct (kept_position _ _ _ _ _ _ _ Hr) as (pre & item & post & Hitems & Hscr).
      destruct (screen_fresh _ _ _ _ _ _ _ _ Hscr)
        as (Hrec & Hs & HE & Hne & d & -> & Hid & Hv).
      exists pre, d, post. split; [exact Hitems|].
      split; [by rewrite Hid|]. split; [exact HE|]. split; [exact Hv|].
      intros d' Hd' Heq. apply Hs. rewrite <- Heq.
      apply seen_all_resolved; [assumption|]. by rewrite Heq.
    + intros pre d post Hitems Hne Hfirst HE Hv.
      rewrite Hitems, kept_app. apply elem_of_app. right.
      assert (Hunseen : entity_id_of resource d
                        ∉ seen_all self resource model_class E ∅ pre).
      { intros Hin. apply seen_all_origin in Hin as [Hin|(d' & Hd' & Hid)];
          [set_solver|]. by apply (Hfirst d'). }
      change (kept self resource model_class E
                (seen_all self resource model_class E ∅ pre) (JDict d :: post))
        with (match screen self resource model_class E
                      (seen_all self resource model_class E ∅ pre) (JDict d) with
              | Fresh _ r =>
                  r :: kept self resource model_class E
                         (seen_after self resource model_class E
                            (seen_all self resource model_class E ∅ pre) (JDict d)) post
              | _ => kept self resource model_class E
                       (seen_after self resource model_class E
                          (seen_all self resource model_class E ∅ pre) (JDict d)) post
              end).
      unfold screen. destruct (String.eqb_spec (entity_id_of resource d) "");
        [contradiction|].
      rewrite !bool_decide_eq_false_2 by assumption. rewrite Hv. by left.
  - intros staged l w0 d Hne Hin. unfold process_item.
    destruct (String.eqb_spec (entity_id_of resource d) ""); [contradiction|].
    by rewrite bool_decide_eq_true_2.
  - intros staged l w0 d Hne Hnew Hin. unfold process_item.
    destruct (String.eqb_spec (entity_id_of resource d) ""); [contradiction|].
    rewrite bool_decide_eq_false_2 by assumption.
    by rewrite bool_decide_eq_true_2.
Qed.

(** C9: when the scan of the staged identifiers raises,
    [extract_resource] neither raises nor scans again: it carries on with an
    empty set of existing identifiers. A valid item of the stream is then
    written even if its identifier is staged already, which leaves two
    rows of that [source_id]. *)
Theorem scan_failure_disables_dedup (fuel : nat) (src : S) (w : world)
    (ty msg : string) (staged : nat) :
  next_outcome (sess w) = DbFail ty msg staged →
  load_existing false model_class w = (∅, scanned model_class w)
  ∧ extract_resource self paginate resource last_modified_start last_modified_end
      false limit fuel src w
    = finish (page_loop self resource model_class ∅ false limit
                (paginate endpoint last_modified_start last_modified_end)
                fuel src locals_init (scanned model_class w))
  ∧ (∀ (d : gmap string json) (src' : S),
       entity_id_of resource d ≠ "" →
       _validate_record d resource = [] →
       drains (paginate endpoint last_modified_start last_modified_end) src
         [JList [JDict d]] src' →
       (1 < fuel)%nat →
       pending (sess w) = [] →
       tail (script (sess w)) = [] →
       ∃ w',
         extract_resource self paginate resource last_modified_start last_modified_end
           false limit fuel src w = Some (Ok (Count 1) w' src')
         ∧ rows (sess w') model_class = rows (sess w) model_class ++ [record_for d]
         ∧ (entity_id_of resource d ∈ staged_ids w model_class →
            ¬ NoDup (source_id <$> rows (sess w') model_class))).
Proof.
  intros Hfail.
  assert (Hload : load_existing false model_class w = (∅, scanned model_class w)).
  { rewrite (load_existing_cases model_class), Hfail. reflexivity. }
  split; [exact Hload|]. split.
  { rewrite (extract_resource_unfold self paginate resource model_class endpoint
               registered_model registered_endpoint).
    by rewrite Hload. }
  intros d src' Hne Hv Hdr Hfuel Hp Htail.
  assert (HE : (load_existing false model_class w).1 = ∅) by (by rewrite Hload).
  assert (Hkept : kept self resource model_class ∅ ∅ (all_items [JList [JDict d]])
                  = [record_for d]).
  { change (all_items [JList [JDict d]]) with (JDict <$> [d]).
    rewrite (kept_all_good self resource model_class ∅ [d] ∅);
      [reflexivity| |apply NoDup_singleton].
    apply Forall_singleton. repeat split; auto; set_solver. }
  assert (Hok : Forall page_ok [JList [JDict d]]).
  { apply Forall_singleton. unfold page_ok. simpl. by apply Forall_singleton. }
  assert (Hhealthy : script (sess (scanned model_class w)) = []) by exact Htail.
  assert (Hsingle : ∀ w0, feed_all self ([], w0) [record_for d]
            = if batch_size self <=? 1
              then match _flush_buffer [record_for d] w0 with
                   | (inr _, w1) => inr ([], w1)
                   | (inl e, w1) => inl (e, w1)
                   end
              else inr ([record_for d], w0)).
  { intros w0. unfold feed_all, feed. simpl. change (Z.of_nat 1) with 1.
    destruct (batch_size self <=? 1); [|reflexivity].
    by destruct (_flush_buffer _ w0) as [[e|[]] w1]. }
  assert (Hrun : ∃ w', extract_resource self paginate resource last_modified_start
                         last_modified_end false limit fuel src w
                       = Some (Ok (Count 1) w' src')).
  { destruct (flush_healthy [record_for d] (scanned model_class w) Hhealthy)
      as (wA & HflA & HsA & _).
    destruct (Z.leb_spec (batch_size self) 1) as [Hfull|Hroom].
    - exists wA.
      rewrite (run_of_pages self paginate resource model_class endpoint
                 registered_model registered_endpoint _ _ limit fuel src src'
                 [JList [JDict d]] w [] wA Hdr Hfuel Hok).
      + by rewrite HE, Hkept.
      + rewrite HE, Hkept, Hsingle.
        destruct (Z.leb_spec (batch_size self) 1); [|lia]. by rewrite HflA.
    - exists wA.
      rewrite (run_of_pages self paginate resource model_class endpoint
                 registered_model registered_endpoint _ _ limit fuel src src'
                 [JList [JDict d]] w [record_for d] (scanned model_class w)
                 Hdr Hfuel Hok).
      + rewrite HE, Hkept, HflA. reflexivity.
      + rewrite HE, Hkept, Hsingle.
        destruct (Z.leb_spec (batch_size self) 1); [lia|]. reflexivity. }
  destruct Hrun as (w' & Hrun). exists w'. split; [exact Hrun|].
  destruct (completed_run_rows fuel src src' src' [JList [JDict d]] w w' 1 Hp Hdr Hrun)
    as (Hrows & _).
  rewrite HE, Hkept in Hrows. split; [exact Hrows|].
  intros Hin Hnd. rewrite Hrows, fmap_app in Hnd.
  apply NoDup_app in Hnd as (_ & Hdisj & _).
  unfold staged_ids in Hin. apply elem_of_list_to_set in Hin.
  apply (Hdisj _ Hin). simpl. by left.
Qed.

End Dedup.

Section Abort.
Context `{Builtins}.
Variable self : extractor.
Variable resource model_class : string.
Variable E : gset string.
Variable test_mode : bool.
Variable limit : option Z.
Variable w0 : world.

Lemma no_rollback_since_refl : no_rollback_since w0 w0.
Proof. exists []. rewrite app_nil_r. split; [reflexivity|]. apply not_elem_of_nil. Qed.

Lemma flush_from_clean (buf : list raw_record) (w : world) :
  no_rollback_since w0 w →
  match _flush_buffer buf w with
  | (inr _, w') => no_rollback_since w0 w'
  | (inl e, w') => aborted_by_flush w0 w' e
  end.
Proof.
  intros (cs & Hcs & Hno). pose proof (flush_buffer_cases buf w) as Hc.
  destruct (_flush_buffer buf w) as [[e|[]] w'].
  - destruct Hc as (_ & _ & (cs' & Hcalls & Hcs') & (ty & msg & ->) & _).
    exists (cs ++ BulkSave buf :: cs'), ty, msg.
    split; [by rewrite Hcalls, Hcs, <- !app_assoc|]. split; [|reflexivity].
    intros [Hin|Hin]%elem_of_app; [contradiction|].
    apply elem_of_cons in Hin as [Hin|Hin]; [discriminate|].
    destruct Hcs' as [->| ->]; [inversion Hin|].
    apply list_elem_of_singleton in Hin. discriminate.
  - destruct Hc as (_ & _ & Hcalls).
    exists (cs ++ [BulkSave buf; Commit]).
    split; [by rewrite Hcalls, Hcs, <- !app_assoc|].
    intros [Hin|Hin]%elem_of_app; [contradiction|].
    apply elem_of_cons in Hin as [Hin|Hin]; [discriminate|].
    apply list_elem_of_singleton in Hin. discriminate.
Qed.

Lemma keep_item_settled (item : json) (id : string) (l : locals) (w : world) :
  no_rollback_since w0 w →
  settled w0 (keep_item self model_class test_mode limit item id l w).
Proof.
  intros Hw. unfold keep_item. destruct test_mode.
  - destruct (limit_reached _ _); exact Hw.
  - destruct (Z.leb _ _); [|exact Hw].
    pose proof (flush_from_clean (buffer l ++ [RawRecord model_class id item (batch_id self)])
                  w Hw) as Hf.
    destruct (_flush_buffer _ w) as [[e|[]] w']; simpl; auto.
Qed.

Lemma process_item_settled (item : json) (l : locals) (w : world) :
  no_rollback_since w0 w →
  settled w0 (process_item self resource model_class E test_mode limit l w item).
Proof.
  intros Hw. unfold process_item. destruct item as [| | | | |d]; try (left; exact Hw).
  destruct (String.eqb _ ""); [exact Hw|].
  destruct (bool_decide (_ ∈ processed_ids l)); [exact Hw|].
  destruct (bool_decide (_ ∈ E)); [exact Hw|].
  destruct (_validate_record d resource); [|exact Hw].
  by apply keep_item_settled.
Qed.

Lemma process_items_settled (items : list json) (l : locals) (w : world) :
  no_rollback_since w0 w →
  settled w0 (process_items self resource model_class E test_mode limit items l w).
Proof.
  revert l w. induction items as [|item rest IH]; intros l w Hw; simpl; [exact Hw|].
  pose proof (process_item_settled item l w Hw) as Hstep.
  destruct (process_item _ _ _ _ _ _ l w item) as [l1 w1|v w1|e w1]; auto.
Qed.

Lemma process_page_settled (page : json) (l : locals) (w : world) :
  no_rollback_since w0 w →
  settled w0 (process_page self resource model_class E test_mode limit page l w).
Proof.
  intros Hw. unfold process_page.
  destruct (py_len _); [left; exact Hw|].
  destruct (py_iter _); [left; exact Hw|].
  by apply process_items_settled.
Qed.

Lemma page_loop_settled {S : Type} (next_page : S → gen_step S) (fuel : nat)
    (src : S) (l : locals) (w : world) :
  no_rollback_since w0 w →
  match page_loop self resource model_class E test_mode limit next_page fuel src l w with
  | Some (Finished _ w' _) | Some (Returned _ w' _) => no_rollback_since w0 w'
  | Some (Raised e w' _) => no_rollback_since w0 w' ∨ aborted_by_flush w0 w' e
  | None => True
  end.
Proof.
  revert src l w. induction fuel as [|fuel IH]; intros src l w Hw; simpl; [exact I|].
  destruct (next_page src) as [page src'|src'|e src']; [|exact Hw|left; exact Hw].
  pose proof (process_page_settled page l w Hw) as Hpage.
  destruct (process_page _ _ _ _ _ _ page l w) as [l1 w1|v w1|e w1]; auto.
  destruct (test_mode && limit_reached limit (test_records l1)); [exact Hpage|].
  by apply IH.
Qed.

End Abort.


Section FlushAtomicity.
Context `{Builtins} {S : Type}.


End FlushAtomicity.

(* ===================================================================== *)
(** * The properties at sample inputs *)
(* ===================================================================== *)

Section Decimal.

Lemma to_int_proper (z : Z) :
  Z.to_int z ≠ Decimal.Pos Decimal.Nil ∧ Z.to_int z ≠ Decimal.Neg Decimal.Nil.
Proof.
  assert (Hnorm : Z.to_int z = Decimal.norm (Z.to_int z))
    by (by rewrite <- DecimalZ.to_of, DecimalZ.of_to).
  split; intros Hnil; rewrite Hnil in Hnorm; discriminate.
Qed.

Lemma str_of_Z_read (z : Z) :
  NilZero.int_of_string (str_of_Z z) = Some (Z.to_int z).
Proof. destruct (to_int_proper z). by apply NilZero.isi. Qed.

Lemma str_of_Z_inj (a b : Z) : str_of_Z a = str_of_Z b → a = b.
Proof.
  intros Heq. apply DecimalZ.to_int_inj.
  pose proof (str_of_Z_read a) as Ha. rewrite Heq, str_of_Z_read in Ha. congruence.
Qed.

Lemma str_of_Z_nonempty (z : Z) : str_of_Z z ≠ "".
Proof.
  intros Heq. pose proof (str_of_Z_read z) as Hz. rewrite Heq in Hz.
  destruct (to_int_proper z) as [Hpos Hneg]. cbv in Hz. congruence.
Qed.

End Decimal.

Section Samples.
Import Client Sample.

#[local] Existing Instance scalars_only.

Lemma numbered_contact_id (n : nat) :
  entity_id_of "contacts" (numbered_contact n) = str_of_Z (Z.of_nat n).
Proof.
  unfold entity_id_of, numbered_contact, dict_get_default. simpl.
  by rewrite lookup_insert_eq.
Qed.

Lemma numbered_contact_valid (n : nat) :
  (0 < n)%nat → _validate_record (numbered_contact n) "contacts" = [].
Proof.
  intros Hn. unfold _validate_record.
  change (id_field_map !! "contacts") with (Some ["EntityID"; "ContactId"]).
  unfold numbered_contact, dict_get. simpl. rewrite lookup_insert_eq. simpl.
  destruct (Z.eqb_spec (Z.of_nat n) 0); [lia|]. reflexivity.
Qed.

Lemma page_items_data_page (ds : list (gmap string json)) :
  page_items (data_page ds) = inr (JDict <$> ds).
Proof.
  unfold page_items, items_of, data_page, dict_get_default.
  rewrite lookup_insert_eq. reflexivity.
Qed.

Lemma page_ok_data_page (ds : list (gmap string json)) : page_ok (data_page ds).
Proof.
  unfold page_ok. rewrite page_items_data_page.
  apply Forall_fmap, Forall_forall. intros d _. exact I.
Qed.

Lemma all_items_data_page (ds : list (gmap string json)) :
  all_items [data_page ds] = JDict <$> ds.
Proof.
  unfold all_items, items_list. simpl. rewrite page_items_data_page.
  apply app_nil_r.
Qed.

Lemma batch_flush_boundary_witness :
  let self := MkExtractor 1000 "batch-1" in
  let ds := numbered_contact <$> seq 1 1500 in
  let run := extract_resource self pages_source "contacts" None None false None 2
               [data_page ds] empty_world in
  batch_size self = 1000
  ∧ List.length ds = 1500%nat
  ∧ NoDup (entity_id_of "contacts" <$> ds)
  ∧ ∃ w', run = Some (Ok (Count 1500) w' [])
          ∧ List.length <$> bulk_saves (calls (sess w')) = [1000%nat; 500%nat].
Proof.
  intros self ds run.
  assert (Hlen : List.length ds = 1500%nat).
  { subst ds. rewrite length_fmap. apply length_seq. }
  assert (Hnd : NoDup (entity_id_of "contacts" <$> ds)).
  { subst ds. rewrite <- list_fmap_compose. apply NoDup_fmap_2; [|apply NoDup_seq].
    intros a b Hab. simpl in Hab. rewrite !numbered_contact_id in Hab.
    apply str_of_Z_inj in Hab. lia. }
  assert (Hgood : Forall (fun d => entity_id_of "contacts" d ≠ ""
                             ∧ _validate_record d "contacts" = []
                             ∧ entity_id_of "contacts" d
                               ∉ staged_ids empty_world "raw_contacts") ds).
  { subst ds. apply Forall_fmap, Forall_forall. intros n Hn. simpl.
    apply elem_of_seq in Hn. rewrite numbered_contact_id.
    split; [apply str_of_Z_nonempty|]. split; [apply numbered_contact_valid; lia|].
    apply not_elem_of_empty. }
  assert (Hdr : drains (pages_source "Contacts/LastModifiedCreated" None None)
                  [data_page ds] [data_page ds] []).
  { apply (drains_yield _ _ (data_page ds) []); [reflexivity|]. by apply drains_stop. }
  split; [reflexivity|]. split; [exact Hlen|]. split; [exact Hnd|].
  destruct (batch_flush_boundary self pages_source "contacts" "raw_contacts"
              "Contacts/LastModifiedCreated" eq_refl eq_refl None None None 2
              [data_page ds] [] [data_page ds] ds empty_world eq_refl Hdr
              ltac:(simpl; lia) ltac:(apply Forall_singleton, page_ok_data_page)
              (all_items_data_page ds) Hlen Hgood Hnd eq_refl)
    as (w' & Hrun & Hcalls & Htake & Hdrop).
  exists w'. split; [exact Hrun|].
  rewrite Hcalls. unfold bulk_saves.
  cbn [omap calls sess empty_world app list_omap fmap list_fmap].
  rewrite Htake, Hdrop. reflexivity.
Defined.
Lemma extraction_is_idempotent_witness :
  let self := MkExtractor 1000 "batch-1" in
  let pages := [data_page [contact "1"; contact "2"]] in
  let first := extract_resource self pages_source "contacts" None None false None 2
                 pages empty_world in
  first = Some (Ok (Count 2) (world_of first) [])
  ∧ extract_resource (MkExtractor 1000 "batch-2") pages_source "contacts" None None
      false None 2 pages (world_of first)
    = Some (Ok (Count 0) (scanned "raw_contacts" (world_of first)) []).
Proof.
  intros self pages first.
  assert (Hfirst : first = Some (Ok (Count 2) (world_of first) [])) by (vm_compute; reflexivity).
  split; [exact Hfirst|].
  assert (Hdr : drains (pages_source "Contacts/LastModifiedCreated" None None) pages pages []).
  { apply (drains_yield _ _ (data_page [contact "1"; contact "2"]) []); [reflexivity|].
    by apply drains_stop. }
  apply (extraction_is_idempotent pages_source "contacts" "raw_contacts"
           "Contacts/LastModifiedCreated" eq_refl eq_refl None None self
           (MkExtractor 1000 "batch-2") None None 2 2 pages [] [] pages [] pages
           empty_world (world_of first) (world_of first) 2 Hdr Hfirst Hdr).
  - simpl. lia.
  - reflexivity.
  - vm_compute. reflexivity.
Defined.

(** C2 as stated fails: two policy items resolve to the identifier "7",
    the first without a policy number, the second valid; nothing is staged;
    the run returns 0 and writes no row for "7". *)
Lemma invalid_first_occurrence_hides_the_valid_one :
  let first := policy "7" JNull (JStr "Active") in
  let second := policy "7" (JStr "PN-7") (JStr "Active") in
  let run := extract_resource (MkExtractor 1000 "batch-1") pages_source "policies"
               None None false None 2 [data_page [first; second]] empty_world in
  entity_id_of "policies" first = "7"
  ∧ entity_id_of "policies" second = "7"
  ∧ _validate_record second "policies" = []
  ∧ run = Some (Ok (Count 0) (scanned "raw_policies" empty_world) [])
  ∧ rows (sess (world_of run)) "raw_policies" = [].
Proof. repeat split; vm_compute; reflexivity. Qed.

Lemma one_record_per_identifier_witness :
  let pages := [data_page [contact "1"; contact "1"; contact "2"]] in
  let run := extract_resource (MkExtractor 1000 "batch-1") pages_source "contacts"
               None None false None 2 pages empty_world in
  pending (sess empty_world) = []
  ∧ run = Some (Ok (Count 2) (world_of run) [])
  ∧ ∃ written,
      rows (sess (world_of run)) "raw_contacts" = written
      ∧ 2%nat = List.length written
      ∧ NoDup (source_id <$> written).
Proof.
  intros pages run.
  assert (Hrun : run = Some (Ok (Count 2) (world_of run) [])) by (vm_compute; reflexivity).
  assert (Hdr : drains (pages_source "Contacts/LastModifiedCreated" None None) pages pages []).
  { apply (drains_yield _ _ (data_page [contact "1"; contact "1"; contact "2"]) []);
      [reflexivity|]. by apply drains_stop. }
  split; [reflexivity|]. split; [exact Hrun|].
  destruct (one_record_per_identifier (MkExtractor 1000 "batch-1") pages_source
              "contacts" "raw_contacts" "Contacts/LastModifiedCreated" eq_refl eq_refl
              None None None 2 pages [] [] pages empty_world (world_of run) 2
              eq_refl Hdr Hrun) as ((written & Hrows & Hn & Hnd & _) & _).
  exists written. auto.
Defined.

Lemma unauthorized_retry_reuses_token_witness :
  let c := client_of unauthorized_once in
  let c' := (get_resource_once "Contacts" ∅ c).2 in
  server c (gets c) (Request (base_url c +:+ "/Contacts") "Bearer tok" ∅) = Reply 401 None
  ∧ posts c' = 0%nat
  ∧ _access_token c' = Some "tok".
Proof.
  intros c c'. split; [reflexivity|].
  destruct (unauthorized_retry_reuses_token "Contacts" ∅ c "tok" 3600 None
              eq_refl ltac:(discriminate) eq_refl ltac:(intros n; simpl; lia) eq_refl)
    as (Hposts & _ & Htok).
  split; [exact Hposts|exact Htok].
Defined.

(** C4 as stated fails: the first request is answered with 404, and
    [get_resource] does not let the error through; it waits four seconds,
    asks again and returns the data of the second answer. *)
Lemma not_found_is_retried :
  let out := get_resource "Contacts" ∅ (client_of not_found_once) in
  server (client_of not_found_once) 0 (Request "" "" ∅) = Reply 404 None
  ∧ out.1 = inr one_contact
  ∧ gets out.2 = 2%nat
  ∧ EvSleep 4 ∈ trace out.2.
Proof.
  repeat split; try (vm_compute; reflexivity).
  vm_compute. apply list_elem_of_further, list_elem_of_here.
Qed.

Lemma every_failure_is_retried_witness :
  let c := client_of not_found_once in
  get_resource_once "Contacts" ∅ c = (inl (HTTPStatusError 404), (send (base_url c +:+ "/Contacts") ∅ c).2).
Proof.
  intros c.
  destruct (every_failure_is_retried "Contacts" ∅ c) as (_ & Hstatus & _).
  apply (Hstatus 404 None); [reflexivity|lia|lia].
Defined.




(** C8 as stated fails: on a path of the other convention a start bound
    alone sends [lastModifiedStart] and nothing for the end: no
    [lastModifiedEnd], no [endDate], and the clock is not read. *)
Lemma start_bound_alone_sends_no_end :
  let c := client_of endless in
  let built := build_params "Contacts" (Some "2024-01-01T00:00:00") None 1 100 c in
  ∃ params,
    built = (inr params, c)
    ∧ params !! "lastModifiedStart" = Some (PStr "2024-01-01T00:00:00")
    ∧ params !! "lastModifiedEnd" = None
    ∧ params !! "endDate" = None.
Proof. eexists. repeat split; vm_compute; reflexivity. Qed.

Lemma filter_dialect_by_path_witness :
  let c := client_of endless in
  contains "LastModifiedCreated" "Contacts/LastModifiedCreated" = true
  ∧ (build_params "Contacts/LastModifiedCreated" (Some "2024-01-01T00:00:00") None 1 100 c).2
    = tick c
  ∧ (∃ params,
       (build_params "Contacts/LastModifiedCreated" (Some "2024-01-01T00:00:00") None
          1 100 c).1 = inr params
       ∧ params !! "endDate" = Some (PIsoTime 0)).
Proof.
  intros c.
  destruct (filter_dialect_by_path "Contacts/LastModifiedCreated"
              (Some "2024-01-01T00:00:00") None 1 100 c) as (Hcreated & _).
  assert (Hpath : contains "LastModifiedCreated" "Contacts/LastModifiedCreated" = true)
    by reflexivity.
  specialize (Hcreated Hpath eq_refl). simpl in Hcreated.
  split; [exact Hpath|]. rewrite Hcreated. split; [reflexivity|].
  eexists. split; [reflexivity|]. apply lookup_insert_eq.
Defined.

Lemma scan_failure_disables_dedup_witness :
  let stored := RawRecord "raw_contacts" "1" (JDict (contact "1")) "batch-0" in
  let w := seeded_world "raw_contacts" [stored] [connection_lost] in
  let run := extract_resource (MkExtractor 1000 "batch-1") pages_source "contacts"
               None None false None 2 [JList [JDict (contact "1")]] w in
  next_outcome (sess w) = DbFail "OperationalError"
                            "server closed the connection unexpectedly" 0
  ∧ ∃ w', run = Some (Ok (Count 1) w' [])
          ∧ ¬ NoDup (source_id <$> rows (sess w') "raw_contacts").
Proof.
  intros stored w run. split; [reflexivity|].
  destruct (scan_failure_disables_dedup (MkExtractor 1000 "batch-1") pages_source
              "contacts" "raw_contacts" "Contacts/LastModifiedCreated" eq_refl eq_refl
              None None None 2 [JList [JDict (contact "1")]] w
              "OperationalError" "server closed the connection unexpectedly" 0 eq_refl)
    as (_ & _ & Hinsert).
  assert (Hid : entity_id_of "contacts" (contact "1") ≠ "") by (vm_compute; discriminate).
  assert (Hdr : drains (pages_source "Contacts/LastModifiedCreated" None None)
                  [JList [JDict (contact "1")]] [JList [JDict (contact "1")]] []).
  { apply (drains_yield _ _ (JList [JDict (contact "1")]) []); [reflexivity|].
    by apply drains_stop. }
  destruct (Hinsert (contact "1") [] Hid eq_refl Hdr ltac:(lia) eq_refl eq_refl)
    as (w' & Hrun & _ & Hdup).
  exists w'. split; [exact Hrun|]. apply Hdup.
  apply elem_of_list_to_set. vm_compute. apply list_elem_of_here.
Defined.



End Samples.

(* ===================================================================== *)
(** * Further properties of the extractor *)
(* ===================================================================== *)

Section Registration.
Context `{Builtins} {S : Type}.

Lemma unregistered_model (resource : string) :
  resource ≠ "contacts" → resource ≠ "policies" →
  RESOURCE_MODEL_MAP !! resource = None.
Proof.
  intros Hc Hp. unfold RESOURCE_MODEL_MAP.
  rewrite !lookup_insert_ne by congruence. apply lookup_empty.
Qed.

(** X1: a resource other than contacts and policies is refused with a
    [ValueError] that names it, in either mode, before the session or the
    page generator is touched. *)
Theorem unregistered_resource_is_refused (self : extractor)
    (paginate : string → option string → option string → S → gen_step S)
    (resource : string) (last_modified_start last_modified_end : option string)
    (test_mode : bool) (limit : option Z) (fuel : nat) (src : S) (w : world) :
  resource ≠ "contacts" → resource ≠ "policies" →
  extract_resource self paginate resource last_modified_start last_modified_end
    test_mode limit fuel src w
  = Some (Err (ValueError ("Unsupported resource type: " +:+ resource)) w src).
Proof.
  intros Hc Hp. unfold extract_resource.
  by rewrite (unregistered_model resource Hc Hp).
Qed.

(** X2: of the twenty-five resources for which the DAG creates an extract
    task, contacts and policies are the only ones the extractor knows; for
    each of the other twenty-three a call of [extract_resource] with the
    arguments the task function passes, a start bound and no end bound, is
    refused with the [ValueError], whatever the page generator and the
    session. *)
Theorem dag_resources_mostly_refused (self : extractor)
    (paginate : string → option string → option string → S → gen_step S)
    (last_modified_start : option string) (fuel : nat) (src : S) (w : world) :
  List.length Dag.resources = 25%nat
  ∧ filter (fun r => is_Some (RESOURCE_MODEL_MAP !! r)) Dag.resources
    = ["contacts"; "policies"]
  ∧ Forall (fun r =>
              is_Some (RESOURCE_MODEL_MAP !! r)
              ∨ extract_resource self paginate r last_modified_start None false None
                  fuel src w
                = Some (Err (ValueError ("Unsupported resource type: " +:+ r)) w src))
      Dag.resources.
Proof.
  split; [reflexivity|]. split; [reflexivity|].
  apply Forall_forall. intros r Hr.
  destruct (decide (r = "contacts")) as [->|Hc]; [left; by eexists|].
  destruct (decide (r = "policies")) as [->|Hp]; [left; by eexists|].
  right. unfold extract_resource. by rewrite (unregistered_model r Hc Hp).
Qed.

End Registration.

Section Validation.

Lemma id_fields_other (resource : string) :
  resource ≠ "contacts" → resource ≠ "policies" → id_field_map !! resource = None.
Proof.
  intros Hc Hp. unfold id_field_map.
  rewrite !lookup_insert_ne by congruence. apply lookup_empty.
Qed.

(** X3: when a record passes [_validate_record]. A contact needs a truthy
    EntityID or ContactId; a policy needs a truthy EntityID or PolicyId and
    a truthy PolicyNumber and Status; a record of any other resource needs
    a truthy EntityID. There are never more than three messages. *)
Theorem validation_verdict (record : gmap string json) (resource : string) :
  (_validate_record record "contacts" = []
   ↔ truthy (dict_get record "EntityID") = true
     ∨ truthy (dict_get record "ContactId") = true)
  ∧ (_validate_record record "policies" = []
     ↔ (truthy (dict_get record "EntityID") = true
        ∨ truthy (dict_get record "PolicyId") = true)
       ∧ truthy (dict_get record "PolicyNumber") = true
       ∧ truthy (dict_get record "Status") = true)
  ∧ (resource ≠ "contacts" → resource ≠ "policies" →
     (_validate_record record resource = []
      ↔ truthy (dict_get record "EntityID") = true))
  ∧ (List.length (_validate_record record resource) ≤ 3)%nat.
Proof.
  split; [|split; [|split]].
  - unfold _validate_record.
    change (id_field_map !! "contacts") with (Some ["EntityID"; "ContactId"]).
    simpl. destruct (truthy (dict_get record "EntityID")),
      (truthy (dict_get record "ContactId")); simpl; split; auto;
      intros; try discriminate; intuition discriminate.
  - unfold _validate_record.
    change (id_field_map !! "policies") with (Some ["EntityID"; "PolicyId"]).
    simpl. destruct (truthy (dict_get record "EntityID")),
      (truthy (dict_get record "PolicyId")),
      (truthy (dict_get record "PolicyNumber")),
      (truthy (dict_get record "Status")); simpl; split; auto;
      intros; try discriminate; intuition discriminate.
  - intros Hc Hp. unfold _validate_record. rewrite (id_fields_other resource Hc Hp).
    destruct (String.eqb_spec resource "policies"); [contradiction|]. simpl.
    destruct (truthy (dict_get record "EntityID")); simpl; split; auto; discriminate.
  - unfold _validate_record.
    destruct (existsb _ _), (String.eqb resource "policies"),
      (truthy (dict_get record "PolicyNumber")), (truthy (dict_get record "Status"));
      simpl; lia.
Qed.

End Validation.

Section Uniqueness.
Context `{Builtins} {S : Type}.
Variable self : extractor.
Variable paginate : string → option string → option string → S → gen_step S.
Variable resource model_class endpoint : string.
Hypothesis registered_model : RESOURCE_MODEL_MAP !! resource = Some model_class.
Hypothesis registered_endpoint : RESOURCE_ENDPOINT_MAP !! resource = Some endpoint.
Variable last_modified_start last_modified_end : option string.
Variable limit : option Z.

(** X4: a run that returns keeps the staged identifiers unique. If no two
    rows of the table share a [source_id] and the scan succeeds, then no
    two rows share one after the run. *)
Theorem staged_identifiers_stay_unique (fuel : nat) (src src' src'' : S)
    (pages : list json) (w w' : world) (n : nat) :
  pending (sess w) = [] →
  next_outcome (sess w) = DbOk →
  NoDup (source_id <$> rows (sess w) model_class) →
  drains (paginate endpoint last_modified_start last_modified_end) src pages src' →
  extract_resource self paginate resource last_modified_start last_modified_end
    false limit fuel src w = Some (Ok (Count n) w' src'') →
  NoDup (source_id <$> rows (sess w') model_class).
Proof.
  intros Hp Hscan Hnd Hdr Hrun.
  destruct (completed_run_rows self paginate resource model_class endpoint
              registered_model registered_endpoint _ _ limit fuel src src' src''
              pages w w' n Hp Hdr Hrun) as (Hrows & _ & _).
  rewrite (load_existing_cases model_class), Hscan in Hrows. simpl in Hrows.
  rewrite Hrows, fmap_app. apply NoDup_app. split; [exact Hnd|]. split.
  - intros id Hold (r & -> & Hr)%list_elem_of_fmap.
    destruct (kept_elem _ _ _ _ _ _ _ Hr) as (_ & HE & _).
    apply HE. unfold staged_ids. by apply elem_of_list_to_set.
  - apply kept_NoDup.
Qed.

End Uniqueness.

Section PresentIdentifier.
Context `{Builtins}.


End PresentIdentifier.

Section BatchSizes.
Import More.
Context `{Builtins}.
Variable self : extractor.
Variable resource model_class : string.
Variable E : gset string.
Variable test_mode : bool.
Variable limit : option Z.
Variable w0 : world.
Hypothesis positive_batch : 1 ≤ batch_size self.

Lemma batches_only_refl : batches_only self w0 w0.
Proof. exists []. rewrite app_nil_r. split; [reflexivity|]. constructor. Qed.

Lemma flush_is_a_batch (buf : list raw_record) (w : world) :
  batches_only self w0 w →
  (1 ≤ List.length buf)%nat → Z.of_nat (List.length buf) ≤ batch_size self →
  batches_only self w0 (_flush_buffer buf w).2.
Proof.
  intros (cs & Hcs & Hall) Hone Hmax.
  pose proof (flush_buffer_cases buf w) as Hc.
  destruct (_flush_buffer buf w) as [[e|[]] w']; simpl.
  - destruct Hc as (_ & _ & (cs' & Hcalls & Hcs') & _).
    exists (cs ++ BulkSave buf :: cs' ++ [Rollback]).
    split; [by rewrite Hcalls, Hcs, <- !app_assoc|].
    unfold bulk_saves. rewrite omap_app. apply Forall_app. split; [exact Hall|].
    destruct Hcs' as [-> | ->]; simpl; by repeat constructor.
  - destruct Hc as (_ & _ & Hcalls).
    exists (cs ++ [BulkSave buf; Commit]).
    split; [by rewrite Hcalls, Hcs, <- !app_assoc|].
    unfold bulk_saves. rewrite omap_app. apply Forall_app. split; [exact Hall|].
    simpl. by repeat constructor.
Qed.

Lemma keep_item_tidy (item : json) (id : string) (l : locals) (w : world) :
  Z.of_nat (List.length (buffer l)) < batch_size self → batches_only self w0 w →
  tidy self w0 (keep_item self model_class test_mode limit item id l w).
Proof.
  intros Hlen Hw. unfold keep_item. destruct test_mode.
  - destruct (limit_reached _ _); simpl; auto.
  - set (buf := buffer l ++ [RawRecord model_class id item (batch_id self)]).
    assert (Hbuf : List.length buf = Datatypes.S (List.length (buffer l))).
    { subst buf. rewrite length_app. simpl. lia. }
    destruct (Z.leb_spec (batch_size self) (Z.of_nat (List.length buf))) as [Hfull|Hroom].
    + pose proof (flush_is_a_batch buf w Hw ltac:(lia) ltac:(lia)) as Hfl.
      destruct (_flush_buffer buf w) as [[e|[]] w']; simpl in *; auto.
      split; [lia|exact Hfl].
    + simpl. auto.
Qed.

Lemma process_item_tidy (item : json) (l : locals) (w : world) :
  Z.of_nat (List.length (buffer l)) < batch_size self → batches_only self w0 w →
  tidy self w0 (process_item self resource model_class E test_mode limit l w item).
Proof.
  intros Hlen Hw. unfold process_item. destruct item as [| | | | |d]; simpl; auto.
  destruct (String.eqb _ ""); [simpl; auto|].
  destruct (bool_decide (_ ∈ processed_ids l)); [simpl; auto|].
  destruct (bool_decide (_ ∈ E)); [simpl; auto|].
  destruct (_validate_record d resource); [|simpl; auto].
  by apply keep_item_tidy.
Qed.

Lemma process_items_tidy (items : list json) (l : locals) (w : world) :
  Z.of_nat (List.length (buffer l)) < batch_size self → batches_only self w0 w →
  tidy self w0 (process_items self resource model_class E test_mode limit items l w).
Proof.
  revert l w. induction items as [|item rest IH]; intros l w Hlen Hw; simpl; [auto|].
  pose proof (process_item_tidy item l w Hlen Hw) as Hstep.
  destruct (process_item _ _ _ _ _ _ l w item) as [l1 w1|v w1|e w1]; auto.
  destruct Hstep. by apply IH.
Qed.

Lemma process_page_tidy (page : json) (l : locals) (w : world) :
  Z.of_nat (List.length (buffer l)) < batch_size self → batches_only self w0 w →
  tidy self w0 (process_page self resource model_class E test_mode limit page l w).
Proof.
  intros Hlen Hw. unfold process_page.
  destruct (py_len _); [exact Hw|].
  destruct (py_iter _); [exact Hw|].
  by apply process_items_tidy.
Qed.

Lemma page_loop_tidy {S : Type} (next_page : S → gen_step S) (fuel : nat)
    (src : S) (l : locals) (w : world) :
  Z.of_nat (List.length (buffer l)) < batch_size self → batches_only self w0 w →
  match page_loop self resource model_class E test_mode limit next_page fuel src l w with
  | Some (Finished l' w' _) =>
      Z.of_nat (List.length (buffer l')) < batch_size self ∧ batches_only self w0 w'
  | Some (Returned _ w' _) | Some (Raised _ w' _) => batches_only self w0 w'
  | None => True
  end.
Proof.
  revert src l w. induction fuel as [|fuel IH]; intros src l w Hlen Hw; simpl; [exact I|].
  destruct (next_page src) as [page src'|src'|e src']; auto.
  pose proof (process_page_tidy page l w Hlen Hw) as Hpage.
  destruct (process_page _ _ _ _ _ _ page l w) as [l1 w1|v w1|e w1]; auto.
  destruct (test_mode && limit_reached limit (test_records l1)); [exact Hpage|].
  destruct Hpage. by apply IH.
Qed.

End BatchSizes.

Section FlushSizes.
Import More.
Context `{Builtins} {S : Type}.

(** X6: with a batch size of at least one, every bulk insert that a call
    of [extract_resource] makes, the one at the end of the stream
    included, carries at least one record and at most a batch of them,
    however the call ends. *)
Theorem every_flush_is_a_batch (self : extractor)
    (paginate : string → option string → option string → S → gen_step S)
    (resource : string) (last_modified_start last_modified_end : option string)
    (test_mode : bool) (limit : option Z) (fuel : nat) (src : S) (w : world) :
  1 ≤ batch_size self →
  match extract_resource self paginate resource last_modified_start
          last_modified_end test_mode limit fuel src w with
  | Some (Ok _ w' _) | Some (Err _ w' _) => batches_only self w w'
  | None => True
  end.
Proof.
  intros Hb. unfold extract_resource.
  destruct (RESOURCE_MODEL_MAP !! resource) as [model_class|];
    [|apply batches_only_refl].
  destruct (RESOURCE_ENDPOINT_MAP !! resource) as [endpoint|];
    [|apply batches_only_refl].
  assert (Hscan : batches_only self w (load_existing test_mode model_class w).2).
  { unfold load_existing. destruct test_mode; [apply batches_only_refl|].
    assert (Hone : batches_only self w (scanned model_class w)).
    { exists [Execute model_class]. split; [reflexivity|]. constructor. }
    unfold select_source_ids. by destruct (next_outcome (sess w)). }
  destruct (load_existing test_mode model_class w) as [E w1]. simpl in Hscan.
  pose proof (page_loop_tidy self resource model_class E test_mode limit w Hb
                (paginate endpoint last_modified_start last_modified_end)
                fuel src locals_init w1 ltac:(simpl; lia) Hscan) as Hloop.
  destruct (page_loop _ _ _ _ _ _ _ _ _ _ _) as [[l w2 s2|v w2 s2|e w2 s2]|]; auto.
  destruct Hloop as (Hlen & Hw2).
  destruct test_mode; [exact Hw2|].
  destruct (buffer l) as [|r0 buf0] eqn:Hbuf; [exact Hw2|].
  pose proof (flush_is_a_batch self w (r0 :: buf0) w2 Hw2 ltac:(simpl; lia) ltac:(lia))
    as Hfl.
  destruct (_flush_buffer (r0 :: buf0) w2) as [[e|[]] w3]; exact Hfl.
Qed.

End FlushSizes.

Section Chunks.
Import More.

Lemma pieces_any_fuel {A : Type} (size : nat) (k k' : nat) (l : list A) :
  (1 ≤ size)%nat → (List.length l ≤ k)%nat → (List.length l ≤ k')%nat →
  pieces k size l = pieces k' size l.
Proof.
  intros Hsize. revert k' l. induction k as [|k IH]; intros k' l Hk Hk'.
  { destruct l; [by destruct k'|simpl in Hk; lia]. }
  destruct l as [|x l]; [by destruct k'|].
  destruct k' as [|k']; [simpl in Hk'; lia|].
  cbn [List.length pieces] in *. f_equal.
  apply IH; rewrite length_drop; cbn [List.length]; lia.
Qed.

Lemma chunks_short {A : Type} (size : nat) (l : list A) :
  l ≠ [] → (List.length l ≤ size)%nat → chunks size l = [l].
Proof.
  intros Hne Hlen. unfold chunks. destruct l as [|x l]; [contradiction|].
  cbn [List.length pieces]. rewrite take_ge by exact Hlen.
  rewrite drop_ge by exact Hlen. by destruct (List.length l).
Qed.

Lemma chunks_long {A : Type} (size : nat) (l : list A) :
  (1 ≤ size)%nat → (size ≤ List.length l)%nat →
  chunks size l = take size l :: chunks size (drop size l).
Proof.
  intros Hsize Hlen. unfold chunks. destruct l as [|x l]; [simpl in Hlen; lia|].
  cbn [List.length pieces]. f_equal. apply pieces_any_fuel; [assumption| |lia].
  rewrite length_drop. cbn [List.length] in *. lia.
Qed.

(** The number of pieces is the length divided by the size, rounded up. *)
Lemma length_chunks {A : Type} (size : nat) (l : list A) :
  (1 ≤ size)%nat →
  List.length (chunks size l) = ((List.length l + size - 1) / size)%nat.
Proof.
  intros Hsize. remember (List.length l) as n eqn:Hn. revert l Hn.
  induction n as [n IH] using lt_wf_ind. intros l Hn.
  destruct (decide (l = [])) as [->|Hne].
  { simpl in Hn. subst n. simpl. symmetry. apply Nat.div_small. lia. }
  destruct (le_lt_dec size n) as [Hlong|Hshort].
  - rewrite chunks_long by lia. simpl.
    rewrite (IH (n - size)%nat) with (l := drop size l).
    + replace (n + size - 1)%nat with ((n - size + size - 1) + 1 * size)%nat by lia.
      rewrite Nat.div_add by lia. lia.
    + destruct l; [contradiction|]. simpl in Hn. lia.
    + rewrite length_drop. lia.
  - rewrite chunks_short by (auto; lia). simpl.
    assert (Hpos : (1 ≤ n)%nat) by (destruct l; [contradiction|simpl in Hn; lia]).
    apply (Nat.div_unique _ _ 1%nat (n - 1)%nat); lia.
Qed.

(** The loop over a generator that raises after [pages] is the loop over
    [pages], ended by the exception. *)
Lemma page_loop_breaks `{Builtins} {S : Type} (self : extractor)
    (resource model_class : string) (E : gset string) (limit : option Z)
    (next_page : S → gen_step S) (src src' : S) (pages : list json) (e : exn) :
  breaks next_page src pages e src' →
  ∀ (fuel : nat) (l : locals) (w : world),
    (List.length pages < fuel)%nat →
    match page_loop self resource model_class E false limit next_page fuel src l w,
          pages_fold self resource model_class E limit pages l w with
    | Some (Raised e1 w1 s1), Next l2 w2 => e1 = e ∧ w1 = w2 ∧ s1 = src'
    | Some (Raised e1 w1 _), Throw e2 w2 => e1 = e2 ∧ w1 = w2
    | _, _ => False
    end.
Proof.
  induction 1 as [src e src' Hraise|src page src1 pages e src' Hyield Hbr IH];
    intros fuel l w Hfuel; (destruct fuel as [|fuel]; [simpl in Hfuel; lia|]); simpl.
  - rewrite Hraise. auto.
  - rewrite Hyield.
    pose proof (process_page_feed self resource model_class E limit page l w) as Hpage.
    destruct (Extractor.process_page self resource model_class E false limit page l w)
      as [l1 w1|v w1|e1 w1]; [|contradiction|auto].
    apply IH. simpl in Hfuel. lia.
Qed.

Variable self : extractor.
Variable size : nat.
Hypothesis positive_size : (1 ≤ size)%nat.
Hypothesis batch_is_size : batch_size self = Z.of_nat size.

(** On a session with no failure to come, the records fed to an empty
    buffer are flushed in consecutive batches, the last one by the flush at
    the end of the stream. *)
Lemma feed_all_chunks (rs : list raw_record) (w : world) :
  script (sess w) = [] →
  ∃ buf w1 w2,
    feed_all self ([], w) rs = inr (buf, w1)
    ∧ buf = drop (size * (List.length rs / size)) rs
    ∧ script (sess w1) = []
    ∧ flushed buf w1 w2
    ∧ script (sess w2) = []
    ∧ bulk_saves (calls (sess w2)) = bulk_saves (calls (sess w)) ++ chunks size rs.
Proof.
  remember (List.length rs) as n eqn:Hn. revert rs w Hn.
  induction n as [n IH] using lt_wf_ind. intros rs w Hn Hs.
  destruct (decide (rs = [])) as [->|Hne].
  { exists [], w, w. simpl. rewrite app_nil_r. by rewrite drop_nil. }
  destruct (le_lt_dec size n) as [Hlong|Hshort].
  - destruct (flush_healthy (take size rs) w Hs) as (wA & HflA & HsA & HcA).
    assert (Htake : List.length (take size rs) = size) by (rewrite length_take; lia).
    assert (Hfirst : feed_all self ([], w) (take size rs) = inr ([], wA)).
    { destruct (take size rs) as [|r0 rs0] eqn:Ht using rev_ind; [simpl in Htake; lia|].
      rewrite (feed_all_fill self rs0 [] r0 w).
      - simpl. by rewrite HflA.
      - simpl. rewrite Htake. by rewrite batch_is_size. }
    destruct (IH (n - size)%nat ltac:(lia) (drop size rs) wA
                ltac:(rewrite length_drop; lia) HsA)
      as (buf & w1 & w2 & Hfa & Hbuf & Hs1 & Hfl & Hs2 & Hcalls).
    exists buf, w1, w2. split.
    { rewrite <- (take_drop size rs) at 1. by rewrite feed_all_app, Hfirst. }
    split.
    { rewrite Hbuf, drop_drop. f_equal.
      replace n with ((n - size) + 1 * size)%nat at 2 by lia.
      rewrite Nat.div_add by lia. lia. }
    split; [exact Hs1|]. split; [exact Hfl|]. split; [exact Hs2|].
    rewrite Hcalls, HcA. unfold bulk_saves at 1. rewrite omap_app. simpl.
    rewrite (chunks_long size rs) by lia. by rewrite <- app_assoc.
  - destruct (flush_healthy rs w Hs) as (wA & HflA & HsA & HcA).
    exists rs, w, wA. split.
    { change rs with ([] ++ rs) at 2. apply feed_all_below.
      simpl. rewrite batch_is_size. lia. }
    split.
    { rewrite Nat.div_small by lia. by rewrite Nat.mul_0_r. }
    split; [exact Hs|]. split.
    { unfold flushed. destruct rs; [contradiction|exact HflA]. }
    split; [exact HsA|].
    rewrite HcA. unfold bulk_saves at 1. rewrite omap_app. simpl.
    by rewrite chunks_short by (auto; lia).
Qed.

Context `{Builtins} {S : Type}.
Variable paginate : string → option string → option string → S → gen_step S.
Variable resource model_class endpoint : string.
Hypothesis registered_model : RESOURCE_MODEL_MAP !! resource = Some model_class.
Hypothesis registered_endpoint : RESOURCE_ENDPOINT_MAP !! resource = Some endpoint.
Variable last_modified_start last_modified_end : option string.
Variable limit : option Z.

(** X7: for any batch size of at least one and any stream of items that
    are identified, valid, pairwise different and not staged, on a session
    with no failure to come, [extract_resource] returns the number of items
    and its bulk inserts are the consecutive batches of the records, the
    last one possibly shorter: as many as the number of items divided by
    the batch size, rounded up. *)
Theorem flushes_are_consecutive_batches (fuel : nat) (src src' : S) (pages : list json)
    (ds : list (gmap string json)) (w : world) :
  drains (paginate endpoint last_modified_start last_modified_end) src pages src' →
  (List.length pages < fuel)%nat →
  Forall page_ok pages →
  all_items pages = JDict <$> ds →
  Forall (fun d => entity_id_of resource d ≠ ""
                   ∧ _validate_record d resource = []
                   ∧ (entity_id_of resource d ∉ staged_ids w model_class)) ds →
  NoDup (entity_id_of resource <$> ds) →
  script (sess w) = [] →
  let recs := (fun d => record_of self model_class (entity_id_of resource d) (JDict d))
                <$> ds in
  ∃ w',
    extract_resource self paginate resource last_modified_start last_modified_end
      false limit fuel src w = Some (Ok (Count (List.length ds)) w' src')
    ∧ bulk_saves (calls (sess w')) = bulk_saves (calls (sess w)) ++ chunks size recs
    ∧ List.length (chunks size recs) = ((List.length ds + size - 1) / size)%nat.
Proof.
  intros Hdr Hfuel Hok Hitems Hgood Hnd Hscript recs.
  set (E := (load_existing false model_class w).1).
  assert (Hkept : kept self resource model_class E ∅ (all_items pages) = recs).
  { rewrite Hitems. apply kept_all_good; [|assumption].
    eapply Forall_impl; [exact Hgood|]. intros d (Hne & Hv & HE).
    repeat split; auto; [|set_solver].
    subst E. rewrite (load_existing_cases model_class).
    destruct (next_outcome (sess w)); [assumption|set_solver]. }
  assert (Hs0 : script (sess (scanned model_class w)) = []) by (simpl; by rewrite Hscript).
  destruct (feed_all_chunks recs (scanned model_class w) Hs0)
    as (buf & w1 & w2 & Hfa & _ & _ & Hfl & _ & Hcalls).
  exists w2. split; [|split].
  - rewrite (run_of_pages self paginate resource model_class endpoint
               registered_model registered_endpoint _ _ limit fuel src src' pages
               w buf w1 Hdr Hfuel Hok).
    + fold E. rewrite Hkept. unfold recs at 1 2. rewrite length_fmap.
      unfold flushed in Hfl. destruct buf; [by subst w2|by rewrite Hfl].
    + fold E. by rewrite Hkept.
  - rewrite Hcalls. unfold bulk_saves at 1. simpl. rewrite omap_app. simpl.
    by rewrite app_nil_r.
  - rewrite length_chunks by assumption. unfold recs. by rewrite length_fmap.
Qed.

(** X8: when the page source raises after handing out some pages, the
    exception leaves [extract_resource] as it is and the flush at the end
    of the stream is not reached: on a session with no failure to come,
    the rows staged are the complete batches of the records kept, and the
    records buffered since the last complete batch are not written. *)
Theorem fetch_failure_drops_the_buffer (fuel : nat) (src src' : S) (pages : list json)
    (e : exn) (w : world) :
  breaks (paginate endpoint last_modified_start last_modified_end) src pages e src' →
  (List.length pages < fuel)%nat →
  Forall page_ok pages →
  pending (sess w) = [] →
  script (sess w) = [] →
  let ks := kept self resource model_class (staged_ids w model_class) ∅ (all_items pages) in
  ∃ w',
    extract_resource self paginate resource last_modified_start last_modified_end
      false limit fuel src w = Some (Err e w' src')
    ∧ rows (sess w') model_class
      = rows (sess w) model_class ++ take (size * (List.length ks / size)) ks.
Proof.
  intros Hbr Hfuel Hok Hp Hscript ks.
  assert (HE : load_existing false model_class w
               = (staged_ids w model_class, scanned model_class w)).
  { rewrite (load_existing_cases model_class). unfold next_outcome. by rewrite Hscript. }
  assert (Hs0 : script (sess (scanned model_class w)) = []) by (simpl; by rewrite Hscript).
  destruct (feed_all_chunks ks (scanned model_class w) Hs0)
    as (buf & w1 & w2 & Hfa & Hbuf & _).
  exists w1.
  assert (Hloop : page_loop self resource model_class (staged_ids w model_class) false limit
                    (paginate endpoint last_modified_start last_modified_end)
                    fuel src locals_init (scanned model_class w)
                  = Some (Raised e w1 src')).
  { pose proof (pages_fold_feed self resource model_class (staged_ids w model_class) limit
                  pages locals_init (scanned model_class w)) as Hfold.
    pose proof (page_loop_breaks self resource model_class (staged_ids w model_class) limit
                  _ src src' pages e Hbr fuel locals_init (scanned model_class w) Hfuel)
      as Hrel.
    destruct (page_loop _ _ _ _ _ _ _ _ _ _ _) as [[l1 wA s1|v1 wA s1|e1 wA s1]|];
      destruct (pages_fold _ _ _ _ _ _ _ _) as [l2 wB|v2 wB|e2 wB]; try contradiction.
    - destruct Hrel as (-> & -> & ->).
      destruct Hfold as (_ & Hfa' & _). simpl in Hfa'. fold ks in Hfa'.
      rewrite Hfa in Hfa'. by injection Hfa' as _ ->.
    - destruct Hfold as [Hbad|Hfa']; [contradiction|].
      simpl in Hfa'. fold ks in Hfa'. rewrite Hfa in Hfa'. discriminate. }
  split.
  - rewrite (extract_resource_unfold self paginate resource model_class endpoint
               registered_model registered_endpoint).
    rewrite HE. simpl. by rewrite Hloop.
  - assert (Hmodel : Forall (fun r => tablename r = model_class) ks).
    { apply Forall_forall. intros r Hr.
      by destruct (kept_elem _ _ _ _ _ _ _ Hr) as (_ & _ & _ & Ht & _). }
    pose proof (feed_all_rows self model_class ks [] (scanned model_class w) Hp Hmodel)
      as Hrows.
    rewrite Hfa in Hrows. destruct Hrows as (Hrows & _). simpl in Hrows.
    change (rows (sess (scanned model_class w)) model_class)
      with (rows (sess w) model_class) in Hrows.
    rewrite <- (take_drop (size * (List.length ks / size)) ks) in Hrows at 1.
    rewrite <- Hbuf, app_assoc in Hrows. by apply app_inv_tail in Hrows.
Qed.

End Chunks.

Section TestMode.
Import More.
Context `{Builtins}.
Variable self : extractor.
Variable resource model_class : string.
Variable E : gset string.
Variable limit : option Z.
Variable w0 : world.

#[local] Abbreviation sampling := (sampling resource limit w0).

Lemma limit_not_reached (recs : list json) (n : Z) :
  limit_reached limit recs = false → limit = Some n → 0 < n →
  Z.of_nat (List.length recs) < n.
Proof.
  unfold limit_reached. intros Hlim -> Hn.
  destruct (Z.eqb_spec n 0); [lia|]. simpl in Hlim. lia.
Qed.

Lemma keep_item_sampling (d : gmap string json) (l : locals) :
  sampling (Next l w0) →
  entity_id_of resource d ≠ "" →
  _validate_record d resource = [] →
  entity_id_of resource d ∈ processed_ids l →
  (∀ item, item ∈ test_records l → item_id resource item ≠ entity_id_of resource d) →
  sampling (keep_item self model_class true limit (JDict d) (entity_id_of resource d) l w0).
Proof.
  intros (_ & (Hgood & Hnd & Hle) & Hseen & Hlt) Hid Hv Hin Hnew.
  unfold keep_item.
  assert (Hs : ∀ (bound : ∀ n, limit = Some n → 0 < n →
                          Z.of_nat (List.length (test_records l ++ [JDict d])) ≤ n),
            sample resource limit (test_records l ++ [JDict d])).
  { intros bound. repeat split; [| |exact bound].
    - apply Forall_app. split; [assumption|]. constructor; [eauto|constructor].
    - rewrite fmap_app. apply NoDup_app. split; [assumption|]. split.
      + intros x (item & -> & Hitem)%list_elem_of_fmap Hx.
        apply list_elem_of_singleton in Hx. simpl in Hx. by apply (Hnew item).
      + simpl. apply NoDup_singleton. }
  destruct (limit_reached limit (test_records l ++ [JDict d])) eqn:Hlim.
  - split; [reflexivity|]. eexists. split; [reflexivity|]. apply Hs.
    intros n Hn Hpos. specialize (Hlt n Hn Hpos). rewrite length_app. simpl. lia.
  - simpl. split; [reflexivity|].
    assert (Hb : ∀ n, limit = Some n → 0 < n →
                   Z.of_nat (List.length (test_records l ++ [JDict d])) < n).
    { intros n Hn Hpos. by apply limit_not_reached. }
    split; [|split; [|exact Hb]].
    + apply Hs. intros n Hn Hpos. specialize (Hb n Hn Hpos). lia.
    + intros item [Hitem| ->%list_elem_of_singleton]%elem_of_app; auto.
Qed.

Lemma process_item_sampling (item : json) (l : locals) :
  sampling (Next l w0) →
  sampling (process_item self resource model_class E true limit l w0 item).
Proof.
  intros Hinv. pose proof Hinv as (_ & Hs & Hseen & Hlt).
  unfold process_item. destruct item as [| | | | |d]; try reflexivity.
  destruct (String.eqb_spec (entity_id_of resource d) "") as [|Hid].
  { split; [reflexivity|]. simpl. auto. }
  destruct (bool_decide_reflect (entity_id_of resource d ∈ processed_ids l)) as [|Hnew].
  { exact Hinv. }
  assert (Hseen' : ∀ item, item ∈ test_records l →
            item_id resource item ∈ processed_ids l ∪ {[entity_id_of resource d]}).
  { intros item Hitem. apply elem_of_union. left. auto. }
  destruct (bool_decide _).
  { split; [reflexivity|]. simpl. auto. }
  destruct (_validate_record d resource) eqn:Hv.
  2:{ split; [reflexivity|]. simpl. auto. }
  apply keep_item_sampling; auto.
  - split; [reflexivity|]. simpl. auto.
  - simpl. apply elem_of_union. right. by apply elem_of_singleton.
  - simpl. intros item Hitem Heq. apply Hnew. rewrite <- Heq. auto.
Qed.

Lemma process_items_sampling (items : list json) (l : locals) :
  sampling (Next l w0) →
  sampling (process_items self resource model_class E true limit items l w0).
Proof.
  revert l. induction items as [|item rest IH]; intros l Hinv; simpl; [exact Hinv|].
  pose proof (process_item_sampling item l Hinv) as Hitem.
  destruct (process_item _ _ _ _ _ _ l w0 item) as [l1 w1|v w1|e w1]; auto.
  pose proof Hitem as (-> & _). by apply IH.
Qed.

Lemma process_page_sampling (page : json) (l : locals) :
  sampling (Next l w0) →
  sampling (process_page self resource model_class E true limit page l w0).
Proof.
  intros Hinv. unfold process_page.
  destruct (py_len (items_of page)); [reflexivity|].
  destruct (py_iter (items_of page)); [reflexivity|].
  apply process_items_sampling. exact Hinv.
Qed.

Lemma page_loop_sampling {S : Type} (next_page : S → gen_step S) (fuel : nat)
    (src : S) (l : locals) (r : loop_end) :
  sampling (Next l w0) →
  page_loop self resource model_class E true limit next_page fuel src l w0 = Some r →
  match r with
  | Finished l' w' _ => w' = w0 ∧ sample resource limit (test_records l')
  | Returned v w' _ => w' = w0 ∧ ∃ recs, v = Records recs ∧ sample resource limit recs
  | Raised _ w' _ => w' = w0
  end.
Proof.
  revert src l. induction fuel as [|fuel IH]; intros src l Hinv; simpl; [discriminate|].
  destruct (next_page src) as [page src1|src1|e src1].
  - pose proof (process_page_sampling page l Hinv) as Hpage.
    destruct (process_page _ _ _ _ _ _ page l w0) as [l1 w1|v w1|e w1].
    + pose proof Hpage as (-> & Hs & _).
      destruct (limit_reached limit (test_records l1)); simpl.
      * intros [= <-]. auto.
      * by apply IH.
    + intros [= <-]. exact Hpage.
    + intros [= <-]. exact Hpage.
  - intros [= <-]. by destruct Hinv as (_ & Hs & _).
  - by intros [= <-].
Qed.

End TestMode.

Section TestModeRun.
Import More.
Context `{Builtins} {S : Type}.

(** X9: in test mode a run of [extract_resource] that ends leaves the
    session and the log as they were, whatever it returns or raises. What it
    returns is a list of items of the stream that are identified and valid
    and pairwise different in their identifiers, cut at a positive limit. *)
Theorem test_mode_writes_nothing (self : extractor)
    (paginate : string → option string → option string → S → gen_step S)
    (resource : string) (last_modified_start last_modified_end : option string)
    (limit : option Z) (fuel : nat) (src : S) (w : world) (r : result S) :
  extract_resource self paginate resource last_modified_start last_modified_end
    true limit fuel src w = Some r →
  match r with
  | Ok v w' _ => w' = w ∧ ∃ recs, v = Records recs ∧ sample resource limit recs
  | Err _ w' _ => w' = w
  end.
Proof.
  unfold extract_resource.
  destruct (RESOURCE_MODEL_MAP !! resource) as [model_class|]; [|by intros [= <-]].
  destruct (RESOURCE_ENDPOINT_MAP !! resource) as [endpoint|]; [|by intros [= <-]].
  simpl.
  destruct (page_loop _ _ _ _ _ _ _ _ _ _ _) as [end_|] eqn:Hloop; [|discriminate].
  apply page_loop_sampling in Hloop.
  2:{ repeat split; simpl; try constructor; try lia.
      intros item Hitem. inversion Hitem. }
  destruct end_ as [l w' s|v w' s|e w' s]; intros [= <-].
  - destruct Hloop as (-> & Hs). eauto.
  - exact Hloop.
  - exact Hloop.
Qed.

End TestModeRun.

(* ===================================================================== *)
(** * Further properties of the API client *)
(* ===================================================================== *)

Section ClientBounds.
Import Client ClientMore.

Lemma within_refl (c : client) : within 0 0 c c.
Proof. unfold within. repeat split; lia. Qed.

Lemma within_trans (g1 p1 g2 p2 : nat) (c1 c2 c3 : client) :
  within g1 p1 c1 c2 → within g2 p2 c2 c3 → within (g1 + g2) (p1 + p2) c1 c3.
Proof.
  unfold within.
  intros (Hs1 & Ht1 & Hc1 & Hb1 & Hg1 & Hg1' & Hp1 & Hp1' & Hz1)
         (Hs2 & Ht2 & Hc2 & Hb2 & Hg2 & Hg2' & Hp2 & Hp2' & Hz2).
  repeat split; try congruence; lia.
Qed.

Lemma within_weaken (g p g' p' : nat) (c c' : client) :
  within g p c c' → (g ≤ g')%nat → (p ≤ p')%nat → within g' p' c c'.
Proof.
  unfold within. intros (Hs & Ht & Hc & Hb & Hg & Hg' & Hp & Hp' & Hz) ? ?.
  repeat split; auto; lia.
Qed.

Lemma within_bind {A B : Type} (m : C A) (k : A → C B) (g1 p1 g2 p2 : nat) (c : client) :
  within g1 p1 c (m c).2 →
  (∀ a c1, m c = (inr a, c1) → within g2 p2 c1 (k a c1).2) →
  within (g1 + g2) (p1 + p2) c (bind m k c).2.
Proof.
  intros Hm Hk. unfold bind.
  destruct (m c) as [[e|a] c1] eqn:Hmc; simpl in *.
  - eapply within_weaken; [exact Hm|lia|lia].
  - eapply within_trans; [exact Hm|]. by apply Hk.
Qed.

#[local] Ltac frame :=
  unfold within, sleeps; simpl; rewrite ?omap_app; simpl; rewrite ?app_nil_r;
  repeat split; lia.

Lemma refresh_within (c : client) : within 0 1 c (_refresh_token c).2.
Proof.
  unfold _refresh_token, token_stale, _get_new_token, set_token, now,
    mbind, C_bind, bind, mret, C_ret, ret.
  destruct (negb (truthy_str (_access_token c))); simpl.
  - destruct (token_endpoint c (posts c)); frame.
  - destruct (_token_expires_at c) as [e|]; simpl.
    + destruct (Z.leb _ _); simpl; [|frame].
      destruct (token_endpoint c (posts c)); frame.
    + destruct (token_endpoint c (posts c)); frame.
Qed.

Lemma send_within (url : string) (params : gmap string pvalue) (c : client) :
  within 1 1 c (send url params c).2.
Proof.
  unfold send, _get_headers, mbind, C_bind.
  apply (within_bind _ _ 0 1 1 0).
  - pose proof (refresh_within c) as Hr.
    unfold bind, authorization.
    destruct (_refresh_token c) as [[e|[]] c1]; exact Hr.
  - intros auth c1 _. unfold bind, http_get. simpl.
    destruct (server c1 (gets c1) _); frame.
Qed.

Lemma get_resource_once_within (resource : string) (params : gmap string pvalue)
    (c : client) :
  within 2 3 c (get_resource_once resource params c).2.
Proof.
  unfold get_resource_once, mbind, C_bind.
  apply (within_bind _ _ 1 1 1 2); [apply send_within|].
  intros response c1 _. apply (within_bind _ _ 1 2 0 0).
  - destruct (fst response =? 401).
    + apply (within_bind _ _ 0 1 1 1); [apply refresh_within|].
      intros _ c2 _. apply send_within.
    + eapply within_weaken; [apply within_refl|lia|lia].
  - intros response' c2 _. unfold raise_for_status, response_json, bind.
    destruct (_ && _); simpl; [|apply within_refl].
    destruct (snd response'); apply within_refl.
Qed.

Lemma sleep_after (secs : Z) (c : client) :
  let c' := (sleep secs c).2 in
  server c' = server c ∧ token_endpoint c' = token_endpoint c ∧ clock c' = clock c
  ∧ base_url c' = base_url c ∧ gets c' = gets c ∧ posts c' = posts c
  ∧ sleeps (trace c') = sleeps (trace c) ++ [secs].
Proof. unfold sleep, sleeps. simpl. rewrite omap_app. by repeat split. Qed.

(** X10: whatever the server does, one call of [get_resource] sends at
    most six requests and asks for at most nine tokens, and it waits
    either not at all, four seconds, or twice four seconds; an exception
    leaves it only after both waits. *)
Theorem get_resource_cost (resource : string) (params : gmap string pvalue) (c : client) :
  let r := get_resource resource params c in
  ∃ waits,
    sleeps (trace r.2) = sleeps (trace c) ++ waits
    ∧ (waits = [] ∨ waits = [4] ∨ waits = [4; 4])
    ∧ (gets r.2 ≤ gets c + 2 * (1 + List.length waits))%nat
    ∧ (posts r.2 ≤ posts c + 3 * (1 + List.length waits))%nat
    ∧ (∀ e, r.1 = inl e → waits = [4; 4])
    ∧ server r.2 = server c ∧ token_endpoint r.2 = token_endpoint c
    ∧ clock r.2 = clock c ∧ base_url r.2 = base_url c.
Proof.
  intros r. subst r. rewrite get_resource_three_attempts.
  pose proof (get_resource_once_within resource params c) as H1.
  destruct (get_resource_once resource params c) as [[e1|d1] c1]; cbn [fst snd] in H1.
  2:{ exists []. unfold within in H1. cbn [fst snd List.length]. rewrite app_nil_r.
      destruct H1 as (? & ? & ? & ? & ? & ? & ? & ? & ?).
      repeat split; auto; try lia; discriminate. }
  pose proof (sleep_after 4 c1) as S1. cbv zeta in S1.
  pose proof (get_resource_once_within resource params (sleep 4 c1).2) as H2.
  destruct (get_resource_once resource params (sleep 4 c1).2) as [[e2|d2] c2]; cbn [fst snd] in H2.
  2:{ exists [4]. unfold within in H1, H2. cbn [fst snd List.length].
      destruct H1 as (? & ? & ? & ? & ? & ? & ? & ? & Hz1).
      destruct H2 as (? & ? & ? & ? & ? & ? & ? & ? & Hz2).
      destruct S1 as (? & ? & ? & ? & ? & ? & Hz).
      rewrite Hz2, Hz, Hz1.
      repeat split; auto; try congruence; lia. }
  pose proof (sleep_after 4 c2) as S2. cbv zeta in S2.
  pose proof (get_resource_once_within resource params (sleep 4 c2).2) as H3.
  exists [4; 4]. unfold within in H1, H2, H3. cbn [fst snd List.length].
  destruct H1 as (? & ? & ? & ? & ? & ? & ? & ? & Hz1).
  destruct H2 as (? & ? & ? & ? & ? & ? & ? & ? & Hz2).
  destruct H3 as (? & ? & ? & ? & ? & ? & ? & ? & Hz3).
  destruct S1 as (? & ? & ? & ? & ? & ? & Hza).
  destruct S2 as (? & ? & ? & ? & ? & ? & Hzb).
  rewrite Hz3, Hzb, Hz2, Hza, Hz1, <- app_assoc.
  repeat split; auto; try congruence; lia.
Qed.

End ClientBounds.

Section TokenRefused.
Import Client ClientMore.

Lemma attempt_without_token (resource : string) (params : gmap string pvalue)
    (c : client) (m : string) :
  truthy_str (_access_token c) = false →
  token_endpoint c (posts c) = TokenRefused m →
  get_resource_once resource params c = (inl (TokenError m), (_get_new_token c).2).
Proof.
  intros Htok Hrefused.
  unfold get_resource_once, send, _get_headers, _refresh_token, token_stale,
    mbind, C_bind, bind.
  rewrite Htok. simpl. unfold _get_new_token. rewrite Hrefused. reflexivity.
Qed.

(** X11: with no token held and a token endpoint that refuses, a call of
    [get_resource] asks for a token three times, eight seconds of waiting
    in all, sends no request to the API and ends with the error of the
    token endpoint. *)
Theorem no_request_without_token (resource : string) (params : gmap string pvalue)
    (c : client) (m : string) :
  truthy_str (_access_token c) = false →
  (∀ n, token_endpoint c n = TokenRefused m) →
  let r := get_resource resource params c in
  r.1 = inl (TokenError m)
  ∧ gets r.2 = gets c
  ∧ requests (trace r.2) = requests (trace c)
  ∧ posts r.2 = (posts c + 3)%nat
  ∧ sleeps (trace r.2) = sleeps (trace c) ++ [4; 4]
  ∧ _access_token r.2 = _access_token c.
Proof.
  intros Htok Hrefused r. subst r. rewrite get_resource_three_attempts.
  rewrite (attempt_without_token _ _ c m) by auto.
  set (c1 := (sleep 4 (_get_new_token c).2).2).
  assert (H1 : _access_token c1 = _access_token c ∧ token_endpoint c1 = token_endpoint c
               ∧ gets c1 = gets c ∧ posts c1 = Datatypes.S (posts c)
               ∧ trace c1 = trace c ++ [EvToken; EvSleep 4]).
  { subst c1. unfold _get_new_token, sleep. rewrite Hrefused. simpl.
    rewrite <- app_assoc. by repeat split. }
  destruct H1 as (Ha1 & He1 & Hg1 & Hp1 & Ht1). clearbody c1.
  rewrite (attempt_without_token _ _ c1 m) by (rewrite ?Ha1, ?He1; auto).
  set (c2 := (sleep 4 (_get_new_token c1).2).2).
  assert (H2 : _access_token c2 = _access_token c ∧ token_endpoint c2 = token_endpoint c
               ∧ gets c2 = gets c ∧ posts c2 = Datatypes.S (Datatypes.S (posts c))
               ∧ trace c2 = trace c ++ [EvToken; EvSleep 4; EvToken; EvSleep 4]).
  { subst c2. unfold _get_new_token, sleep. rewrite He1, Hrefused. simpl.
    rewrite Ht1, <- !app_assoc, Hp1. by repeat split. }
  destruct H2 as (Ha2 & He2 & Hg2 & Hp2 & Ht2). clearbody c2.
  rewrite (attempt_without_token _ _ c2 m) by (rewrite ?Ha2, ?He2; auto).
  unfold _get_new_token. rewrite He2, Hrefused. simpl.
  rewrite Ht2, Hp2, Hg2, Ha2. unfold requests, sleeps. rewrite !omap_app. simpl.
  rewrite !app_nil_r. repeat split; auto. lia.
Qed.

End TokenRefused.

Section Get.
Import Client ClientMore.

(** [get] tests the held token with [self._is_token_expired()], a method
    the class does not define: while a token is held the call raises and
    the handler of [get] catches it. *)
Lemma get_with_a_token (endpoint : string)
    (params : option (gmap string pvalue)) (c : client) :
  truthy_str (_access_token c) = true →
  get endpoint params c = (inr None, c).
Proof.
  intros Htok. unfold get, get_body, mbind, C_bind, bind. rewrite Htok. reflexivity.
Qed.

(** X12: a client that [__init__] has built holds the token granted by
    the one POST of its construction, with the expiry the grant gives or
    an hour; unless that token is the empty string, [get] on it returns
    [None] and leaves the client as it is: no request is sent. *)
Theorem get_after_construction (client_id client_secret username password
                                  base_url token_url : option string)
    (env : gmap string string)
    (server : nat → request → http_reply) (token_endpoint : nat → token_reply)
    (clock : nat → Z) (c : client) (endpoint : string)
    (params : option (gmap string pvalue)) :
  __init__ client_id client_secret username password base_url token_url env
    server token_endpoint clock = inr c →
  ∃ tok expires_in,
    token_endpoint 0%nat = TokenGranted tok expires_in
    ∧ _access_token c = Some tok
    ∧ _token_expires_at c = Some (clock 0%nat + default 3600 expires_in)
    ∧ posts c = 1%nat ∧ gets c = 0%nat
    ∧ (tok ≠ "" → get endpoint params c = (inr None, c)).
Proof.
  unfold __init__. destruct (negb _); [discriminate|].
  unfold _refresh_token, token_stale, _get_new_token, set_token, now,
    mbind, C_bind, bind, mret, C_ret, ret. simpl.
  destruct (token_endpoint 0%nat) as [tok expires_in|m] eqn:Hgrant; simpl; [|discriminate].
  intros [= <-]. exists tok, expires_in. simpl. repeat split; auto.
  intros Hne. apply get_with_a_token. simpl.
  by destruct (String.eqb_spec tok "").
Qed.


End Get.

Section PaginationEdges.
Import Client.
Context `{Builtins}.

(** X14: a page whose records sit under [items] and not under [Data]
    counts as a page with data for the generator; the loop of
    [extract_resource] reads [Data] only and takes nothing from it: no record is buffered, counted or collected, and nothing is
    written. *)
Theorem items_pages_are_fetched_but_not_staged (d : gmap string json)
    (x : json) (xs : list json)
    (self : extractor) (resource model_class : string) (E : gset string)
    (test_mode : bool) (limit : option Z) (l : locals) (w : world) :
  d !! "Data" = None →
  d !! "items" = Some (JList (x :: xs)) →
  has_data (JDict d) = inr true
  ∧ process_page self resource model_class E test_mode limit (JDict d) l w = Next l w.
Proof.
  intros Hdata Hitems. split.
  - unfold has_data, nonempty_under, dict_get, dict_get_default.
    rewrite Hdata, Hitems. reflexivity.
  - unfold process_page, items_of, dict_get_default. rewrite Hdata. simpl.
    unfold bump_total. rewrite Nat.add_0_r. by destruct l as [? ? ? ? ? []].
Qed.


End PaginationEdges.

(* ===================================================================== *)
(** * Properties of the policy-dependent extraction *)
(* ===================================================================== *)

Section DependentResource.
Import Dependent.
Context `{Builtins}.
Variable self : extractor.
Variable resource model_class policy_id : string.
Variable E : gset string.

Section Plain.
Hypothesis not_policies : resource ≠ "policies".
Hypothesis not_quotes : resource ≠ "quotes".
Variable limit : option Z.

Lemma process_item_agrees (l : locals) (w : world) (item : json) :
  process_item self resource model_class policy_id E l w item
  = Extractor.process_item self resource model_class E false limit l w item.
Proof.
  unfold process_item, Extractor.process_item, resolve, entity_id_of, skipped.
  destruct item as [| | | | |d]; try reflexivity.
  destruct (String.eqb_spec resource "quotes"); [contradiction|].
  destruct (String.eqb_spec resource "policies"); [contradiction|]. simpl.
  reflexivity.
Qed.

Lemma process_items_agrees (items : list json) (l : locals) (w : world) :
  process_items self resource model_class policy_id E items l w
  = Extractor.process_items self resource model_class E false limit items l w.
Proof.
  revert l w. induction items as [|item rest IH]; intros l w; simpl; [reflexivity|].
  rewrite process_item_agrees.
  destruct (Extractor.process_item _ _ _ _ _ _ l w item); auto.
Qed.

Lemma process_page_agrees (page : json) (l : locals) (w : world) :
  process_page self resource model_class policy_id E page l w
  = Extractor.process_page self resource model_class E false limit page l w.
Proof.
  unfold process_page, Extractor.process_page.
  destruct (py_len _); [reflexivity|]. destruct (py_iter _); [reflexivity|].
  apply process_items_agrees.
Qed.

Lemma page_loop_agrees {S : Type} (next_page : S → gen_step S) (fuel : nat)
    (src : S) (l : locals) (w : world) (naps : nat) :
  (page_loop self resource model_class policy_id E next_page fuel src l w naps).1
  = Extractor.page_loop self resource model_class E false limit next_page fuel src l w.
Proof.
  revert src l w naps. induction fuel as [|fuel IH]; intros src l w naps; simpl;
    [reflexivity|].
  destruct (next_page src) as [page src1|src1|e src1]; try reflexivity.
  rewrite process_page_agrees.
  destruct (Extractor.process_page _ _ _ _ _ _ page l w); try reflexivity.
  apply IH.
Qed.

End Plain.

Lemma process_items_goes_on (items : list json) (l : locals) (w : world)
    (v : retval) (w' : world) :
  process_items self resource model_class policy_id E items l w ≠ Return v w'.
Proof.
  revert l w. induction items as [|item rest IH]; intros l w; simpl; [discriminate|].
  destruct (process_item _ _ _ _ _ l w item) as [l1 w1|v1 w1|e1 w1] eqn:Hitem;
    [apply IH| |discriminate].
  exfalso. revert Hitem. unfold process_item, keep_item.
  destruct item as [| | | | |d]; try discriminate.
  destruct (resolve _ _ d) as [[id d']|]; [|discriminate].
  destruct (String.eqb id ""); [discriminate|].
  destruct (bool_decide (id ∈ processed_ids l)); [discriminate|].
  destruct (bool_decide (id ∈ E)); [discriminate|].
  destruct (_validate_record d' resource); [|discriminate]. simpl.
  destruct (Z.leb _ _); [|discriminate].
  destruct (_flush_buffer _ w) as [[e|[]] w1']; discriminate.
Qed.

Lemma page_loop_naps {S : Type} (next_page : S → gen_step S)
    (src src' : S) (pages : list json) :
  drains next_page src pages src' →
  ∀ (fuel : nat) (l : locals) (w : world) (naps naps' : nat) (r : loop_end),
    page_loop self resource model_class policy_id E next_page fuel src l w naps
    = (Some r, naps') →
    match r with
    | Finished _ _ _ => naps' = (naps + List.length pages)%nat
    | Returned _ _ _ => False
    | Raised _ _ _ => (naps' ≤ naps + List.length pages)%nat
    end.
Proof.
  induction 1 as [src src' Hstop|src page src1 pages src' Hyield Hdr IH];
    intros fuel l w naps naps' r; (destruct fuel as [|fuel]; [discriminate|]); simpl.
  - rewrite Hstop. intros [= <- <-]. lia.
  - rewrite Hyield.
    unfold process_page. 
    destruct (py_len _); [intros [= <- <-]; lia|].
    destruct (py_iter _) as [|xs]; [intros [= <- <-]; lia|].
    pose proof (process_items_goes_on xs
      (Locals (records_processed l) (buffer l) (validation_errors l)
         (processed_ids l) (test_records l) (bump_total n (st l))) w) as Hgo.
    destruct (process_items _ _ _ _ _ xs _ w) as [l1 w1|v1 w1|e1 w1].
    + intros Hloop. apply IH in Hloop. destruct r; auto; lia.
    + by destruct (Hgo v1 w1).
    + intros [= <- <-]. lia.
Qed.

End DependentResource.

Section DependentRuns.
Import Dependent.
Context `{Builtins} {S : Type}.
Variable self : extractor.
Variable paginate : string → option string → option string → S → gen_step S.
Variable policy_id : string.
Variable last_modified_start last_modified_end : option string.

(** X16: for every resource other than policies and quotes,
    [extract_policy_dependent_resource] ends as [extract_resource] outside
    test mode does on the same stream and session: the same value returned
    or exception raised, the same rows written. *)
Theorem dependent_extraction_agrees (resource : string) (limit : option Z)
    (fuel : nat) (src : S) (w : world) :
  resource ≠ "policies" → resource ≠ "quotes" →
  (extract_policy_dependent_resource self paginate resource policy_id
     last_modified_start last_modified_end fuel src w).1
  = extract_resource self paginate resource last_modified_start last_modified_end
      false limit fuel src w.
Proof.
  intros Hp Hq. unfold extract_policy_dependent_resource, extract_resource.
  destruct (RESOURCE_MODEL_MAP !! resource) as [model_class|]; [|reflexivity].
  destruct (RESOURCE_ENDPOINT_MAP !! resource) as [endpoint|]; [|reflexivity].
  destruct (load_existing false model_class w) as [E w0].
  pose proof (page_loop_agrees self resource model_class policy_id E Hp Hq limit
                (paginate endpoint last_modified_start last_modified_end)
                fuel src locals_init w0 0) as Hloop.
  destruct (page_loop _ _ _ _ _ _ _ _ _ _ _) as [ending naps]. simpl in Hloop.
  rewrite <- Hloop. simpl.
  destruct ending as [[l w1 s1|v w1 s1|e w1 s1]|]; reflexivity.
Qed.

(** X17: [extract_policy_dependent_resource] sleeps one second for each
    page it is handed: a run that returns has slept as many seconds as
    the stream has pages, and one that raises no more than that. *)
Theorem one_second_per_page (resource : string) (model_class endpoint : string)
    (fuel : nat) (src src' : S) (pages : list json) (w : world)
    (r : result S) (naps : nat) :
  RESOURCE_MODEL_MAP !! resource = Some model_class →
  RESOURCE_ENDPOINT_MAP !! resource = Some endpoint →
  drains (paginate endpoint last_modified_start last_modified_end) src pages src' →
  extract_policy_dependent_resource self paginate resource policy_id
    last_modified_start last_modified_end fuel src w = (Some r, naps) →
  match r with
  | Ok _ _ _ => naps = List.length pages
  | Err _ _ _ => (naps ≤ List.length pages)%nat
  end.
Proof.
  intros Hm He Hdr. unfold extract_policy_dependent_resource. rewrite Hm, He.
  destruct (load_existing false model_class w) as [E w0].
  destruct (page_loop _ _ _ _ _ _ _ _ _ _ _) as [ending n] eqn:Hloop.
  destruct ending as [ending|]; [|discriminate].
  pose proof (page_loop_naps self resource model_class policy_id E _ src src' pages
                Hdr fuel locals_init w0 0%nat n ending Hloop) as Hn.
  unfold finish. destruct ending as [l w1 s1|v w1 s1|e w1 s1]; [|contradiction|].
  - destruct (buffer l); [intros [= <- <-]; exact Hn|].
    destruct (_flush_buffer _ w1) as [[e|[]] w2]; intros [= <- <-]; lia.
  - intros [= <- <-]. exact Hn.
Qed.

(** X18: [extract_policy_dependent_resource] refuses every resource but
    contacts and policies, quotes among them, before it queries the
    session or sleeps: the branch that builds the composite identifier of
    a quote is never reached. *)
Theorem dependent_resource_is_refused (resource : string) (fuel : nat) (src : S)
    (w : world) :
  resource ≠ "contacts" → resource ≠ "policies" →
  extract_policy_dependent_resource self paginate resource policy_id
    last_modified_start last_modified_end fuel src w
  = (Some (Err (ValueError ("Unsupported resource type: " +:+ resource)) w src), 0%nat).
Proof.
  intros Hc Hp. unfold extract_policy_dependent_resource.
  assert (Hm : RESOURCE_MODEL_MAP !! resource = None).
  { unfold RESOURCE_MODEL_MAP. by rewrite !lookup_insert_ne. }
  by rewrite Hm.
Qed.

End DependentRuns.

(* ===================================================================== *)
(** * Further instances *)
(* ===================================================================== *)

Section MoreSamples.
Import Client Sample Fixtures More ClientMore.

#[local] Existing Instance scalars_only.

Lemma drains_one_page (page : json) :
  drains (pages_source "Contacts/LastModifiedCreated" None None) [page] [page] [].
Proof.
  apply (drains_yield _ _ page []); [reflexivity|]. by apply drains_stop.
Qed.

Lemma contact_good (id : string) (w : world) :
  id ≠ "" → rows (sess w) "raw_contacts" = [] →
  entity_id_of "contacts" (contact id) ≠ ""
  ∧ _validate_record (contact id) "contacts" = []
  ∧ (entity_id_of "contacts" (contact id) ∉ staged_ids w "raw_contacts").
Proof.
  intros Hid Hrows.
  assert (He : entity_id_of "contacts" (contact id) = id).
  { unfold entity_id_of, contact, dict_get_default. simpl. by rewrite lookup_insert_eq. }
  rewrite He. split; [exact Hid|]. split.
  - unfold _validate_record.
    change (id_field_map !! "contacts") with (Some ["EntityID"; "ContactId"]).
    unfold contact, dict_get. simpl. rewrite lookup_insert_eq. simpl.
    by destruct (String.eqb_spec id "").
  - unfold staged_ids. rewrite Hrows. simpl. apply not_elem_of_empty.
Qed.

Lemma unregistered_resource_is_refused_witness :
  "quotes" ≠ "contacts" ∧ "quotes" ≠ "policies"
  ∧ extract_resource (MkExtractor 1000 "batch-1") pages_source "quotes" None None
      false None 2 [one_contact] empty_world
    = Some (Err (ValueError ("Unsupported resource type: " +:+ "quotes")) empty_world
              [one_contact]).
Proof.
  split; [discriminate|]. split; [discriminate|].
  apply unregistered_resource_is_refused; discriminate.
Defined.

Lemma validation_verdict_witness :
  "quotes" ≠ "contacts" ∧ "quotes" ≠ "policies"
  ∧ (_validate_record (contact "1") "quotes" = []
     ↔ truthy (dict_get (contact "1") "EntityID") = true).
Proof.
  split; [discriminate|]. split; [discriminate|].
  destruct (validation_verdict (contact "1") "quotes") as (_ & _ & Hother & _).
  apply Hother; discriminate.
Defined.

Lemma staged_identifiers_stay_unique_witness :
  let stored := RawRecord "raw_contacts" "1" (JDict (contact "1")) "batch-0" in
  let w := seeded_world "raw_contacts" [stored] [] in
  let pages := [data_page [contact "1"; contact "2"; contact "2"]] in
  let run := extract_resource (MkExtractor 1000 "batch-1") pages_source "contacts"
               None None false None 2 pages w in
  run = Some (Ok (Count 1) (world_of run) [])
  ∧ NoDup (source_id <$> rows (sess w) "raw_contacts")
  ∧ NoDup (source_id <$> rows (sess (world_of run)) "raw_contacts").
Proof.
  intros stored w pages run.
  assert (Hrun : run = Some (Ok (Count 1) (world_of run) [])) by (vm_compute; reflexivity).
  assert (Hnd : NoDup (source_id <$> rows (sess w) "raw_contacts")).
  { change (NoDup ["1"]). apply NoDup_singleton. }
  split; [exact Hrun|]. split; [exact Hnd|].
  apply (staged_identifiers_stay_unique (MkExtractor 1000 "batch-1") pages_source
           "contacts" "raw_contacts" "Contacts/LastModifiedCreated" eq_refl eq_refl
           None None None 2 pages [] [] pages w (world_of run) 1
           eq_refl eq_refl Hnd (drains_one_page _) Hrun).
Defined.


Lemma every_flush_is_a_batch_witness :
  let self := MkExtractor 2 "batch-1" in
  let pages := [data_page [contact "1"; contact "2"; contact "3"]] in
  1 ≤ batch_size self
  ∧ match extract_resource self pages_source "contacts" None None false None 2
            pages empty_world with
    | Some (Ok _ w' _) | Some (Err _ w' _) => batches_only self empty_world w'
    | None => True
    end.
Proof.
  intros self pages. split; [simpl; lia|].
  apply every_flush_is_a_batch. simpl. lia.
Defined.

Lemma flushes_are_consecutive_batches_witness :
  let self := MkExtractor 2 "batch-1" in
  let ds := [contact "1"; contact "2"; contact "3"] in
  let record d := record_of self "raw_contacts" (entity_id_of "contacts" d) (JDict d) in
  ∃ w',
    extract_resource self pages_source "contacts" None None false None 2
      [data_page ds] empty_world = Some (Ok (Count 3) w' [])
    ∧ bulk_saves (calls (sess w'))
      = [[record (contact "1"); record (contact "2")]; [record (contact "3")]].
Proof.
  intros self ds record.
  destruct (flushes_are_consecutive_batches self 2 ltac:(lia) eq_refl pages_source
              "contacts" "raw_contacts" "Contacts/LastModifiedCreated" eq_refl eq_refl
              None None None 2 [data_page ds] [] [data_page ds] ds empty_world
              (drains_one_page _) ltac:(simpl; lia))
    as (w' & Hrun & Hsaves & _).
  - constructor; [apply page_ok_data_page|constructor].
  - apply all_items_data_page.
  - do 3 (constructor; [apply contact_good; (discriminate || reflexivity)|]).
    constructor.
  - change (NoDup ["1"; "2"; "3"]). apply (bool_decide_unpack _). vm_compute. exact I.
  - reflexivity.
  - exists w'. split; [exact Hrun|]. rewrite Hsaves. reflexivity.
Defined.

Lemma fetch_failure_drops_the_buffer_witness :
  let self := MkExtractor 2 "batch-1" in
  let ds := [contact "1"; contact "2"; contact "3"] in
  let record d := record_of self "raw_contacts" (entity_id_of "contacts" d) (JDict d) in
  ∃ w',
    extract_resource self (pages_then (TransportError "connection reset")) "contacts"
      None None false None 2 [data_page ds] empty_world
    = Some (Err (TransportError "connection reset") w' [])
    ∧ rows (sess w') "raw_contacts" = [record (contact "1"); record (contact "2")].
Proof.
  intros self ds record.
  destruct (fetch_failure_drops_the_buffer self 2 ltac:(lia) eq_refl
              (pages_then (TransportError "connection reset"))
              "contacts" "raw_contacts" "Contacts/LastModifiedCreated" eq_refl eq_refl
              None None None 2 [data_page ds] [] [data_page ds]
              (TransportError "connection reset") empty_world)
    as (w' & Hrun & Hrows).
  - apply (breaks_yield _ _ (data_page ds) []); [reflexivity|].
    by apply breaks_raise.
  - simpl. lia.
  - constructor; [apply page_ok_data_page|constructor].
  - reflexivity.
  - reflexivity.
  - exists w'. split; [exact Hrun|]. rewrite Hrows. vm_compute. reflexivity.
Defined.

Lemma test_mode_writes_nothing_witness :
  let pages := [data_page [contact "1"; contact "1"; contact "2"; contact "3"]] in
  let run := extract_resource (MkExtractor 1000 "batch-1") pages_source "contacts"
               None None true (Some 2) 2 pages connection_lost_world in
  run = Some (Ok (Records [JDict (contact "1"); JDict (contact "2")])
                connection_lost_world [])
  ∧ sample "contacts" (Some 2) [JDict (contact "1"); JDict (contact "2")].
Proof.
  intros pages run.
  assert (Hrun : run = Some (Ok (Records [JDict (contact "1"); JDict (contact "2")])
                               connection_lost_world [])) by (vm_compute; reflexivity).
  split; [exact Hrun|].
  destruct (test_mode_writes_nothing _ _ _ _ _ _ _ _ _ _ Hrun)
    as (_ & recs & [= <-] & Hs).
  exact Hs.
Defined.

Lemma no_request_without_token_witness :
  let c := logged_out endless (TokenRefused "invalid_grant") in
  let r := get_resource "Contacts" ∅ c in
  truthy_str (_access_token c) = false
  ∧ r.1 = inl (TokenError "invalid_grant")
  ∧ gets r.2 = 0%nat
  ∧ posts r.2 = 3%nat.
Proof.
  intros c r. split; [reflexivity|].
  destruct (no_request_without_token "Contacts" ∅ c "invalid_grant" eq_refl
              (fun _ => eq_refl)) as (He & Hg & _ & Hp & _).
  auto.
Defined.

Lemma get_after_construction_witness :
  let built := __init__ (Some "id") (Some "secret") None None None None
                 (<["QQCATALYST_USERNAME" := "user"]>
                    (<["QQCATALYST_PASSWORD" := "pw"]> ∅))
                 endless (fun _ => TokenGranted "tok" None) (fun _ => 0) in
  ∃ c, built = inr c
       ∧ _access_token c = Some "tok"
       ∧ _token_expires_at c = Some 3600
       ∧ get "Contacts" None c = (inr None, c).
Proof.
  intros built.
  assert (Hbuilt : ∃ c, built = inr c) by (eexists; vm_compute; reflexivity).
  destruct Hbuilt as (c & Hc). exists c. split; [exact Hc|].
  destruct (get_after_construction _ _ _ _ _ _ _ _ _ _ c "Contacts" None Hc)
    as (tok & expires_in & Hgrant & Htok & Hexp & _ & _ & Hget).
  injection Hgrant as <- <-.
  split; [exact Htok|]. split; [exact Hexp|]. apply Hget. discriminate.
Defined.


Lemma items_pages_are_fetched_but_not_staged_witness :
  let d : gmap string json := <["items" := one_contact]> ∅ in
  d !! "Data" = None
  ∧ d !! "items" = Some one_contact
  ∧ has_data (JDict d) = inr true
  ∧ process_page (MkExtractor 1000 "batch-1") "contacts" "raw_contacts" ∅ false None
      (JDict d) locals_init empty_world = Next locals_init empty_world.
Proof.
  intros d. split; [reflexivity|]. split; [reflexivity|].
  apply (items_pages_are_fetched_but_not_staged d (JDict (contact "1")) []);
    reflexivity.
Defined.


Lemma dependent_extraction_agrees_witness :
  let self := MkExtractor 1000 "batch-1" in
  let pages := [data_page [contact "1"; contact "2"]] in
  "contacts" ≠ "policies" ∧ "contacts" ≠ "quotes"
  ∧ (Dependent.extract_policy_dependent_resource self pages_source "contacts" "P-1"
       None None 2 pages empty_world).1
    = extract_resource self pages_source "contacts" None None false None 2 pages
        empty_world.
Proof.
  intros self pages. split; [discriminate|]. split; [discriminate|].
  apply dependent_extraction_agrees; discriminate.
Defined.

Lemma one_second_per_page_witness :
  let self := MkExtractor 1000 "batch-1" in
  let pages := [data_page [contact "1"]; data_page [contact "2"]] in
  let run := Dependent.extract_policy_dependent_resource self pages_source "contacts"
               "P-1" None None 3 pages empty_world in
  ∃ w', run = (Some (Ok (Count 2) w' []), 2%nat).
Proof.
  intros self pages run.
  assert (Hrun : run = (Some (Ok (Count 2) (world_of run.1) []), run.2))
    by (vm_compute; reflexivity).
  assert (Hdr : drains (pages_source "Contacts/LastModifiedCreated" None None)
                  pages pages []).
  { apply (drains_yield _ _ (data_page [contact "1"]) [data_page [contact "2"]]);
      [reflexivity|]. apply drains_one_page. }
  pose proof (one_second_per_page self pages_source "P-1" None None "contacts"
                "raw_contacts" "Contacts/LastModifiedCreated" 3 pages [] pages
                empty_world (Ok (Count 2) (world_of run.1) []) run.2 eq_refl eq_refl
                Hdr Hrun) as Hnaps.
  cbv beta iota in Hnaps.
  exists (world_of run.1). etransitivity; [exact Hrun|]. rewrite Hnaps. reflexivity.
Defined.

Lemma dependent_resource_is_refused_witness :
  "quotes" ≠ "contacts" ∧ "quotes" ≠ "policies"
  ∧ Dependent.extract_policy_dependent_resource (MkExtractor 1000 "batch-1")
      pages_source "quotes" "P-1" None None 2 [one_contact] empty_world
    = (Some (Err (ValueError ("Unsupported resource type: " +:+ "quotes")) empty_world
               [one_contact]), 0%nat).
Proof.
  split; [discriminate|]. split; [discriminate|].
  apply dependent_resource_is_refused; discriminate.
Defined.

End MoreSamples.
